(** * Energy dashboard: the data pipeline of [pp.py] and [app.py]

    A shallow embedding of the pandas pipeline of the two Streamlit scripts:
    [process_source] (the same function in both files, [app.py] taking the
    slice [df[required]] without the copy), and the combine / economics /
    summary / chart / extrema blocks of [pp.py]; [app.py] combines the
    frames and buckets them in the same way, and draws its line chart
    from the bucket sums, unstacked ([app_main]).

    Numbers are IEEE binary64 values (numpy's float64), taken as Rocq's
    primitive floats, so every arithmetic step rounds as it does in the
    program.  Timestamps are [option Z]: nanoseconds since the epoch as
    pandas' datetime64[ns] stores them, [None] being [NaT].

    Three pandas routines are not fixed by the scripts and are taken as
    parameters of the development:
    - [to_datetime], pandas' date parser on a column of strings
      ([errors='coerce']: a cell that fails to parse gives [None]; which
      cells parse may depend on the other cells, pandas inferring the
      format from the first one);
    - [argsort], numpy's [argsort(kind='quicksort')] on datetime64 keys, the
      default [kind] of [sort_values], which pandas documents as not stable;
    - [argsort_f], the same routine on float64 keys. *)

From Stdlib Require Import ZArith List Ascii String Bool Floats Lia.
From Stdlib Require Import Permutation Sorted OrderedTypeEx.
Import ListNotations.

Set Warnings "-inexact-float".

(** ** numpy float64 *)

Module Np.

Definition isnan (x : float) : bool := is_nan x.

(** [copysign r x]: the magnitude of [r] with the sign bit of [x]. *)
Definition copysign (r x : float) : float :=
  if get_sign x then (- abs r)%float else abs r.

Definition two52 : float := 0x1p52%float.

(** C's [rint] in the default rounding mode (to nearest, ties to even):
    below 2^52 in magnitude, adding and removing 2^52 rounds to an
    integer; from 2^52 on (and for infinities and NaN) the value is
    already integral or is returned as it is.  The sign of the argument
    is kept, so that [rint (-0.3)] is [-0.0]. *)
Definition rint (x : float) : float :=
  if (abs x <? two52)%float
  then copysign ((abs x + two52) - two52)%float x
  else x.

Fixpoint power_of_ten (n : nat) : float :=
  match n with
  | O => 1%float
  | S k => (10 * power_of_ten k)%float
  end.

(** [ndarray.round(decimals)] for [decimals > 0]:
    multiply by 10^decimals, [rint], divide by 10^decimals. *)
Definition around (decimals : nat) (x : float) : float :=
  (rint (x * power_of_ten decimals) / power_of_ten decimals)%float.

(** [ndarray.sum()] behind [Series.sum()] ([skipna=True]: a NaN counts
    as 0); the scripts apply it to the per-source totals, at most three
    values, added from left to right. *)
Definition nansum (l : list float) : float :=
  fold_left (fun acc x => (acc + (if isnan x then 0 else x))%float) l 0%float.

End Np.

(** ** pandas Series operations used by the scripts *)

Module Series.

(** [s.diff()]: NaN in the first position, then each value minus the one
    before it. *)
Fixpoint diff_from (prev : float) (l : list float) : list float :=
  match l with
  | [] => []
  | x :: t => (x - prev)%float :: diff_from x t
  end.

Definition diff (l : list float) : list float :=
  match l with
  | [] => []
  | x :: t => nan :: diff_from x t
  end.

(** [s.fillna(v)] *)
Definition fill (v x : float) : float := if Np.isnan x then v else x.

Definition fillna (v : float) (l : list float) : list float := map (fill v) l.

(** [s.round(decimals)] *)
Definition round (decimals : nat) (l : list float) : list float :=
  map (Np.around decimals) l.

(** pandas' [group_sum] (groupby / resample [.sum()]): Kahan summation
    over the non-missing values of a group, in row order; the running
    compensation is reset when it becomes NaN. *)
Definition kahan_step (st : float * float) (val : float) : float * float :=
  let '(sumx, compensation) := st in
  if Np.isnan val then st
  else
    let y := (val - compensation)%float in
    let t := (sumx + y)%float in
    let c := (t - sumx - y)%float in
    (t, if Np.isnan c then 0%float else c).

Definition group_sum (l : list float) : float :=
  fst (fold_left kahan_step l (0%float, 0%float)).

(** Elementwise [+] of two object (string) cells: a missing cell stays
    missing. *)
Definition str_add (a b : option string) : option string :=
  match a, b with
  | Some x, Some y => Some (x ++ y)%string
  | _, _ => None
  end.

End Series.

(** ** Frames *)

(** A cell of a column read by [pd.read_csv]: text (object dtype, a missing
    cell is [None]) or float64 (a missing cell is NaN). *)
Inductive Cell : Type :=
| Text (s : option string)
| Num (x : float).

Inductive Column : Type :=
| ObjectCol (cells : list (option string))
| FloatCol (cells : list float).

(** The frame [pd.read_csv] returns: header names with their columns. *)
Definition CsvFrame : Type := list (string * Column).

Definition columns (df : CsvFrame) : list string := map fst df.

Fixpoint getitem (df : CsvFrame) (col : string) : option Column :=
  match df with
  | [] => None
  | (name, c) :: rest => if String.eqb name col then Some c else getitem rest col
  end.

Definition cells_of (c : Column) : list Cell :=
  match c with
  | ObjectCol l => map Text l
  | FloatCol l => map Num l
  end.

(** The cells of the [post_date] column, to which the script adds [' '].
    A float64 column (dates that are all empty, or all numbers) cannot be
    added to text: that raises a TypeError.  [read_csv] gives the columns of
    a file without rows the object dtype; a float column without rows is
    taken like them. *)
Definition as_text (c : Column) : option (list (option string)) :=
  match c with
  | ObjectCol l => Some l
  | FloatCol [] => Some []
  | FloatCol (_ :: _) => None
  end.

(** The number in a cell; a cell that holds none counts as NaN. *)
Definition as_number (c : Cell) : float :=
  match c with
  | Num x => x
  | Text _ => nan
  end.

(** Whether [df['kwh_import'].diff()] raises.  On a float64 column [diff] is
    float arithmetic.  On an object column (one reading that is not a number
    makes the column one) each cell has the cell before it subtracted as a
    Python object, and a text operand raises a TypeError: the column raises
    when it has two rows or more and a text among them.  A single row has
    nothing subtracted from it. *)
Definition diff_raises (c : Column) : bool :=
  match c with
  | FloatCol _ => false
  | ObjectCol l =>
      (2 <=? List.length l)%nat
      && existsb (fun c => match c with Some _ => true | None => false end) l
  end.

(** One row of the frame [process_source] returns. *)
Record Reading : Type := mkReading {
  post_datetime : option Z;
  post_date : option string;
  post_time : Cell;
  total_kw : Cell;
  kwh_import : Cell;
  KWh : float;
  source : string
}.

(** One row of [combined_df] once the economics columns are assigned. *)
Record EconRow : Type := mkEconRow {
  reading : Reading;
  expected_fuel_liters : float;
  cost_ngn : float
}.

(** ** The Streamlit page: messages so far, and Python exceptions *)

Inductive Event : Type :=
| Warning (source_name : string)     (* st.warning: missing required columns *)
| Success (source_name : string)     (* st.success: data loaded *)
| Info.                              (* st.info: please upload a file *)

Inductive Outcome (A : Type) : Type :=
| Ok (a : A)
| Raised.
Arguments Ok {A} a.
Arguments Raised {A}.

Definition Page (A : Type) : Type := list Event -> Outcome A * list Event.

Definition ret {A} (a : A) : Page A := fun log => (Ok a, log).
Definition raise {A} : Page A := fun log => (Raised, log).
Definition emit (e : Event) : Page unit := fun log => (Ok tt, log ++ [e]).
Definition bind {A B} (m : Page A) (k : A -> Page B) : Page B :=
  fun log =>
    match m log with
    | (Ok a, log') => k a log'
    | (Raised, log') => (Raised, log')
    end.

Notation "x <- m ;; k" := (bind m (fun x => k))
  (at level 61, m at next level, right associativity).
Notation "m ;;; k" := (bind m (fun _ => k))
  (at level 61, right associativity).

(** ** Constants *)

Definition GEN_EFFICIENCY_KWH_PER_L : float := 3.3%float.
Definition TARIFF_UTILITY : float := 209.50%float.
Definition TARIFF_GEN : float := 1000%float.

Definition required : list string :=
  ["post_date"; "post_time"; "total_kw"; "kwh_import"]%string.

Section Pipeline.

Variable to_datetime : list (option string) -> list (option Z).
Variable argsort : list Z -> list nat.
Variable argsort_f : list float -> list nat.

(** *** [process_source] *)

(** [take]: the rows at the positions of [indexer], in that order. *)
Definition take {A} (rows : list A) (indexer : list nat) : list A :=
  flat_map (fun i => match nth_error rows i with
                     | Some r => [r]
                     | None => []
                     end) indexer.

Definition isna {A} (k : option A) : bool :=
  match k with Some _ => false | None => true end.

Definition dropna {A} (keys : list (option A)) : list A :=
  flat_map (fun k => match k with Some t => [t] | None => [] end) keys.

(** The positions [0 .. n-1] whose key satisfies [p]. *)
Definition positions {A} (p : A -> bool) (keys : list A) : list nat :=
  map fst (filter (fun ik => p (snd ik)) (combine (seq 0 (List.length keys)) keys)).

(** pandas' [nargsort] for [ascending=True, na_position='last']: the
    non-missing keys are sorted by [argsort]; the positions of the missing
    keys follow, in row order. *)
Definition nargsort (keys : list (option Z)) : list nat :=
  let non_nan_idx := positions (fun k => negb (isna k)) keys in
  let nan_idx := positions isna keys in
  take non_nan_idx (argsort (dropna keys)) ++ nan_idx.

(** [df.sort_values(by)], the key of each row given by [key]. *)
Definition sort_values {A} (key : A -> option Z) (df : list A) : list A :=
  take df (nargsort (map key df)).

(** A row of [df[required]] with its [post_datetime]. *)
Record Stamped : Type := mkStamped {
  st_datetime : option Z;
  st_date : option string;
  st_time : Cell;
  st_total_kw : Cell;
  st_kwh_import : Cell
}.

(** [df['post_date'] + ' ' + df['post_time']].  Text and text are joined
    cell by cell, a missing cell giving a missing one.  A float [post_time]
    column (the column of a file whose times are all empty is one) cannot be
    added to text as a whole: pandas then adds the rows in which both cells
    are present, which raises a TypeError when there is such a row, and
    leaves every cell missing otherwise. *)
Definition date_time (d : list (option string)) (time : Column)
  : option (list (option string)) :=
  match time with
  | ObjectCol t =>
      Some (map (fun dt => Series.str_add (Series.str_add (fst dt) (Some " "%string))
                                          (snd dt))
                (combine d t))
  | FloatCol t =>
      if existsb (fun dt => negb (isna (fst dt)) && negb (Np.isnan (snd dt)))
                 (combine d t)
      then None
      else Some (map (fun _ => None) (combine d t))
  end.

(** The rows of the four columns with the timestamps [ts], one per row (a
    row beyond the end of [ts] has none). *)
Fixpoint stamp_rows (ts : list (option Z)) (d : list (option string))
  (t kw imp : list Cell) : list Stamped :=
  match d, t, kw, imp with
  | d0 :: d', t0 :: t', k0 :: kw', i0 :: imp' =>
      mkStamped (hd None ts) d0 t0 k0 i0 :: stamp_rows (tl ts) d' t' kw' imp'
  | _, _, _, _ => []
  end.

(** [df['KWh'] = df['kwh_import'].diff().fillna(0).round(2)] *)
Definition derive_KWh (cumulative : list float) : list float :=
  Series.round 2 (Series.fillna 0%float (Series.diff cumulative)).

Fixpoint tag_rows (source_name : string) (rows : list Stamped) (kwh : list float)
  : list Reading :=
  match rows, kwh with
  | r :: rows', k :: kwh' =>
      mkReading (st_datetime r) (st_date r) (st_time r) (st_total_kw r)
                (st_kwh_import r) k source_name
      :: tag_rows source_name rows' kwh'
  | _, _ => []
  end.

Definition has_required (df : CsvFrame) : bool :=
  forallb (fun col => existsb (String.eqb col) (columns df)) required.

(** [df[required]] with its [post_datetime] column; [None] when the dtype
    of a column makes the script raise, in the date concatenation or in
    [diff] (which raises or not whatever the order of the rows is). *)
Definition stamped (df : CsvFrame) : option (list Stamped) :=
  match getitem df "post_date", getitem df "post_time",
        getitem df "total_kw", getitem df "kwh_import" with
  | Some date, Some time, Some kw, Some imp =>
      match as_text date with
      | Some d =>
          match date_time d time with
          | Some joined =>
              if diff_raises imp then None
              else Some (stamp_rows (to_datetime joined) d (cells_of time)
                           (cells_of kw) (cells_of imp))
          | None => None
          end
      | None => None
      end
  | _, _, _, _ => None
  end.

(** The [kwh_import] column as [diff] takes it.  A text cell is only met in
    a column of one row, where it is not used: the difference of a first row
    is missing whatever the cell holds. *)
Definition readings (df : list Stamped) : list float :=
  map (fun r => as_number (st_kwh_import r)) df.

Definition process_source (uploaded_file : CsvFrame) (source_name : string)
  : Page (list Reading) :=
  let df := uploaded_file in
  if negb (has_required df) then
    emit (Warning source_name) ;;; ret []
  else
    match stamped df with
    | Some df =>
        let df := sort_values st_datetime df in
        let kwh := derive_KWh (readings df) in
        ret (tag_rows source_name df kwh)
    | None => raise
    end.

(** *** Process and combine *)

(** One [if <file>: ...] block: an uploaded file is processed, and its frame
    is appended when it is not empty. *)
Definition load (file : option CsvFrame) (source_name : string)
  (dataframes : list (list Reading)) : Page (list (list Reading)) :=
  match file with
  | None => ret dataframes
  | Some f =>
      df <- process_source f source_name ;;
      match df with
      | [] => ret dataframes
      | _ :: _ => emit (Success source_name) ;;; ret (dataframes ++ [df])
      end
  end.

(** [pd.concat(dataframes, ignore_index=True)] *)
Definition pd_concat (dataframes : list (list Reading)) : list Reading :=
  List.concat dataframes.

(** *** Expected fuel and cost *)

(** [df.loc[mask, col] = f(row)]: the rows selected by [mask] are updated,
    the others are left as they are. *)
Definition loc_assign {A} (mask : A -> bool) (upd : A -> A) (df : list A) : list A :=
  map (fun r => if mask r then upd r else r) df.

Definition gen_sources : list string := ["Gen1"; "Gen2"]%string.

Definition fuel_column (df : list Reading) : list (Reading * float) :=
  let df := map (fun r => (r, 0%float)) df in
  fold_left
    (fun df gen_source =>
       loc_assign (fun rf => String.eqb (source (fst rf)) gen_source)
         (fun rf => (fst rf,
                     Np.around 2 (KWh (fst rf) / GEN_EFFICIENCY_KWH_PER_L)%float))
         df)
    gen_sources df.

Definition set_cost (c : float) (r : EconRow) : EconRow :=
  mkEconRow (reading r) (expected_fuel_liters r) c.

Definition cost_column (df : list (Reading * float)) : list EconRow :=
  let df := map (fun rf => mkEconRow (fst rf) (snd rf) 0%float) df in
  let df :=
    loc_assign (fun r => String.eqb (source (reading r)) "Utility")
      (fun r => set_cost (KWh (reading r) * TARIFF_UTILITY)%float r) df in
  let df :=
    fold_left
      (fun df gen_source =>
         loc_assign (fun r => String.eqb (source (reading r)) gen_source)
           (fun r => set_cost (expected_fuel_liters r * TARIFF_GEN)%float r) df)
      gen_sources df in
  map (fun r => set_cost (Np.around 2 (cost_ngn r)) r) df.

Definition economics (combined_df : list Reading) : list EconRow :=
  cost_column (fuel_column combined_df).

(** The economics of one record as the specification words it: a function
    of the source and the kWh, with the two tariffs and the generator
    efficiency; a source that is neither a generator nor the utility gets
    no fuel and no cost. *)
Definition economics_of (source : string) (kwh : float) : float * float :=
  if String.eqb source "Gen1" || String.eqb source "Gen2" then
    let fuel := Np.around 2 (kwh / 3.3)%float in
    (fuel, Np.around 2 (fuel * 1000)%float)
  else if String.eqb source "Utility" then
    (0%float, Np.around 2 (kwh * 209.50)%float)
  else (0%float, 0%float).

(** *** Summaries *)

(** The keys of [groupby('source')]: the distinct sources, sorted. *)
Fixpoint insert_key (k : string) (keys : list string) : list string :=
  match keys with
  | [] => [k]
  | h :: t =>
      if String.eqb k h then keys
      else if String.ltb k h then k :: keys
      else h :: insert_key k t
  end.

Definition group_keys (sources : list string) : list string :=
  fold_left (fun keys k => insert_key k keys) sources [].

Definition src (r : EconRow) : string := source (reading r).

(** [df.groupby('source')[col].sum().reset_index()] *)
Definition groupby_sum (col : EconRow -> float) (df : list EconRow)
  : list (string * float) :=
  map (fun k =>
         (k, Series.group_sum (map col (filter (fun r => String.eqb (src r) k) df))))
      (group_keys (map src df)).

(** A row of a summary table; [pct] is the number behind the text of the
    ['% of Total'] column, which is [str(pct) + '%']. *)
Record SummaryRow : Type := mkSummaryRow {
  s_source : string;
  s_value : float;
  pct : float
}.

Definition percent_of_total (rows : list (string * float)) : list SummaryRow :=
  let total := Np.nansum (map snd rows) in
  map (fun kv => mkSummaryRow (fst kv) (snd kv)
                   (Np.around 1 (snd kv / total * 100)%float)) rows.

Definition summary (combined_df : list EconRow) : list SummaryRow :=
  let summary := groupby_sum (fun r => KWh (reading r)) combined_df in
  let summary := map (fun kv => (fst kv, Np.around 2 (snd kv))) summary in
  percent_of_total summary.

Definition fuel_summary (combined_df : list EconRow) : list (string * float) :=
  let gens :=
    filter (fun r => existsb (String.eqb (src r)) gen_sources) combined_df in
  map (fun kv => (fst kv, Np.around 2 (snd kv)))
      (groupby_sum expected_fuel_liters gens).

(** [nargsort] for [ascending=False, na_position='last'] on float keys. *)
Definition nargsort_desc (keys : list float) : list nat :=
  let non_nan_idx := rev (positions (fun k => negb (Np.isnan k)) keys) in
  let non_nans := rev (filter (fun k => negb (Np.isnan k)) keys) in
  let nan_idx := positions Np.isnan keys in
  rev (take non_nan_idx (argsort_f non_nans)) ++ nan_idx.

Definition cost_summary (combined_df : list EconRow) : list SummaryRow :=
  let cost_summary := groupby_sum cost_ngn combined_df in
  let cost_summary := take cost_summary (nargsort_desc (map snd cost_summary)) in
  percent_of_total cost_summary.

(** *** Chart data: 5-minute buckets per source *)

(** ['5T'] in nanoseconds. *)
Definition bucket_width : Z := 300000000000.

Definition floor_to (width t : Z) : Z := t - t mod width.

(** The stable sort by timestamp that [resample] applies to an index that
    is not already in order ([argsort(kind='mergesort')]). *)
Fixpoint insert_sorted (x : Z * float) (l : list (Z * float)) : list (Z * float) :=
  match l with
  | [] => [x]
  | h :: t => if (fst x <=? fst h)%Z then x :: l else h :: insert_sorted x t
  end.

Definition mergesort (l : list (Z * float)) : list (Z * float) :=
  fold_right insert_sorted [] l.

Record Bucket : Type := mkBucket {
  b_source : string;
  bucket_start : Z;
  bucket_kwh : float
}.

(** [s.resample('5T').sum()] of one source's series, indexed by
    [post_datetime]: rows without a timestamp are left out; the bins run
    from the bucket of the earliest timestamp to the bucket of the latest,
    empty bins included (their sum is 0).  pandas has no bin edges for a
    series without any timestamp: the result is [None] there. *)
Definition resample_sum (width : Z) (series : list (option Z * float))
  : option (list (Z * float)) :=
  let rows :=
    mergesort
      (flat_map (fun tv => match fst tv with
                           | Some t => [(t, snd tv)]
                           | None => []
                           end) series) in
  match rows with
  | [] => None
  | (t0, _) :: _ =>
      let first := floor_to width t0 in
      let last := floor_to width (fst (List.last rows (t0, 0%float))) in
      let n := Z.to_nat ((last - first) / width + 1) in
      Some (map (fun k =>
                   let start := (first + Z.of_nat k * width)%Z in
                   (start,
                    Series.group_sum
                      (map snd (filter (fun tv => (floor_to width (fst tv) =? start)%Z)
                                       rows))))
                (seq 0 n))
  end.

Fixpoint sequence {A} (l : list (option (list A))) : option (list A) :=
  match l with
  | [] => Some []
  | None :: _ => None
  | Some x :: t =>
      match sequence t with
      | Some r => Some (x ++ r)
      | None => None
      end
  end.

(** [set_index('post_datetime').groupby('source')[col].resample('5T').sum()
    .reset_index()], for rows given as (source, timestamp, value). *)
Definition bucket_sums (rows : list (string * option Z * float))
  : option (list Bucket) :=
  sequence
    (map (fun k =>
            let series :=
              map (fun r => (snd (fst r), snd r))
                  (filter (fun r => String.eqb (fst (fst r)) k) rows) in
            match resample_sum bucket_width series with
            | Some buckets =>
                Some (map (fun b => mkBucket k (fst b) (snd b)) buckets)
            | None => None
            end)
         (group_keys (map (fun r => fst (fst r)) rows))).

Definition chart_data (combined_df : list EconRow) : option (list Bucket) :=
  bucket_sums
    (map (fun r => (src r, post_datetime (reading r), KWh (reading r))) combined_df).

(** *** High and low markers *)

(** numpy's [argmax]: the first position of the greatest value. *)
Fixpoint argmax_from (mp : float) (max_ind i : nat) (l : list float) : nat :=
  match l with
  | [] => max_ind
  | x :: t =>
      if negb (x <=? mp)%float then argmax_from x i (S i) t
      else argmax_from mp max_ind (S i) t
  end.

Fixpoint argmin_from (mp : float) (min_ind i : nat) (l : list float) : nat :=
  match l with
  | [] => min_ind
  | x :: t =>
      if negb (mp <=? x)%float then argmin_from x i (S i) t
      else argmin_from mp min_ind (S i) t
  end.

(** [s.idxmax()] and [s.idxmin()] ([skipna=True]): missing values stand
    for -inf (resp. +inf); a series with no value at all has no answer. *)
Definition idxmax (l : list float) : option nat :=
  if forallb Np.isnan l then None
  else
    match map (fun x => if Np.isnan x then neg_infinity else x) l with
    | [] => None
    | x :: t => Some (argmax_from x 0 1 t)
    end.

Definition idxmin (l : list float) : option nat :=
  if forallb Np.isnan l then None
  else
    match map (fun x => if Np.isnan x then infinity else x) l with
    | [] => None
    | x :: t => Some (argmin_from x 0 1 t)
    end.

(** [chart_data['source'].unique()]: the distinct sources, in order of
    first appearance. *)
Fixpoint unique (l : list string) : list string :=
  match l with
  | [] => []
  | x :: t => x :: filter (fun y => negb (String.eqb y x)) (unique t)
  end.

Record Marker : Type := mkMarker {
  m_source : string;
  max_row : Bucket;
  min_row : Bucket
}.

Definition marker_of (chart : list Bucket) (source : string) : option Marker :=
  let source_data := filter (fun b => String.eqb (b_source b) source) chart in
  match idxmax (map bucket_kwh source_data), idxmin (map bucket_kwh source_data) with
  | Some i, Some j =>
      match nth_error source_data i, nth_error source_data j with
      | Some hi, Some lo => Some (mkMarker source hi lo)
      | _, _ => None
      end
  | _, _ => None
  end.

Fixpoint markers_for (chart : list Bucket) (sources : list string)
  : option (list Marker) :=
  match sources with
  | [] => Some []
  | s :: rest =>
      match marker_of chart s, markers_for chart rest with
      | Some m, Some ms => Some (m :: ms)
      | _, _ => None
      end
  end.

Definition markers (chart : list Bucket) : option (list Marker) :=
  markers_for chart (unique (map b_source chart)).

(** *** The page of [pp.py] *)

Record Report : Type := mkReport {
  combined_df : list EconRow;
  r_summary : list SummaryRow;
  r_fuel_summary : list (string * float);
  r_cost_summary : list SummaryRow;
  r_chart_data : list Bucket;
  r_markers : list Marker
}.

(** [int(x)] of a float raises a ValueError for NaN and an OverflowError
    for an infinity. *)
Definition int_raises (x : float) : bool := is_nan x || is_infinity x.

(** The chart block: the chart data and the markers of the figure; [None]
    when one of them raises. *)
Definition chart_block (combined_df : list EconRow)
  : option (list Bucket * list Marker) :=
  match chart_data combined_df with
  | None => None
  | Some chart =>
      match markers chart with
      | None => None
      | Some ms => Some (chart, ms)
      end
  end.

(** The loop over the rows of [cost_summary].  Each round shows the cost of
    the row, [int(row['cost_ngn'])], and then runs the chart block, which
    the indentation of the script puts inside the loop.  [fig] is the figure
    of the last round, if there was one; the result is [None] when a round
    raises. *)
Fixpoint cost_rows (combined_df : list EconRow) (rows : list SummaryRow)
  (fig : option (list Bucket * list Marker))
  : option (option (list Bucket * list Marker)) :=
  match rows with
  | [] => Some fig
  | row :: rest =>
      if int_raises (s_value row) then None
      else
        match chart_block combined_df with
        | Some fig => cost_rows combined_df rest (Some fig)
        | None => None
        end
  end.

(** What the page does once the three files are loaded.  Of the rendering
    the calls that can raise are kept: [st.columns(len(fuel_summary))]
    raises for a table without rows, [int(row['cost_ngn'])] for a cost that
    is not a finite number, and [fig.update_layout] needs the figure that
    the loop makes. *)
Definition report (dataframes : list (list Reading)) : Page (option Report) :=
  match dataframes with
  | [] => emit Info ;;; ret None
  | _ :: _ =>
      let combined_df := economics (pd_concat dataframes) in
      match fuel_summary combined_df with
      | [] => raise
      | _ :: _ =>
          match cost_rows combined_df (cost_summary combined_df) None with
          | Some (Some (chart, ms)) =>
              ret (Some (mkReport combined_df (summary combined_df)
                           (fuel_summary combined_df) (cost_summary combined_df)
                           chart ms))
          | _ => raise
          end
      end
  end.

Definition after_gen1 (gen2_file : option CsvFrame) (dataframes : list (list Reading))
  : Page (option Report) :=
  dataframes <- load gen2_file "Gen2" dataframes ;;
  report dataframes.

Definition after_utility (gen1_file gen2_file : option CsvFrame)
  (dataframes : list (list Reading)) : Page (option Report) :=
  dataframes <- load gen1_file "Gen1" dataframes ;;
  after_gen1 gen2_file dataframes.

Definition main (utility_file gen1_file gen2_file : option CsvFrame)
  : Page (option Report) :=
  dataframes <- load utility_file "Utility" [] ;;
  after_utility gen1_file gen2_file dataframes.

End Pipeline.

(** ** Notions used to state the properties *)

(** What numpy documents of [argsort]: the result is a permutation of the
    positions, and the keys taken in that order are ascending.  The order
    of equal keys is not part of it for [kind='quicksort']. *)
Definition sorts (argsort : list Z -> list nat) : Prop :=
  forall keys,
    Permutation (argsort keys) (seq 0 (List.length keys))
    /\ Sorted Z.le (take keys (argsort keys)).

(** Rows with, resp. without, a timestamp. *)
Definition has_key {A} (key : A -> option Z) (r : A) : bool := negb (isna (key r)).
Definition no_key {A} (key : A -> option Z) (r : A) : bool := isna (key r).

(** A row of the returned frame without its [KWh] and [source] columns. *)
Definition untag (r : Reading) : Stamped :=
  mkStamped (post_datetime r) (post_date r) (post_time r) (total_kw r) (kwh_import r).

(** A row of [combined_df] that has a timestamp. *)
Definition timed (r : EconRow) : bool := negb (isna (post_datetime (reading r))).

(** The timestamped values of a series, in row order. *)
Definition stamps (series : list (option Z * float)) : list (Z * float) :=
  flat_map (fun tv => match fst tv with
                      | Some t => [(t, snd tv)]
                      | None => []
                      end) series.

(** The order on source names that [groupby] sorts its keys by. *)
Definition slt (a b : string) : Prop := String.ltb a b = true.

(** A rank that orders the float64 values other than NaN as [SFcompare]
    does: sign class first, then exponent, then mantissa. *)
Definition float_rank (x : spec_float) : Z * Z * Z :=
  match x with
  | S754_zero _ => (0, 0, 0)
  | S754_infinity false => (2, 0, 0)
  | S754_infinity true => (-2, 0, 0)
  | S754_nan => (0, 0, 0)
  | S754_finite false m e => (1, e, Zpos m)
  | S754_finite true m e => (-1, - e, Zneg m)
  end%Z.

(** The lexicographic comparison of two ranks. *)
Definition lex3 (a b : Z * Z * Z) : comparison :=
  match (fst (fst a) ?= fst (fst b))%Z with
  | Eq => match (snd (fst a) ?= snd (fst b))%Z with
          | Eq => (snd a ?= snd b)%Z
          | c => c
          end
  | c => c
  end.

(** The comparison of two floats that are not NaN. *)
Definition fcmp (x y : float) : comparison :=
  lex3 (float_rank (Prim2SF x)) (float_rank (Prim2SF y)).

(** No value of the list is NaN. *)
Definition all_numbers (l : list float) : Prop :=
  Forall (fun x => is_nan x = false) l.

(** The first position of a greatest value: [v] at position [r] is not below
    any value, and is strictly above the values before [r]. *)
Definition first_max (l : list float) (r : nat) : Prop :=
  exists v, nth_error l r = Some v
            /\ (forall e, In e l -> fcmp e v <> Gt)
            /\ (forall j e, j < r -> nth_error l j = Some e -> fcmp e v = Lt).

(** The first position of a least value. *)
Definition first_min (l : list float) (r : nat) : Prop :=
  exists v, nth_error l r = Some v
            /\ (forall e, In e l -> fcmp v e <> Gt)
            /\ (forall j e, j < r -> nth_error l j = Some e -> fcmp v e = Lt).

(** The buckets of one source. *)
Definition of_source (s : string) (b : Bucket) : bool := String.eqb (b_source b) s.

(** NaN or an infinity: what a division by zero gives. *)
Definition nan_or_inf (x : float) : Prop :=
  Prim2SF x = S754_nan \/ exists s, Prim2SF x = S754_infinity s.

(** What the division by a total [t] that is zero, followed by [* 100] and
    [round(1)], gives for a value [v]: NaN for a value that is zero or not a
    number, otherwise the infinity whose sign is that of [v] against that of
    the zero. *)
Definition pct_over_zero (t v : float) : float :=
  if Np.isnan v || (v =? 0)%float then nan
  else if Bool.eqb (get_sign v) (get_sign t) then infinity else neg_infinity.

(** A float64 value with the given sign bit, NaN excluded. *)
Definition has_sign (s : bool) (x : spec_float) : Prop :=
  match x with
  | S754_zero s' | S754_infinity s' | S754_finite s' _ _ => s' = s
  | S754_nan => False
  end.

(** A negative number, or negative zero. *)
Definition negative_or_negzero (x : float) : Prop :=
  (x <? 0)%float = true \/ x = neg_zero.

(** A finite float64 above zero. *)
Definition positive_finite (c : float) : Prop :=
  exists m e, Prim2SF c = S754_finite false m e.

(** The bucket-and-sum transform applied to bucket sums, each placed at its
    [bucket_start]. *)
Definition rebucket (chart : list Bucket) : option (list Bucket) :=
  bucket_sums (map (fun b => (b_source b, Some (bucket_start b), bucket_kwh b)) chart).

(** A bucket whose sum is added up again, as a series of one value. *)
Definition resum (b : Bucket) : Bucket :=
  mkBucket (b_source b) (bucket_start b) (Series.group_sum [bucket_kwh b]).

(** Ascending timestamps. *)
Definition by_time (a b : Z * float) : Prop := (fst a <= fst b)%Z.

(** The shape of a resampled series: consecutive bucket starts from a
    multiple of the width, at least one of them. *)
Definition regular (w : Z) (buckets : list (Z * float)) : Prop :=
  exists first n g,
    (first mod w = 0)%Z /\ 1 <= n
    /\ buckets = map (fun k => ((first + Z.of_nat k * w)%Z, g k)) (seq 0 n).

(** ** Comparing two runs of the page *)

Definition event_eqb (a b : Event) : bool :=
  match a, b with
  | Warning x, Warning y => String.eqb x y
  | Success x, Success y => String.eqb x y
  | Info, Info => true
  | _, _ => false
  end.

(** The messages of [log] other than [e]. *)
Definition without (e : Event) (log : list Event) : list Event :=
  filter (fun x => negb (event_eqb x e)) log.

(** Two runs of the page agree, the message [e] set aside: same result
    (the report, or the exception), same other messages in the same order. *)
Definition same_but (e : Event) (a b : Outcome (option Report) * list Event) : Prop :=
  fst a = fst b /\ without e (snd a) = without e (snd b).

(** A page computation is steady when its result and the messages it adds do
    not depend on the messages already on the page. *)
Definition steady {A} (m : Page A) : Prop :=
  forall log, m log = (fst (m []), log ++ snd (m [])).

(** ** Notions for the summaries *)

(** The order of float64 values: [a] is not above [b]. *)
Definition fle (a b : float) : Prop := (a <=? b)%float = true.

(** [a] is not below [b]: the order of a column sorted with
    [ascending=False]. *)
Definition fge (a b : float) : Prop := (b <=? a)%float = true.

(** What numpy documents of [argsort] on float64 keys, none of them NaN
    ([nargsort] takes the NaN keys out before it sorts): a permutation of
    the positions that puts the keys in ascending order. *)
Definition sorts_f (argsort_f : list float -> list nat) : Prop :=
  forall keys,
    all_numbers keys ->
    Permutation (argsort_f keys) (seq 0 (List.length keys))
    /\ Sorted fle (take keys (argsort_f keys)).

(** ** Notions for the chart data *)

(** The series of one source that [groupby('source')] hands to [resample]:
    the timestamp and the value of the rows of that source, in row order. *)
Definition series_of (rows : list (string * option Z * float)) (k : string)
  : list (option Z * float) :=
  map (fun r => (snd (fst r), snd r))
      (filter (fun r => String.eqb (fst (fst r)) k) rows).

(** The rows of [combined_df] as [chart_data] reads them. *)
Definition chart_rows (combined_df : list EconRow) : list (string * option Z * float) :=
  map (fun r => (src r, post_datetime (reading r), KWh (reading r))) combined_df.

(** ** Notions for the uploads *)

(** A file that has the required columns and no row under its header. *)
Definition no_rows (f : CsvFrame) : bool :=
  forallb (fun c => match getitem f c with
                    | Some col => match cells_of col with
                                  | [] => true
                                  | _ :: _ => false
                                  end
                    | None => false
                    end) required.

(** An upload slot that is left empty, or holds a file without rows. *)
Definition nothing_to_load (file : option CsvFrame) : Prop :=
  match file with
  | None => True
  | Some f => no_rows f = true
  end.

(** ** The page of [app.py] *)

(** The values of an index level are distinct and in ascending order:
    [insert_start] puts one more value in its place. *)
Fixpoint insert_start (t : Z) (starts : list Z) : list Z :=
  match starts with
  | [] => [t]
  | h :: rest =>
      if (t =? h)%Z then starts
      else if (t <? h)%Z then t :: starts
      else h :: insert_start t rest
  end.

(** The level made of the given values. *)
Definition index_level (starts : list Z) : list Z :=
  fold_left (fun acc t => insert_start t acc) starts [].

(** The values of a list of results, when none of them is a failure. *)
Fixpoint all_some {A} (l : list (option A)) : option (list A) :=
  match l with
  | [] => Some []
  | None :: _ => None
  | Some x :: t =>
      match all_some t with
      | Some r => Some (x :: r)
      | None => None
      end
  end.

(** One row of the frame that [st.line_chart] is given: a bucket start and,
    for every source, the sum of that bucket. *)
Record WideRow : Type := mkWideRow {
  w_datetime : Z;
  w_cells : list (string * float)
}.

(** The cell of the unstacked frame at (post_datetime, source): the sum of
    the bucket with that source and start; NaN when there is none; with
    two of them pandas cannot reshape and raises a ValueError. *)
Definition cell (chart : list Bucket) (s : string) (t : Z) : option float :=
  match filter (fun b => String.eqb (b_source b) s && (bucket_start b =? t)%Z) chart with
  | [] => Some nan
  | [b] => Some (bucket_kwh b)
  | _ :: _ :: _ => None
  end.

(** [.unstack(0)] of the bucket sums indexed by (source, post_datetime):
    the sources become the columns, in ascending order of name; the
    distinct bucket starts are the index, in ascending order. *)
Definition unstack (chart : list Bucket) : option (list WideRow) :=
  let columns := group_keys (map b_source chart) in
  all_some
    (map (fun t =>
            option_map (mkWideRow t)
              (all_some (map (fun s => option_map (pair s) (cell chart s t)) columns)))
         (index_level (map bucket_start chart))).

(** What the page of [app.py] shows: the preview and the line chart. *)
Record AppReport : Type := mkAppReport {
  a_combined_df : list Reading;
  a_chart : list WideRow
}.

Section AppPage.

Variable to_datetime : list (option string) -> list (option Z).
Variable argsort : list Z -> list nat.

(** The block [if dataframes:] of [app.py]; the script has no [else]. *)
Definition app_report (dataframes : list (list Reading)) : Page (option AppReport) :=
  match dataframes with
  | [] => ret None
  | _ :: _ =>
      let combined_df := pd_concat dataframes in
      match bucket_sums
              (map (fun r => (source r, post_datetime r, KWh r)) combined_df) with
      | None => raise
      | Some chart =>
          match unstack chart with
          | None => raise
          | Some wide => ret (Some (mkAppReport combined_df wide))
          end
      end
  end.

(** [app.py]: the same [process_source] and the same three upload blocks
    as [pp.py] (other words in the messages), then the preview and the line
    chart. *)
Definition app_main (utility_file gen1_file gen2_file : option CsvFrame)
  : Page (option AppReport) :=
  dataframes <- load to_datetime argsort utility_file "Utility" [] ;;
  dataframes <- load to_datetime argsort gen1_file "Gen1" dataframes ;;
  dataframes <- load to_datetime argsort gen2_file "Gen2" dataframes ;;
  app_report dataframes.

End AppPage.

(** ** Instances of the parameters, used to evaluate the pipeline *)

Module Instances.

Definition digit (c : Ascii.ascii) : option Z :=
  let n := Ascii.nat_of_ascii c in
  if (48 <=? n)%nat && (n <=? 57)%nat then Some (Z.of_nat (n - 48)) else None.

Fixpoint number (acc : Z) (l : list Ascii.ascii) : option Z :=
  match l with
  | [] => Some acc
  | c :: t =>
      match digit c with
      | Some d => number (acc * 10 + d) t
      | None => None
      end
  end.

(** Days from 1970-01-01 to the given civil date (proleptic Gregorian). *)
Definition days_from_civil (y m d : Z) : Z :=
  let y := if (m <=? 2)%Z then (y - 1)%Z else y in
  let era := (y / 400)%Z in
  let yoe := (y - era * 400)%Z in
  let mp := if (m >? 2)%Z then (m - 3)%Z else (m + 9)%Z in
  let doy := ((153 * mp + 2) / 5 + d - 1)%Z in
  let doe := (yoe * 365 + yoe / 4 - yoe / 100 + doy)%Z in
  (era * 146097 + doe - 719468)%Z.

Definition leap_year (y : Z) : bool :=
  ((y mod 4 =? 0) && negb (y mod 100 =? 0) || (y mod 400 =? 0))%Z.

Definition days_in_month (y m : Z) : Z :=
  if (m =? 2)%Z then (if leap_year y then 29 else 28)%Z
  else if ((m =? 4) || (m =? 6) || (m =? 9) || (m =? 11))%Z then 30%Z
  else 31%Z.

(** A parser for the one layout [YYYY-MM-DD HH:MM:SS], in nanoseconds; a
    day that the month does not have is not a date. *)
Definition iso_datetime (s : string) : option Z :=
  match list_ascii_of_string s with
  | [y1; y2; y3; y4; "-"; m1; m2; "-"; d1; d2; " "; h1; h2; ":"; n1; n2; ":"; s1; s2]%char =>
      match number 0 [y1; y2; y3; y4], number 0 [m1; m2], number 0 [d1; d2],
            number 0 [h1; h2], number 0 [n1; n2], number 0 [s1; s2] with
      | Some y, Some m, Some d, Some hh, Some mm, Some ss =>
          if ((1 <=? m) && (m <=? 12) && (1 <=? d) && (d <=? days_in_month y m)
              && (hh <? 24) && (mm <? 60) && (ss <? 60))%Z
          then Some ((((days_from_civil y m d * 24 + hh) * 60 + mm) * 60 + ss)
                     * 1000000000)%Z
          else None
      | _, _, _, _, _, _ => None
      end
  | _ => None
  end.

(** The parser of a column: every cell on its own. *)
Definition iso_to_datetime (cells : list (option string)) : list (option Z) :=
  map (fun c => match c with Some s => iso_datetime s | None => None end) cells.

(** Insertion of position [i] in a list of positions ordered by key;
    [before k h] says that key [k] goes in front of key [h]. *)
Fixpoint insert_pos {K} (before : K -> K -> bool) (d : K) (keys : list K)
  (i : nat) (l : list nat) : list nat :=
  match l with
  | [] => [i]
  | h :: t =>
      if before (nth i keys d) (nth h keys d) then i :: l
      else h :: insert_pos before d keys i t
  end.

Definition argsort_by {K} (before : K -> K -> bool) (d : K) (keys : list K)
  : list nat :=
  fold_right (insert_pos before d keys) [] (seq 0 (List.length keys)).

(** A stable argsort: equal keys stay in row order. *)
Definition stable_argsort (keys : list Z) : list nat :=
  argsort_by Z.leb 0%Z keys.

Definition stable_argsort_f (keys : list float) : list nat :=
  argsort_by PrimFloat.leb 0%float keys.

(** *** numpy's [argsort(kind='quicksort')]

    What [ndarray.argsort] runs for a datetime64 array: the introsort of
    numpy's [aquicksort_], on the positions [0 .. n-1].  [v] is the array of
    keys, [tosort] the array of positions that is rearranged; pointers into
    [tosort] are offsets. *)

Definition SMALL_QUICKSORT : nat := 16.

(** [a[p] = x] *)
Fixpoint store (a : list nat) (p x : nat) : list nat :=
  match a, p with
  | [], _ => []
  | _ :: t, O => x :: t
  | h :: t, S p => h :: store t p x
  end.

(** [INTP_SWAP(a[i], a[j])] *)
Definition intp_swap (a : list nat) (i j : nat) : list nat :=
  store (store a i (nth j a 0)) j (nth i a 0).

(** [npy_get_msb]: the position of the highest bit set. *)
Definition npy_get_msb (unum : nat) : nat := Nat.log2 unum.

Section Introsort.

Variable v : list Z.

(** [v[a[p]]] *)
Definition at_ (a : list nat) (p : nat) : Z := nth (nth p a 0) v 0%Z.

(** [do { ++pi; } while (v[*pi] < vp);]  The pivot, kept at [pr - 1], ends
    the scan before the [n] steps allowed are used up. *)
Fixpoint scan_up (n : nat) (a : list nat) (vp : Z) (pi : nat) : nat :=
  match n with
  | O => pi
  | S n => if (at_ a (S pi) <? vp)%Z then scan_up n a vp (S pi) else S pi
  end.

(** [do { --pj; } while (vp < v[*pj]);]  The key at [pl], not above the
    pivot, ends the scan. *)
Fixpoint scan_down (n : nat) (a : list nat) (vp : Z) (pj : nat) : nat :=
  match n with
  | O => pj
  | S n => if (vp <? at_ a (pj - 1))%Z then scan_down n a vp (pj - 1) else pj - 1
  end.

(** The loop [for (;;)] of the partition; it returns the array and [pi]. *)
Fixpoint partition_loop (n : nat) (a : list nat) (vp : Z) (pi pj : nat)
  : list nat * nat :=
  match n with
  | O => (a, pi)
  | S n =>
      let pi := scan_up (List.length a) a vp pi in
      let pj := scan_down (List.length a) a vp pj in
      if pj <=? pi then (a, pi)
      else partition_loop n (intp_swap a pi pj) vp pi pj
  end.

(** One round of [while ((pr - pl) > SMALL_QUICKSORT)]: the median of three
    goes to [pr - 1], the segment is partitioned around it, and the pivot is
    put in its place [pi]. *)
Definition partition (a : list nat) (pl pr : nat) : list nat * nat :=
  let pm := pl + Nat.div2 (pr - pl) in
  let a := if (at_ a pm <? at_ a pl)%Z then intp_swap a pm pl else a in
  let a := if (at_ a pr <? at_ a pm)%Z then intp_swap a pr pm else a in
  let a := if (at_ a pm <? at_ a pl)%Z then intp_swap a pm pl else a in
  let vp := at_ a pm in
  let pi := pl in
  let pj := pr - 1 in
  let a := intp_swap a pm pj in
  let '(a, pi) := partition_loop (List.length a) a vp pi pj in
  let pk := pr - 1 in
  (intp_swap a pi pk, pi).

(** [while (pj > pl && vp < v[*pk]) { *pj-- = *pk--; }] with [pk = pj - 1] *)
Fixpoint shift (n : nat) (a : list nat) (pl pj : nat) (vp : Z) : list nat * nat :=
  match n with
  | O => (a, pj)
  | S n =>
      if (pl <? pj) && (vp <? at_ a (pj - 1))%Z
      then shift n (store a pj (nth (pj - 1) a 0)) pl (pj - 1) vp
      else (a, pj)
  end.

(** The insertion sort of the segment [pl .. pr], from [pi] on. *)
Fixpoint insertion_sort (n : nat) (a : list nat) (pl pi pr : nat) : list nat :=
  match n with
  | O => a
  | S n =>
      if pi <=? pr then
        let vi := nth pi a 0 in
        let vp := nth vi v 0%Z in
        let '(a, pj) := shift pi a pl pi vp in
        insertion_sort n (store a pj vi) pl (S pi) pr
      else a
  end.

(** [aheapsort_] on the [n] positions from [pl] on; the heap is indexed
    from 1: [a[k]] is [tosort[pl + k - 1]]. *)
Definition heap_get (a : list nat) (pl k : nat) : nat := nth (pl + k - 1) a 0.
Definition heap_set (a : list nat) (pl k x : nat) : list nat := store a (pl + k - 1) x.
Definition heap_key (a : list nat) (pl k : nat) : Z := nth (heap_get a pl k) v 0%Z.

(** [for (i, j; j <= n;) { ... }], then [a[i] = tmp]. *)
Fixpoint sift (fuel : nat) (a : list nat) (pl n tmp i j : nat) : list nat :=
  match fuel with
  | O => heap_set a pl i tmp
  | S fuel =>
      if j <=? n then
        let j := if (j <? n) && (heap_key a pl j <? heap_key a pl (j + 1))%Z
                 then j + 1 else j in
        if (nth tmp v 0 <? heap_key a pl j)%Z
        then sift fuel (heap_set a pl i (heap_get a pl j)) pl n tmp j (j + j)
        else heap_set a pl i tmp
      else heap_set a pl i tmp
  end.

(** [for (l = n >> 1; l > 0; --l)] *)
Fixpoint heapify (l : nat) (a : list nat) (pl n : nat) : list nat :=
  match l with
  | O => a
  | S l' => heapify l' (sift n a pl n (heap_get a pl l) l (l + l)) pl n
  end.

(** [for (; n > 1;)] *)
Fixpoint sort_down (n : nat) (a : list nat) (pl : nat) : list nat :=
  match n with
  | O => a
  | S n' =>
      if 1 <? n then
        let tmp := heap_get a pl n in
        let a := heap_set a pl n (heap_get a pl 1) in
        sort_down n' (sift n' a pl n' tmp 1 2) pl
      else a
  end.

Definition aheapsort (a : list nat) (pl n : nat) : list nat :=
  sort_down n (heapify (Nat.div2 n) a pl n) pl.

(** The inner loop [while ((pr - pl) > SMALL_QUICKSORT)]: partition, push
    the larger part on the stack with the depth left, go on with the
    smaller. *)
Fixpoint quick_loop (fuel : nat) (a : list nat) (pl pr : nat)
  (stack : list (nat * nat * Z)) (cdepth : Z)
  : list nat * nat * nat * list (nat * nat * Z) * Z :=
  match fuel with
  | O => (a, pl, pr, stack, cdepth)
  | S fuel =>
      if SMALL_QUICKSORT <? pr - pl then
        let '(a, pi) := partition a pl pr in
        let cdepth := (cdepth - 1)%Z in
        if pi - pl <? pr - pi
        then quick_loop fuel a pl (pi - 1) ((pi + 1, pr, cdepth) :: stack) cdepth
        else quick_loop fuel a (pi + 1) pr ((pl, pi - 1, cdepth) :: stack) cdepth
      else (a, pl, pr, stack, cdepth)
  end.

(** The loop [while (1)]: a segment whose depth is used up is sorted by
    [aheapsort_]; another is partitioned down to [SMALL_QUICKSORT] and
    finished by insertion sort; then the next segment is taken from the
    stack.  [None]: the fuel did not suffice. *)
Fixpoint outer_loop (fuel : nat) (a : list nat) (pl pr : nat)
  (stack : list (nat * nat * Z)) (cdepth : Z) : option (list nat) :=
  match fuel with
  | O => None
  | S fuel =>
      let '(a, stack) :=
        if (cdepth <? 0)%Z then (aheapsort a pl (pr - pl + 1), stack)
        else
          let '(a, pl, pr, stack, _) :=
            quick_loop (List.length a) a pl pr stack cdepth in
          (insertion_sort (List.length a) a pl (pl + 1) pr, stack)
      in
      match stack with
      | [] => Some a
      | (pl, pr, cdepth) :: stack => outer_loop fuel a pl pr stack cdepth
      end
  end.

Definition aquicksort (tosort : list nat) : option (list nat) :=
  let num := List.length tosort in
  match num with
  | O => Some tosort
  | S _ =>
      outer_loop (S num) tosort 0 (num - 1) [] (Z.of_nat (npy_get_msb num * 2))
  end.

End Introsort.

(** [keys.argsort()]: the positions [0 .. n-1], sorted by key. *)
Definition numpy_argsort (keys : list Z) : list nat :=
  match aquicksort keys (seq 0 (List.length keys)) with
  | Some tosort => tosort
  | None => []
  end.

End Instances.

(** ** Sample files *)

Module Examples.

Import Instances.

Definition stamps4 : list (option string) * list (option string) :=
  ([Some "2024-03-01"; Some "2024-03-01"; Some "2024-03-01"; Some "2024-03-01"],
   [Some "10:00:00"; Some "10:02:00"; Some "10:05:00"; Some "10:15:00"])%string.

Definition csv4 (imp : list float) : CsvFrame :=
  [("post_date", ObjectCol (fst stamps4));
   ("post_time", ObjectCol (snd stamps4));
   ("total_kw", FloatCol [1; 2; 3; 4]%float);
   ("kwh_import", FloatCol imp)]%string.

(** The cumulative readings 10.0, 12.5, 12.5, 20.0. *)
Definition meter_csv : CsvFrame := csv4 [10; 12.5; 12.5; 20]%float.

(** A file whose second reading is missing. *)
Definition gap_csv : CsvFrame := csv4 [10; nan; 12.5; 20]%float.

Definition gap_rows : list Reading :=
  Eval vm_compute in
    match fst (process_source iso_to_datetime stable_argsort gap_csv "Utility" []) with
    | Ok rows => rows
    | Raised => []
    end.

(** A file without the [total_kw] column. *)
Definition no_kw_csv : CsvFrame :=
  [("post_date", ObjectCol (fst stamps4));
   ("post_time", ObjectCol (snd stamps4));
   ("kwh_import", FloatCol [10; 12.5; 12.5; 20]%float)]%string.


Definition readings18 : list float :=
  [1; 2; 3; 4; 5; 6; 7; 8; 9; 10; 11; 12; 13; 14; 15; 16; 17; 18]%float.

(** Eighteen rows that share one timestamp. *)
Definition tie_csv : CsvFrame :=
  [("post_date", ObjectCol (repeat (Some "2024-03-01") 18));
   ("post_time", ObjectCol (repeat (Some "10:00:00") 18));
   ("total_kw", FloatCol (repeat 1%float 18));
   ("kwh_import", FloatCol readings18)]%string.

Definition frame_of (f : CsvFrame) (source_name : string) : list Reading :=
  match fst (process_source iso_to_datetime stable_argsort f source_name []) with
  | Ok rows => rows
  | Raised => []
  end.

(** Readings that do not move. *)
Definition flat_csv : CsvFrame := csv4 [10; 10; 10; 10]%float.

(** Readings that rise by 2.5 kWh once. *)
Definition rise_csv : CsvFrame := csv4 [10; 12.5; 12.5; 12.5]%float.

(** Readings with two small dips of the counter. *)
Definition dip_csv : CsvFrame := csv4 [10; 9.999; 9.999; 9.99]%float.

Definition dip_rows : list Reading :=
  Eval vm_compute in frame_of dip_csv "Gen1".

(** Readings with one drop of 2.5 kWh. *)
Definition drop_csv : CsvFrame := csv4 [10; 7.5; 7.5; 7.5]%float.

Definition drop_rows : list Reading :=
  Eval vm_compute in frame_of drop_csv "Gen1".

(** Readings that rise by 2.5 kWh three times. *)
Definition even_csv : CsvFrame := csv4 [10; 12.5; 15; 17.5]%float.

Definition chart_of (f : CsvFrame) (source_name : string) : list Bucket :=
  match chart_data (economics (frame_of f source_name)) with
  | Some chart => chart
  | None => []
  end.

Definition even_chart : list Bucket :=
  Eval vm_compute in chart_of even_csv "Gen1".

Definition even_rows : list (string * option Z * float) :=
  Eval vm_compute in
    map (fun r => (src r, post_datetime (reading r), KWh (reading r)))
        (economics (frame_of even_csv "Gen1")).

Definition raw_of (f : CsvFrame) : list Stamped :=
  match stamped iso_to_datetime f with
  | Some raw => raw
  | None => []
  end.

(** A run of the page of [pp.py] with a Utility file and a Gen1 file. *)
Definition two_files_run : Outcome (option Report) * list Event :=
  Eval vm_compute in
    main iso_to_datetime stable_argsort stable_argsort_f
      (Some meter_csv) (Some even_csv) None [].

(** The report of that run. *)
Definition two_files_report : Report :=
  Eval vm_compute in
    match fst two_files_run with
    | Ok (Some rep) => rep
    | _ => mkReport [] [] [] [] [] []
    end.

(** A file with the header line only. *)
Definition header_csv : CsvFrame :=
  [("post_date", ObjectCol []); ("post_time", ObjectCol []);
   ("total_kw", ObjectCol []); ("kwh_import", ObjectCol [])]%string.

(** The readings of [meter_csv] with a column more, the columns in
    another order. *)
Definition wide_csv : CsvFrame :=
  [("device", ObjectCol [Some "A"; Some "A"; Some "A"; Some "A"]);
   ("kwh_import", FloatCol [10; 12.5; 12.5; 20]%float);
   ("total_kw", FloatCol [1; 2; 3; 4]%float);
   ("post_time", ObjectCol (snd stamps4));
   ("post_date", ObjectCol (fst stamps4))]%string.

(** A file whose readings were read as text. *)
Definition text_csv : CsvFrame :=
  [("post_date", ObjectCol (fst stamps4));
   ("post_time", ObjectCol (snd stamps4));
   ("total_kw", FloatCol [1; 2; 3; 4]%float);
   ("kwh_import", ObjectCol [Some "10"; Some "abc"; Some "12.5"; Some "20"])]%string.

(** A file none of whose dates can be parsed. *)
Definition undated_csv : CsvFrame :=
  [("post_date", ObjectCol [Some "xx"; Some "xx"; Some "xx"; Some "xx"]);
   ("post_time", ObjectCol (snd stamps4));
   ("total_kw", FloatCol [1; 2; 3; 4]%float);
   ("kwh_import", FloatCol [10; 12.5; 12.5; 20]%float)]%string.

(** The frames of [undated_csv], loaded as Gen2, and of [meter_csv], loaded
    as the Utility. *)
Definition undated_rows : list Reading :=
  Eval vm_compute in frame_of undated_csv "Gen2".

Definition meter_rows : list Reading :=
  Eval vm_compute in frame_of meter_csv "Utility".

(** The second Gen1 row of that report, read at 10:02. *)
Definition gen1_row : EconRow :=
  Eval vm_compute in
    nth 5 (combined_df two_files_report)
      (mkEconRow (mkReading None None (Text None) (Num 0) (Num 0) 0 EmptyString) 0 0).

(** The Gen1 bucket of 10:10, in which no reading falls. *)
Definition gap_bucket : Bucket := mkBucket "Gen1" 1709287800000000000 0.

(** The first row of [undated_rows]. *)
Definition undated_row : Reading :=
  Eval vm_compute in
    nth 0 undated_rows (mkReading None None (Text None) (Num 0) (Num 0) 0 EmptyString).

(** The report of the run of the page of [pp.py] with the given files. *)
Definition report_of (u g1 g2 : option CsvFrame) : Report :=
  match fst (main iso_to_datetime stable_argsort stable_argsort_f u g1 g2 []) with
  | Ok (Some rep) => rep
  | _ => mkReport [] [] [] [] [] []
  end.

(** A run with one generator file, whose readings do not move. *)
Definition flat_report : Report :=
  Eval vm_compute in report_of None (Some flat_csv) None.

(** A run with a generator that gains 2.5 kWh and one that loses 2.5 kWh. *)
Definition opposite_report : Report :=
  Eval vm_compute in report_of None (Some rise_csv) (Some drop_csv).

End Examples.

(** * Properties *)

Module FloatFacts.

Lemma SFcompare_refl (x : spec_float) :
  x <> S754_nan -> SFcompare x x = Some Eq.
Proof.
  destruct x as [s|s| |s m e]; simpl; intros H; try congruence.
  - destruct s; reflexivity.
  - rewrite Z.compare_refl.
    change (Pos.compare_cont Eq m m) with (Pos.compare m m).
    rewrite Pos.compare_refl. destruct s; reflexivity.
Qed.

Lemma is_nan_spec (x : float) : is_nan x = true <-> Prim2SF x = S754_nan.
Proof.
  unfold is_nan. rewrite eqb_spec. unfold SFeqb. split.
  - intros H. destruct (Prim2SF x) eqn:E; try reflexivity;
      rewrite SFcompare_refl in H by congruence; discriminate.
  - intros ->. reflexivity.
Qed.

Lemma is_nan_eq (x : float) : is_nan x = true -> x = nan.
Proof.
  intros H. apply Prim2SF_inj. apply is_nan_spec in H. rewrite H. reflexivity.
Qed.

Lemma sub_nan_l (y : float) : (nan - y)%float = nan.
Proof.
  apply Prim2SF_inj. rewrite sub_spec.
  change (Prim2SF nan) with S754_nan. reflexivity.
Qed.

Lemma sub_nan_r (x : float) : (x - nan)%float = nan.
Proof.
  apply Prim2SF_inj. rewrite sub_spec.
  change (Prim2SF nan) with S754_nan.
  unfold SF64sub, SFsub. destruct (Prim2SF x); reflexivity.
Qed.

End FloatFacts.

(** ** Rows taken by position, and [sort_values] *)

Lemma take_app {A} (l : list A) (a b : list nat) :
  take l (a ++ b) = take l a ++ take l b.
Proof. apply flat_map_app. Qed.

Lemma take_cons {A} (l : list A) (i : nat) (idx : list nat) :
  take l (i :: idx)
  = match nth_error l i with Some r => [r] | None => [] end ++ take l idx.
Proof. reflexivity. Qed.

Lemma take_seq {A} (l : list A) : forall pre,
  take (pre ++ l) (seq (List.length pre) (List.length l)) = l.
Proof.
  induction l as [|x l IH]; intros pre; [reflexivity|].
  cbn [List.length seq]. rewrite take_cons.
  rewrite nth_error_app2, Nat.sub_diag by lia. cbn [nth_error app].
  f_equal. specialize (IH (pre ++ [x])).
  rewrite <- app_assoc, length_app, Nat.add_1_r in IH. exact IH.
Qed.

Lemma take_all {A} (l : list A) : take l (seq 0 (List.length l)) = l.
Proof. exact (take_seq l []). Qed.

Lemma take_perm {A} (l : list A) (idx idx' : list nat) :
  Permutation idx idx' -> Permutation (take l idx) (take l idx').
Proof. apply Permutation_flat_map. Qed.


Lemma take_nth_error {A} (l : list A) (idx : list nat) :
  Forall (fun i => i < List.length l) idx ->
  forall j, nth_error (take l idx) j
            = match nth_error idx j with
              | Some i => nth_error l i
              | None => None
              end.
Proof.
  induction 1 as [|i idx Hi _ IH]; intros j.
  - now destruct j.
  - rewrite take_cons. destruct (nth_error l i) as [r|] eqn:E.
    + destruct j as [|j]; cbn; [now rewrite E|apply IH].
    + apply nth_error_None in E. lia.
Qed.

Lemma take_take {A} (l : list A) (idx sigma : list nat) :
  Forall (fun i => i < List.length l) idx ->
  take l (take idx sigma) = take (take l idx) sigma.
Proof.
  intros H. induction sigma as [|j sigma IH]; [reflexivity|].
  rewrite !take_cons, take_app, IH. f_equal.
  rewrite (take_nth_error l idx H j).
  destruct (nth_error idx j) as [i|]; [|reflexivity].
  rewrite take_cons. cbn [take flat_map]. now rewrite app_nil_r.
Qed.

Lemma map_take {A B} (f : A -> B) (l : list A) (idx : list nat) :
  map f (take l idx) = take (map f l) idx.
Proof.
  induction idx as [|i idx IH]; [reflexivity|].
  rewrite !take_cons, map_app, IH, nth_error_map.
  now destruct (nth_error l i).
Qed.

Section Positions.

Context {A K : Type} (key : A -> K) (p : K -> bool).

Lemma take_positions_from (l : list A) : forall pre,
  take (pre ++ l)
       (map fst (filter (fun ik => p (snd ik))
                   (combine (seq (List.length pre) (List.length (map key l)))
                            (map key l))))
  = filter (fun r => p (key r)) l.
Proof.
  induction l as [|x l IH]; intros pre; [reflexivity|].
  cbn [map List.length seq combine filter snd].
  specialize (IH (pre ++ [x])).
  rewrite <- app_assoc, length_app, Nat.add_1_r in IH. cbn [app] in IH.
  destruct (p (key x)).
  - cbn [map fst]. rewrite take_cons, IH.
    rewrite nth_error_app2, Nat.sub_diag by lia. reflexivity.
  - exact IH.
Qed.

Lemma take_positions (l : list A) :
  take l (positions p (map key l)) = filter (fun r => p (key r)) l.
Proof. exact (take_positions_from l []). Qed.

End Positions.

Lemma positions_in_range {K} (p : K -> bool) (keys : list K) :
  Forall (fun i => i < List.length keys) (positions p keys).
Proof.
  apply Forall_forall. intros i Hi. unfold positions in Hi.
  apply in_map_iff in Hi as ([i' k] & <- & Hin).
  apply filter_In in Hin as [Hin _]. apply in_combine_l in Hin.
  apply in_seq in Hin. cbn. lia.
Qed.

Lemma dropna_keys {A} (key : A -> option Z) (l : list A) :
  map key (filter (has_key key) l) = map Some (dropna (map key l)).
Proof.
  induction l as [|x l IH]; [reflexivity|].
  unfold has_key in *. cbn. destruct (key x) as [t|] eqn:E; cbn.
  - now rewrite E, IH.
  - exact IH.
Qed.

Section SortValues.

Variable argsort : list Z -> list nat.
Context {A : Type} (key : A -> option Z).

(** [sort_values] in two parts: the rows with a key, as [argsort] arranges
    them, then the rows without a key, in row order. *)
Lemma sort_values_split (df : list A) :
  sort_values argsort key df
  = take (filter (has_key key) df) (argsort (dropna (map key df)))
    ++ filter (no_key key) df.
Proof.
  unfold sort_values, nargsort. rewrite take_app. f_equal.
  - rewrite take_take.
    + f_equal. exact (take_positions key (fun k => negb (isna k)) df).
    + rewrite <- (length_map key df). apply positions_in_range.
  - exact (take_positions key isna df).
Qed.

End SortValues.

(** With an [argsort] that meets the contract, [sort_values] rearranges the
    rows: none is lost, none is added. *)
Lemma filter_keys_perm {A} (key : A -> option Z) (df : list A) :
  Permutation (filter (has_key key) df ++ filter (no_key key) df) df.
Proof.
  induction df as [|x df IH]; [constructor|].
  unfold has_key, no_key in *. cbn [filter].
  destruct (isna (key x)); cbn [negb app].
  - apply Permutation_sym, Permutation_cons_app, Permutation_sym, IH.
  - now constructor.
Qed.

Lemma sort_values_perm {A} (argsort : list Z -> list nat) (key : A -> option Z)
  (df : list A) :
  sorts argsort -> Permutation (sort_values argsort key df) df.
Proof.
  intros Hsort. rewrite sort_values_split.
  eapply Permutation_trans; [|apply (filter_keys_perm key)].
  apply Permutation_app_tail.
  set (keys := dropna (map key df)).
  destruct (Hsort keys) as [Hperm _].
  rewrite <- (take_all (filter (has_key key) df)) at 2.
  apply take_perm.
  replace (List.length (filter (has_key key) df)) with (List.length keys);
    [exact Hperm|].
  unfold keys. rewrite <- (length_map Some), <- dropna_keys. apply length_map.
Qed.

Section SourceSeries.

Variable to_datetime : list (option string) -> list (option Z).
Variable argsort : list Z -> list nat.

Lemma diff_from_length (l : list float) : forall prev,
  List.length (Series.diff_from prev l) = List.length l.
Proof. induction l as [|x t IH]; simpl; intros; [reflexivity | now rewrite IH]. Qed.

Lemma derive_KWh_length (l : list float) :
  List.length (derive_KWh l) = List.length l.
Proof.
  unfold derive_KWh, Series.round, Series.fillna, Series.diff.
  rewrite !length_map. destruct l; simpl; [reflexivity | now rewrite diff_from_length].
Qed.

Lemma readings_length (df : list Stamped) :
  List.length (derive_KWh (readings df)) = List.length df.
Proof. rewrite derive_KWh_length. apply length_map. Qed.

Lemma tag_rows_kwh_import (name : string) (df : list Stamped) : forall kwh,
  List.length kwh = List.length df ->
  map kwh_import (tag_rows name df kwh) = map st_kwh_import df.
Proof.
  induction df as [|r df IH]; destruct kwh as [|k kwh]; simpl; intros H;
    try discriminate; [reflexivity|]. f_equal. apply IH. now injection H.
Qed.

Lemma tag_rows_KWh (name : string) (df : list Stamped) : forall kwh,
  List.length kwh = List.length df ->
  map KWh (tag_rows name df kwh) = kwh.
Proof.
  induction df as [|r df IH]; destruct kwh as [|k kwh]; simpl; intros H;
    try discriminate; [reflexivity|]. f_equal. apply IH. now injection H.
Qed.

Lemma untag_tag_rows (name : string) (df : list Stamped) : forall kwh,
  List.length kwh = List.length df -> map untag (tag_rows name df kwh) = df.
Proof.
  induction df as [|[a b c d e] df IH]; destruct kwh as [|x kwh]; cbn; intros H;
    try discriminate; [reflexivity|].
  f_equal. apply IH. now injection H.
Qed.

(** The frame returned by [process_source] carries, in its [KWh] column, the
    derivation applied to its own [kwh_import] column. *)
Lemma process_source_KWh (f : CsvFrame) (name : string) (log log' : list Event)
  (rows : list Reading) :
  process_source to_datetime argsort f name log = (Ok rows, log') ->
  map KWh rows = derive_KWh (map (fun r => as_number (kwh_import r)) rows).
Proof.
  unfold process_source.
  destruct (negb (has_required f)).
  - cbv [bind emit ret]. intros H. injection H as <- _. reflexivity.
  - destruct (stamped to_datetime f) as [df|]; [|discriminate].
    cbv [ret]. intros H. injection H as <- _.
    rewrite <- (map_map kwh_import as_number).
    rewrite tag_rows_kwh_import, tag_rows_KWh by apply readings_length.
    unfold readings. now rewrite map_map.
Qed.

Lemma getitem_columns (f : CsvFrame) (col : string) (c : Column) :
  getitem f col = Some c -> existsb (String.eqb col) (columns f) = true.
Proof.
  unfold columns. induction f as [|[n x] f IH]; cbn [existsb map fst getitem].
  - discriminate.
  - rewrite (String.eqb_sym col n). destruct (String.eqb n col); [reflexivity|].
    exact IH.
Qed.

Lemma stamped_has_required (f : CsvFrame) (raw : list Stamped) :
  stamped to_datetime f = Some raw -> has_required f = true.
Proof.
  unfold stamped, has_required, required. intros H.
  destruct (getitem f "post_date") eqn:E1; [|discriminate].
  destruct (getitem f "post_time") eqn:E2; [|discriminate].
  destruct (getitem f "total_kw") eqn:E3; [|discriminate].
  destruct (getitem f "kwh_import") eqn:E4; [|discriminate].
  cbn [forallb].
  now rewrite (getitem_columns _ _ _ E1), (getitem_columns _ _ _ E2),
    (getitem_columns _ _ _ E3), (getitem_columns _ _ _ E4).
Qed.

(** The rows [process_source] returns are the rows of the file, sorted. *)
Lemma process_source_rows (f : CsvFrame) (name : string) (log log' : list Event)
  (rows : list Reading) (raw : list Stamped) :
  process_source to_datetime argsort f name log = (Ok rows, log') ->
  stamped to_datetime f = Some raw ->
  map untag rows = sort_values argsort st_datetime raw.
Proof.
  unfold process_source. intros H Hraw.
  rewrite (stamped_has_required f raw Hraw), Hraw in H. cbn [negb] in H.
  cbv [ret] in H. injection H as <- _.
  apply untag_tag_rows, readings_length.
Qed.

(** A file on which neither the date concatenation nor [diff] raises is
    processed to the end, without a message. *)
Lemma process_source_returns (f : CsvFrame) (name : string) (log : list Event)
  (raw : list Stamped) :
  stamped to_datetime f = Some raw ->
  exists rows,
    process_source to_datetime argsort f name log = (Ok rows, log)
    /\ map untag rows = sort_values argsort st_datetime raw
    /\ map KWh rows = derive_KWh (map (fun r => as_number (kwh_import r)) rows).
Proof.
  intros Hraw.
  assert (E : exists rows,
             process_source to_datetime argsort f name log = (Ok rows, log)).
  { unfold process_source. rewrite (stamped_has_required f raw Hraw), Hraw.
    eexists. reflexivity. }
  destruct E as [rows E]. exists rows. split; [exact E|]. split.
  - exact (process_source_rows f name log log rows raw E Hraw).
  - exact (process_source_KWh f name log log rows E).
Qed.

Lemma diff_from_nth (l : list float) : forall prev i p r,
  nth_error (prev :: l) i = Some p -> nth_error l i = Some r ->
  nth_error (Series.diff_from prev l) i = Some (r - p)%float.
Proof.
  induction l as [|x t IH]; intros prev i p r Hp Hr.
  - destruct i; discriminate.
  - destruct i as [|i]; simpl in *.
    + injection Hp as <-. injection Hr as <-. reflexivity.
    + now apply IH.
Qed.

Lemma derive_KWh_first (x : float) (t : list float) :
  nth_error (derive_KWh (x :: t)) 0 = Some 0%float.
Proof. reflexivity. Qed.

Lemma derive_KWh_next (l : list float) (i : nat) (p r : float) :
  nth_error l i = Some p -> nth_error l (S i) = Some r ->
  nth_error (derive_KWh l) (S i) = Some (Np.around 2 (Series.fill 0 (r - p))).
Proof.
  intros Hp Hr. destruct l as [|x t]; [destruct i; discriminate|].
  unfold derive_KWh, Series.round, Series.fillna, Series.diff.
  rewrite !map_cons. simpl nth_error. simpl in Hr.
  rewrite !nth_error_map, (diff_from_nth t x i p r Hp Hr). reflexivity.
Qed.

Lemma nth_error_map_Some {A B} (f : A -> B) (l : list A) (i : nat) (a : A) :
  nth_error l i = Some a -> nth_error (map f l) i = Some (f a).
Proof. intros H. now rewrite nth_error_map, H. Qed.

Lemma round2_zero : Np.around 2 0%float = 0%float.
Proof. reflexivity. Qed.

(** The [KWh] of the first row, and of a row after another, in a column
    derived from the readings. *)
Lemma KWh_first (rows : list Reading) (r : Reading) :
  map KWh rows = derive_KWh (map (fun r => as_number (kwh_import r)) rows) ->
  nth_error rows 0 = Some r -> KWh r = 0%float.
Proof.
  intros H Hr. apply (nth_error_map_Some KWh) in Hr as HK.
  apply (nth_error_map_Some (fun r => as_number (kwh_import r))) in Hr as HI.
  rewrite H in HK.
  destruct (map (fun r => as_number (kwh_import r)) rows); [discriminate|].
  rewrite derive_KWh_first in HK. now injection HK.
Qed.

Lemma KWh_next (rows : list Reading) (i : nat) (p r : Reading) :
  map KWh rows = derive_KWh (map (fun r => as_number (kwh_import r)) rows) ->
  nth_error rows i = Some p -> nth_error rows (S i) = Some r ->
  KWh r = Np.around 2
            (Series.fill 0 (as_number (kwh_import r) - as_number (kwh_import p))).
Proof.
  intros H Hp Hr. apply (nth_error_map_Some KWh) in Hr as HK. rewrite H in HK.
  apply (nth_error_map_Some (fun r => as_number (kwh_import r))) in Hp, Hr.
  rewrite (derive_KWh_next _ _ _ _ Hp Hr) in HK. now injection HK.
Qed.

(** Claim C1, as amended.  A file on which the arithmetic of [process_source]
    does not raise is processed to a frame that holds the rows of the file,
    sorted (with an [argsort] that meets numpy's contract: all of them, and
    no other).  In that frame the KWh of the first record is 0, and the KWh of
    every later record is its cumulative [kwh_import] minus that of the record
    before it, rounded to 2 decimals after the subtraction, when this
    difference is a number; when it is not (one of the two readings is
    missing) the KWh is 0.  The cumulative sequence 10.0, 12.5, 12.5, 20.0
    gives the KWh 0, 2.5, 0, 7.5. *)
Theorem delta_correctness (f : CsvFrame) (name : string) (log : list Event)
  (raw : list Stamped) :
  stamped to_datetime f = Some raw ->
  exists rows,
    process_source to_datetime argsort f name log = (Ok rows, log)
    /\ map untag rows = sort_values argsort st_datetime raw
    /\ (sorts argsort -> Permutation (map untag rows) raw)
    /\ (forall r, nth_error rows 0 = Some r -> KWh r = 0%float)
    /\ (forall i p r,
          nth_error rows i = Some p -> nth_error rows (S i) = Some r ->
          KWh r = if Np.isnan (as_number (kwh_import r) - as_number (kwh_import p))
                  then 0%float
                  else Np.around 2 (as_number (kwh_import r)
                                    - as_number (kwh_import p)))
    /\ derive_KWh [10; 12.5; 12.5; 20]%float = [0; 2.5; 0; 7.5]%float.
Proof.
  intros Hraw.
  destruct (process_source_returns f name log raw Hraw) as (rows & E & Hrows & HK).
  exists rows. split; [exact E|]. split; [exact Hrows|]. split; [|split; [|split]].
  - intros Hsort. rewrite Hrows. now apply sort_values_perm.
  - intros r. now apply KWh_first.
  - intros i p r Hp Hr. rewrite (KWh_next rows i p r HK Hp Hr).
    unfold Series.fill.
    destruct (Np.isnan (as_number (kwh_import r) - as_number (kwh_import p)));
      [apply round2_zero | reflexivity].
  - reflexivity.
Qed.

Lemma fill_nan_sub_l (x y : float) :
  Np.isnan x = true -> Series.fill 0 (x - y) = 0%float.
Proof.
  intros H. apply FloatFacts.is_nan_eq in H. subst x.
  now rewrite FloatFacts.sub_nan_l.
Qed.

Lemma fill_nan_sub_r (x y : float) :
  Np.isnan y = true -> Series.fill 0 (x - y) = 0%float.
Proof.
  intros H. apply FloatFacts.is_nan_eq in H. subst y.
  now rewrite FloatFacts.sub_nan_r.
Qed.

Lemma nth_error_pred {A} (l : list A) (i : nat) (a : A) :
  nth_error l (S i) = Some a -> exists p, nth_error l i = Some p.
Proof.
  intros H. destruct (nth_error l i) as [p|] eqn:E; [now exists p|].
  apply nth_error_None in E.
  assert (S i < List.length l) by (apply nth_error_Some; congruence). lia.
Qed.

(** A readings column that is text, with two rows or more, makes [diff]
    raise. *)
Lemma text_readings_raise (f : CsvFrame) (cells : list (option string)) :
  getitem f "kwh_import" = Some (ObjectCol cells) ->
  2 <= List.length cells -> (exists c, In (Some c) cells) ->
  stamped to_datetime f = None.
Proof.
  intros E Hlen [c Hc]. unfold stamped. rewrite E.
  destruct (getitem f "post_date") as [date|]; [|reflexivity].
  destruct (getitem f "post_time") as [time|]; [|reflexivity].
  destruct (getitem f "total_kw") as [kw|]; [|reflexivity].
  destruct (as_text date) as [d|]; [|reflexivity].
  destruct (date_time d time) as [joined|]; [|reflexivity].
  replace (diff_raises (ObjectCol cells)) with true; [reflexivity|].
  symmetry. unfold diff_raises. apply andb_true_iff. split.
  - now apply Nat.leb_le.
  - apply existsb_exists. exists (Some c). split; [exact Hc | reflexivity].
Qed.

(** Claim C10, as amended.  A file on which the arithmetic of
    [process_source] does not raise is processed to a frame that holds the
    rows of the file, sorted (with an [argsort] that meets numpy's contract:
    all of them, and no other), in which a missing (NaN) [kwh_import] at
    position [i] gives KWh 0 at row [i] and also at row [i+1].  A reading
    that cannot be read as a number is no such missing value: it makes the
    column a column of text, and with two rows or more [process_source]
    raises. *)
Theorem missing_reading_zeroes_two_rows (f : CsvFrame) (name : string)
  (log : list Event) :
  (forall raw,
     stamped to_datetime f = Some raw ->
     exists rows,
       process_source to_datetime argsort f name log = (Ok rows, log)
       /\ map untag rows = sort_values argsort st_datetime raw
       /\ (sorts argsort -> Permutation (map untag rows) raw)
       /\ forall i r,
            nth_error rows i = Some r ->
            Np.isnan (as_number (kwh_import r)) = true ->
            KWh r = 0%float
            /\ forall r', nth_error rows (S i) = Some r' -> KWh r' = 0%float)
  /\ (forall cells,
        has_required f = true ->
        getitem f "kwh_import" = Some (ObjectCol cells) ->
        2 <= List.length cells -> (exists c, In (Some c) cells) ->
        process_source to_datetime argsort f name log = (Raised, log)).
Proof.
  split.
  - intros raw Hraw.
    destruct (process_source_returns f name log raw Hraw) as (rows & E & Hrows & HK).
    exists rows. split; [exact E|]. split; [exact Hrows|].
    split; [intros Hsort; rewrite Hrows; now apply sort_values_perm|].
    intros i r Hr Hnan. split.
    + destruct i as [|i]; [now apply (KWh_first rows)|].
      destruct (nth_error_pred _ _ _ Hr) as [p Hp].
      rewrite (KWh_next rows i p r HK Hp Hr), fill_nan_sub_l by assumption.
      apply round2_zero.
    + intros r' Hr'.
      rewrite (KWh_next rows i r r' HK Hr Hr'), fill_nan_sub_r by assumption.
      apply round2_zero.
  - intros cells R E Hlen Hc. unfold process_source.
    rewrite R, (text_readings_raise f cells E Hlen Hc). reflexivity.
Qed.

End SourceSeries.

Import Instances Examples.

Lemma delta_correctness_witness :
  stamped iso_to_datetime meter_csv = Some (raw_of meter_csv)
  /\ map st_kwh_import (raw_of meter_csv) = map Num [10; 12.5; 12.5; 20]%float
  /\ process_source iso_to_datetime stable_argsort meter_csv "Gen1" []
     = (Ok (frame_of meter_csv "Gen1"), [])
  /\ map KWh (frame_of meter_csv "Gen1") = [0; 2.5; 0; 7.5]%float
  /\ exists rows,
       process_source iso_to_datetime stable_argsort meter_csv "Gen1" [] = (Ok rows, [])
       /\ map untag rows = sort_values stable_argsort st_datetime (raw_of meter_csv)
       /\ (sorts stable_argsort -> Permutation (map untag rows) (raw_of meter_csv))
       /\ (forall r, nth_error rows 0 = Some r -> KWh r = 0%float)
       /\ (forall i p r,
             nth_error rows i = Some p -> nth_error rows (S i) = Some r ->
             KWh r = if Np.isnan (as_number (kwh_import r) - as_number (kwh_import p))
                     then 0%float
                     else Np.around 2 (as_number (kwh_import r)
                                       - as_number (kwh_import p)))
       /\ derive_KWh [10; 12.5; 12.5; 20]%float = [0; 2.5; 0; 7.5]%float.
Proof.
  assert (H : stamped iso_to_datetime meter_csv = Some (raw_of meter_csv))
    by (vm_compute; reflexivity).
  split; [exact H|]. split; [vm_compute; reflexivity|].
  split; [vm_compute; reflexivity|]. split; [vm_compute; reflexivity|].
  exact (delta_correctness iso_to_datetime stable_argsort meter_csv "Gen1" []
           (raw_of meter_csv) H).
Defined.

(** Claim C1 as stated fails for a record whose difference is not a number:
    in a file with the readings 10, (missing), 12.5, 20 the second and the
    third record have the KWh 0, whereas the difference rounded to 2 decimals
    is NaN. *)
Lemma delta_correctness_counterexample :
  process_source iso_to_datetime stable_argsort gap_csv "Utility" []
  = (Ok gap_rows, [])
  /\ map kwh_import gap_rows = [Num 10; Num nan; Num 12.5; Num 20]%float
  /\ map KWh gap_rows = [0; 0; 0; 7.5]%float
  /\ exists p r,
       nth_error gap_rows 0 = Some p /\ nth_error gap_rows 1 = Some r
       /\ KWh r = 0%float
       /\ Np.around 2 (as_number (kwh_import r) - as_number (kwh_import p)) = nan
       /\ (KWh r =? Np.around 2 (as_number (kwh_import r)
                                 - as_number (kwh_import p)))%float = false.
Proof.
  split; [vm_compute; reflexivity|]. split; [vm_compute; reflexivity|].
  split; [vm_compute; reflexivity|].
  eexists. eexists. split; [reflexivity|]. split; [reflexivity|].
  repeat split; vm_compute; reflexivity.
Qed.

Lemma missing_reading_witness :
  stamped iso_to_datetime gap_csv = Some (raw_of gap_csv)
  /\ map st_kwh_import (raw_of gap_csv) = [Num 10; Num nan; Num 12.5; Num 20]%float
  /\ process_source iso_to_datetime stable_argsort gap_csv "Utility" []
     = (Ok gap_rows, [])
  /\ map KWh gap_rows = [0; 0; 0; 7.5]%float
  /\ exists rows,
       process_source iso_to_datetime stable_argsort gap_csv "Utility" [] = (Ok rows, [])
       /\ map untag rows = sort_values stable_argsort st_datetime (raw_of gap_csv)
       /\ (sorts stable_argsort -> Permutation (map untag rows) (raw_of gap_csv))
       /\ forall i r,
            nth_error rows i = Some r ->
            Np.isnan (as_number (kwh_import r)) = true ->
            KWh r = 0%float
            /\ forall r', nth_error rows (S i) = Some r' -> KWh r' = 0%float.
Proof.
  assert (H : stamped iso_to_datetime gap_csv = Some (raw_of gap_csv))
    by (vm_compute; reflexivity).
  split; [exact H|]. split; [vm_compute; reflexivity|].
  split; [vm_compute; reflexivity|]. split; [vm_compute; reflexivity|].
  exact (proj1 (missing_reading_zeroes_two_rows iso_to_datetime stable_argsort
                  gap_csv "Utility" []) (raw_of gap_csv) H).
Defined.

(** Claim C10 as stated fails for a reading that cannot be parsed: in a file
    with the readings 10, abc, 12.5, 20 the column is read as text, and
    [process_source] raises instead of giving the KWh 0. *)
Lemma missing_reading_counterexample :
  has_required text_csv = true
  /\ getitem text_csv "kwh_import"
     = Some (ObjectCol [Some "10"; Some "abc"; Some "12.5"; Some "20"]%string)
  /\ process_source iso_to_datetime stable_argsort text_csv "Utility" []
     = (Raised, []).
Proof. repeat split; vm_compute; reflexivity. Qed.

(** ** Economics *)

Lemma loc_assign_map {A} (mask : A -> bool) (upd : A -> A) (df : list A) :
  loc_assign mask upd df = map (fun r => if mask r then upd r else r) df.
Proof. reflexivity. Qed.

Ltac econ_simpl :=
  repeat (progress
            (cbn [fst snd reading expected_fuel_liters cost_ngn set_cost
                  source KWh orb];
             repeat match goal with
                    | H : String.eqb _ _ = _ |- _ => rewrite H
                    end)).

Lemma economics_map (df : list Reading) :
  economics df
  = map (fun r => mkEconRow r (fst (economics_of (source r) (KWh r)))
                              (snd (economics_of (source r) (KWh r)))) df.
Proof.
  unfold economics, cost_column, fuel_column, gen_sources.
  cbn [fold_left]. rewrite !loc_assign_map, !map_map.
  apply map_ext. intros [dt d t kw imp k s].
  unfold economics_of, GEN_EFFICIENCY_KWH_PER_L, TARIFF_UTILITY, TARIFF_GEN.
  destruct (String.eqb s "Gen1") eqn:E1;
    [apply String.eqb_eq in E1; subst s; reflexivity|].
  destruct (String.eqb s "Gen2") eqn:E2;
    [apply String.eqb_eq in E2; subst s; reflexivity|].
  destruct (String.eqb s "Utility") eqn:E3; econ_simpl; reflexivity.
Qed.

(** Claim C3.  The economics columns of [combined_df] are, row by row, the
    function [economics_of] of the row's source and KWh: for Gen1 and Gen2
    the fuel is kwh / 3.3 rounded to 2 decimals and the cost is the fuel
    times 1000 rounded to 2 decimals; for Utility the fuel is 0 and the cost
    is kwh * 209.50 rounded to 2 decimals.  (Gen1, 6.6) gives fuel 2.00 and
    cost 2000.00; (Utility, 10) gives fuel 0 and cost 2095.00. *)
Theorem economics_per_record (df : list Reading) :
  economics df
  = map (fun r => mkEconRow r (fst (economics_of (source r) (KWh r)))
                              (snd (economics_of (source r) (KWh r)))) df
  /\ economics_of "Gen1" 6.6%float = (2%float, 2000%float)
  /\ economics_of "Utility" 10%float = (0%float, 2095%float).
Proof. split; [apply economics_map | split; reflexivity]. Qed.

(** ** Fault isolation per source *)

Section Isolation.

Variable to_datetime : list (option string) -> list (option Z).
Variable argsort : list Z -> list nat.
Variable argsort_f : list float -> list nat.

Lemma steady_ret {A} (a : A) : steady (ret a).
Proof. intros log. cbv [ret fst snd]. now rewrite app_nil_r. Qed.

Lemma steady_raise {A} : steady (@raise A).
Proof. intros log. cbv [raise fst snd]. now rewrite app_nil_r. Qed.

Lemma steady_emit (e : Event) : steady (emit e).
Proof. intros log. reflexivity. Qed.

Lemma steady_bind {A B} (m : Page A) (k : A -> Page B) :
  steady m -> (forall a, steady (k a)) -> steady (bind m k).
Proof.
  intros Hm Hk log. unfold bind. rewrite (Hm log).
  destruct (m []) as [[a|] l0]; cbn [fst snd].
  - rewrite (Hk a (log ++ l0)), (Hk a l0). cbn [fst snd].
    now rewrite app_assoc.
  - reflexivity.
Qed.

Lemma steady_process_source (f : CsvFrame) (name : string) :
  steady (process_source to_datetime argsort f name).
Proof.
  unfold process_source.
  destruct (negb (has_required f)).
  - apply steady_bind; [apply steady_emit | intros; apply steady_ret].
  - destruct (stamped to_datetime f); [apply steady_ret | apply steady_raise].
Qed.

Lemma steady_load (file : option CsvFrame) (name : string)
  (dataframes : list (list Reading)) :
  steady (load to_datetime argsort file name dataframes).
Proof.
  destruct file as [f|]; [|apply steady_ret].
  apply steady_bind; [apply steady_process_source|].
  intros [|r df]; [apply steady_ret|].
  apply steady_bind; [apply steady_emit | intros; apply steady_ret].
Qed.

Lemma steady_report (dataframes : list (list Reading)) :
  steady (report argsort_f dataframes).
Proof.
  unfold report. destruct dataframes.
  - apply steady_bind; [apply steady_emit | intros; apply steady_ret].
  - cbv zeta. destruct (fuel_summary _); [apply steady_raise|].
    destruct (cost_rows _ _ _) as [[[chart ms]|]|];
      [apply steady_ret | apply steady_raise | apply steady_raise].
Qed.

Lemma main_unfold (u g1 g2 : option CsvFrame) :
  main to_datetime argsort argsort_f u g1 g2
  = bind (load to_datetime argsort u "Utility" []) (after_utility to_datetime argsort argsort_f g1 g2).
Proof. reflexivity. Qed.

Lemma steady_after_gen1 (g2 : option CsvFrame) (d2 : list (list Reading)) :
  steady (after_gen1 to_datetime argsort argsort_f g2 d2).
Proof.
  apply steady_bind; [apply steady_load | intros; apply steady_report].
Qed.

Lemma steady_after_utility (g1 g2 : option CsvFrame) (d1 : list (list Reading)) :
  steady (after_utility to_datetime argsort argsort_f g1 g2 d1).
Proof.
  apply steady_bind; [apply steady_load | intros; apply steady_after_gen1].
Qed.

Lemma bind_run {A B} (m : Page A) (k : A -> Page B) (log : list Event) :
  bind m k log
  = match m log with
    | (Ok a, log') => k a log'
    | (Raised, log') => (Raised, log')
    end.
Proof. reflexivity. Qed.

Lemma missing_column (f : CsvFrame) (col : string) :
  In col required -> ~ In col (columns f) -> has_required f = false.
Proof.
  intros Hin Hnot. unfold has_required.
  destruct (forallb _ required) eqn:E; [|reflexivity].
  rewrite forallb_forall in E. specialize (E col Hin).
  apply existsb_exists in E as (c & Hc & Heq).
  apply String.eqb_eq in Heq. now subst c.
Qed.

Lemma process_source_rejects (f : CsvFrame) (name : string) (log : list Event) :
  has_required f = false ->
  process_source to_datetime argsort f name log = (Ok [], log ++ [Warning name]).
Proof. intros H. unfold process_source. rewrite H. reflexivity. Qed.

Lemma load_rejects (f : CsvFrame) (name : string) (dfs : list (list Reading))
  (log : list Event) :
  has_required f = false ->
  load to_datetime argsort (Some f) name dfs log = (Ok dfs, log ++ [Warning name]).
Proof.
  intros H. unfold load, bind. now rewrite (process_source_rejects f name log H).
Qed.

Lemma without_app (e : Event) (l1 l2 : list Event) :
  without e (l1 ++ l2) = without e l1 ++ without e l2.
Proof. apply filter_app. Qed.

Lemma without_one (name : string) : without (Warning name) [Warning name] = [].
Proof. unfold without. cbn. now rewrite String.eqb_refl. Qed.

Lemma isolation_step {A} (k : list (list Reading) -> Page A) (e : Event)
  (dfs : list (list Reading)) (log : list Event) :
  without e [e] = [] ->
  (forall d, steady (k d)) ->
  fst (k dfs (log ++ [e])) = fst (k dfs log)
  /\ without e (snd (k dfs (log ++ [e]))) = without e (snd (k dfs log)).
Proof.
  intros He Hk. rewrite (Hk dfs (log ++ [e])), (Hk dfs log). cbn [fst snd].
  split; [reflexivity|]. now rewrite !without_app, He, app_nil_r.
Qed.

(** Claim C4.  A file in which a required column ([post_date], [post_time],
    [total_kw] or [kwh_import]) is absent is rejected: [process_source]
    returns the empty frame and puts a warning on the page.  Whatever the
    other two files are, the run with the rejected file has the same result
    and the same other messages as the run in which that file is not
    supplied at all. *)
Theorem source_isolation (bad : CsvFrame) (col : string) :
  In col required -> ~ In col (columns bad) ->
  (forall name log,
     process_source to_datetime argsort bad name log
     = (Ok [], log ++ [Warning name]))
  /\ (forall g1 g2,
        same_but (Warning "Utility")
          (main to_datetime argsort argsort_f (Some bad) g1 g2 [])
          (main to_datetime argsort argsort_f None g1 g2 []))
  /\ (forall u g2,
        same_but (Warning "Gen1")
          (main to_datetime argsort argsort_f u (Some bad) g2 [])
          (main to_datetime argsort argsort_f u None g2 []))
  /\ (forall u g1,
        same_but (Warning "Gen2")
          (main to_datetime argsort argsort_f u g1 (Some bad) [])
          (main to_datetime argsort argsort_f u g1 None [])).
Proof.
  intros Hin Hnot. pose proof (missing_column bad col Hin Hnot) as Hbad.
  split; [intros; now apply process_source_rejects|].
  unfold same_but. split; [|split]; intros; rewrite !main_unfold, !bind_run.
  - rewrite (load_rejects bad _ _ _ Hbad). cbn [load ret].
    apply (isolation_step (after_utility to_datetime argsort argsort_f g1 g2) (Warning "Utility") [] []);
      [apply without_one | apply steady_after_utility].
  - destruct (load to_datetime argsort u "Utility" [] []) as [[d1|] l1];
      [|split; reflexivity].
    unfold after_utility. rewrite !bind_run.
    rewrite (load_rejects bad _ _ _ Hbad). cbn [load ret].
    apply (isolation_step (after_gen1 to_datetime argsort argsort_f g2) (Warning "Gen1") d1 l1);
      [apply without_one | apply steady_after_gen1].
  - destruct (load to_datetime argsort u "Utility" [] []) as [[d1|] l1];
      [|split; reflexivity].
    unfold after_utility. rewrite !bind_run.
    destruct (load to_datetime argsort g1 "Gen1" d1 l1) as [[d2|] l2];
      [|split; reflexivity].
    unfold after_gen1. rewrite !bind_run.
    rewrite (load_rejects bad _ _ _ Hbad). cbn [load ret].
    apply (isolation_step (report argsort_f) (Warning "Gen2") d2 l2);
      [apply without_one | apply steady_report].
Qed.

End Isolation.

Lemma source_isolation_witness :
  (In "total_kw"%string required /\ ~ In "total_kw"%string (columns no_kw_csv))
  /\ process_source iso_to_datetime stable_argsort no_kw_csv "Gen1" []
     = (Ok [], [Warning "Gen1"])
  /\ same_but (Warning "Gen1")
       (main iso_to_datetime stable_argsort stable_argsort_f
          (Some meter_csv) (Some no_kw_csv) None [])
       (main iso_to_datetime stable_argsort stable_argsort_f
          (Some meter_csv) None None []).
Proof.
  assert (H1 : In "total_kw"%string required) by (cbn; auto).
  assert (H2 : ~ In "total_kw"%string (columns no_kw_csv))
    by (intros [H|[H|[H|[]]]]; discriminate).
  split; [split; assumption|].
  destruct (source_isolation iso_to_datetime stable_argsort stable_argsort_f
              no_kw_csv "total_kw" H1 H2) as (Ha & _ & Hc & _).
  split; [apply Ha | apply Hc].
Defined.

(** ** Sorting by timestamp *)

(** *** The sample argsorts meet the contract *)

Section ArgsortBy.

Variable before : Z -> Z -> bool.
Hypothesis before_true : forall a b, before a b = true -> (a <= b)%Z.
Hypothesis before_false : forall a b, before a b = false -> (b <= a)%Z.
Variable keys : list Z.

Let k (i : nat) : Z := nth i keys 0%Z.

Lemma insert_pos_perm (i : nat) (l : list nat) :
  Permutation (insert_pos before 0%Z keys i l) (i :: l).
Proof.
  induction l as [|h t IH]; cbn; [reflexivity|].
  destruct (before _ _); [reflexivity|].
  rewrite IH. apply perm_swap.
Qed.

Lemma insert_pos_hd (a : Z) (i : nat) (l : list nat) :
  HdRel Z.le a (map k l) -> (a <= k i)%Z ->
  HdRel Z.le a (map k (insert_pos before 0%Z keys i l)).
Proof.
  destruct l as [|h t]; cbn; intros H Hi.
  - now constructor.
  - fold (k i) (k h). destruct (before (k i) (k h)); cbn; constructor;
      [assumption | now inversion H].
Qed.

Lemma insert_pos_sorted (i : nat) (l : list nat) :
  Sorted Z.le (map k l) -> Sorted Z.le (map k (insert_pos before 0%Z keys i l)).
Proof.
  induction l as [|h t IH]; cbn; intros H.
  - repeat constructor.
  - fold (k i) (k h). destruct (before (k i) (k h)) eqn:E; cbn.
    + constructor; [exact H|]. constructor. now apply before_true.
    + inversion H as [|? ? Hs Hh]; subst. constructor; [now apply IH|].
      apply insert_pos_hd; [exact Hh | now apply before_false].
Qed.

Lemma argsort_by_perm :
  Permutation (argsort_by before 0%Z keys) (seq 0 (List.length keys)).
Proof.
  unfold argsort_by. induction (seq 0 (List.length keys)) as [|i l IH];
    cbn; [reflexivity|].
  rewrite insert_pos_perm. now constructor.
Qed.

Lemma argsort_by_sorted : Sorted Z.le (map k (argsort_by before 0%Z keys)).
Proof.
  unfold argsort_by. induction (seq 0 (List.length keys)) as [|i l IH]; cbn.
  - constructor.
  - now apply insert_pos_sorted.
Qed.

End ArgsortBy.

Lemma take_map_nth {A} (d : A) (l : list A) (idx : list nat) :
  Forall (fun i => i < List.length l) idx ->
  take l idx = map (fun i => nth i l d) idx.
Proof.
  induction 1 as [|i idx Hi _ IH]; [reflexivity|].
  rewrite take_cons, IH. cbn [map].
  destruct (nth_error l i) as [r|] eqn:E.
  - now rewrite (nth_error_nth _ _ d E).
  - apply nth_error_None in E. lia.
Qed.

Lemma argsort_by_sorts (before : Z -> Z -> bool) :
  (forall a b, before a b = true -> (a <= b)%Z) ->
  (forall a b, before a b = false -> (b <= a)%Z) ->
  sorts (argsort_by before 0%Z).
Proof.
  intros Ht Hf keys. split; [apply argsort_by_perm|].
  rewrite (take_map_nth 0%Z).
  - now apply argsort_by_sorted.
  - apply Forall_forall. intros i Hi.
    apply (Permutation_in _ (argsort_by_perm before keys)) in Hi.
    apply in_seq in Hi. lia.
Qed.

Lemma stable_argsort_sorts : sorts stable_argsort.
Proof.
  apply argsort_by_sorts; intros a b H.
  - now apply Z.leb_le.
  - apply Z.leb_gt in H. lia.
Qed.

(** *** Order of the sorted series *)

Section SortedSeries.

Variable to_datetime : list (option string) -> list (option Z).
Variable argsort : list Z -> list nat.

(** Claim C7, as amended.  For an [argsort] that meets numpy's contract,
    the frame [process_source] returns is the rows of the file that have a
    timestamp, in ascending order of timestamp, followed by the rows
    without a timestamp in their original row order; it is a rearrangement
    of the rows of the file.  The order of rows with equal timestamps is
    the one [argsort] gives them. *)
Theorem sorted_series (f : CsvFrame) (name : string) (log log' : list Event)
  (rows : list Reading) (raw : list Stamped) :
  sorts argsort ->
  process_source to_datetime argsort f name log = (Ok rows, log') ->
  stamped to_datetime f = Some raw ->
  exists timed times,
    map untag rows = timed ++ filter (no_key st_datetime) raw
    /\ Permutation timed (filter (has_key st_datetime) raw)
    /\ map st_datetime timed = map Some times
    /\ Sorted Z.le times.
Proof.
  intros Hsort Hrows Hraw.
  rewrite (process_source_rows to_datetime argsort f name log log' rows raw Hrows Hraw).
  rewrite sort_values_split.
  set (keys := dropna (map st_datetime raw)).
  destruct (Hsort keys) as [Hperm Hsorted].
  exists (take (filter (has_key st_datetime) raw) (argsort keys)),
         (take keys (argsort keys)).
  split; [reflexivity|]. split; [|split; [|exact Hsorted]].
  - rewrite <- (take_all (filter (has_key st_datetime) raw)) at 2.
    apply take_perm.
    replace (List.length (filter (has_key st_datetime) raw))
      with (List.length keys); [exact Hperm|].
    unfold keys.
    rewrite <- (length_map Some), <- dropna_keys. apply length_map.
  - rewrite map_take, dropna_keys, <- map_take. reflexivity.
Qed.

End SortedSeries.

Lemma sorted_series_witness :
  sorts stable_argsort
  /\ exists timed times,
       map untag (frame_of meter_csv "Gen1")
       = timed ++ filter (no_key st_datetime) (raw_of meter_csv)
       /\ Permutation timed (filter (has_key st_datetime) (raw_of meter_csv))
       /\ map st_datetime timed = map Some times
       /\ Sorted Z.le times.
Proof.
  split; [exact stable_argsort_sorts|].
  exact (sorted_series iso_to_datetime stable_argsort meter_csv "Gen1" [] []
           (frame_of meter_csv "Gen1") (raw_of meter_csv)
           stable_argsort_sorts eq_refl eq_refl).
Defined.

(** Claim C7 as stated fails: numpy's quicksort, which [sort_values] runs
    when no [kind] is given, does not keep rows of equal timestamps in row
    order.  Of eighteen rows that share one timestamp, with the readings 1 to
    18 in the order of the file, [process_source] returns the rows with the
    readings 1, 16, 15, ..., 2, 17, 18. *)
Lemma stable_order_counterexample :
  aquicksort (repeat 1709287200000000000%Z 18) (seq 0 18)
  = Some [0; 15; 14; 13; 12; 11; 10; 9; 8; 7; 6; 5; 4; 3; 2; 1; 16; 17]
  /\ exists rows,
       process_source iso_to_datetime numpy_argsort tie_csv "Utility" []
       = (Ok rows, [])
       /\ map post_datetime rows = repeat (Some 1709287200000000000%Z) 18
       /\ map kwh_import rows
          = map Num [1; 16; 15; 14; 13; 12; 11; 10; 9; 8; 7; 6; 5; 4; 3; 2; 17; 18]%float
       /\ map kwh_import rows <> map Num readings18.
Proof.
  split; [vm_compute; reflexivity|].
  eexists. split; [vm_compute; reflexivity|].
  split; [reflexivity|]. split; [reflexivity|]. discriminate.
Qed.

(** ** Groups of rows, and rows without a timestamp *)

(** *** The keys of a groupby *)

Lemma slt_iff (a b : string) : slt a b <-> String_as_OT.lt a b.
Proof.
  unfold slt, String.ltb. rewrite <- String_as_OT.cmp_lt.
  unfold String_as_OT.cmp. destruct (String.compare a b); split; congruence.
Qed.

Lemma slt_trans (a b c : string) : slt a b -> slt b c -> slt a c.
Proof. rewrite !slt_iff. apply String_as_OT.lt_trans. Qed.

Lemma slt_irrefl (a : string) : ~ slt a a.
Proof.
  rewrite slt_iff. intros H. apply (String_as_OT.lt_not_eq _ _ H). reflexivity.
Qed.

Lemma slt_total (a b : string) :
  String.eqb a b = false -> String.ltb a b = false -> slt b a.
Proof.
  unfold slt, String.ltb. intros Hne Hlt. rewrite String.compare_antisym.
  destruct (String.compare a b) eqn:E; cbn in *; try discriminate.
  - apply String.compare_eq_iff in E. subst.
    now rewrite String.eqb_refl in Hne.
  - reflexivity.
Qed.

Lemma insert_key_in (k x : string) (keys : list string) :
  In x (insert_key k keys) <-> x = k \/ In x keys.
Proof.
  induction keys as [|h t IH]; cbn; [intuition|].
  destruct (String.eqb_spec k h) as [->|Hne]; [cbn; intuition|].
  destruct (String.ltb k h); cbn; [intuition|].
  rewrite IH. intuition.
Qed.

Lemma insert_key_sorted (k : string) (keys : list string) :
  StronglySorted slt keys -> StronglySorted slt (insert_key k keys).
Proof.
  induction 1 as [|h t Hs IH Hh]; cbn; [repeat constructor|].
  destruct (String.eqb k h) eqn:E1; [now constructor|].
  destruct (String.ltb k h) eqn:E2.
  - constructor; [now constructor|]. constructor; [exact E2|].
    eapply Forall_impl; [|exact Hh]. intros x Hx. eapply slt_trans; eassumption.
  - constructor; [exact IH|]. apply Forall_forall. intros x Hx.
    apply insert_key_in in Hx as [->|Hx].
    + now apply slt_total.
    + now apply (proj1 (Forall_forall _ _) Hh).
Qed.

Lemma group_keys_spec (l : list string) :
  StronglySorted slt (group_keys l) /\ forall x, In x (group_keys l) <-> In x l.
Proof.
  unfold group_keys.
  assert (G : forall acc,
             StronglySorted slt acc ->
             StronglySorted slt (fold_left (fun keys k => insert_key k keys) l acc)
             /\ forall x, In x (fold_left (fun keys k => insert_key k keys) l acc)
                          <-> In x acc \/ In x l).
  { induction l as [|k l IH]; intros acc Hacc; cbn [fold_left].
    - split; [exact Hacc|]. cbn. intuition.
    - destruct (IH (insert_key k acc) (insert_key_sorted k acc Hacc)) as [H1 H2].
      split; [exact H1|]. intros x. rewrite H2, insert_key_in. cbn. intuition. }
  destruct (G [] (SSorted_nil _)) as [H1 H2]. split; [exact H1|].
  intros x. rewrite H2. cbn. intuition.
Qed.

Lemma sorted_keys_unique (l1 : list string) : forall l2,
  StronglySorted slt l1 -> StronglySorted slt l2 ->
  (forall x, In x l1 <-> In x l2) -> l1 = l2.
Proof.
  induction l1 as [|a l1 IH]; intros l2 H1 H2 Hin.
  - destruct l2 as [|b l2]; [reflexivity|].
    exfalso. apply (Hin b). now left.
  - destruct l2 as [|b l2]; [exfalso; apply (Hin a); now left|].
    apply StronglySorted_inv in H1 as [H1 Ha].
    apply StronglySorted_inv in H2 as [H2 Hb].
    rewrite Forall_forall in Ha, Hb.
    assert (a = b) as <-.
    { destruct (proj1 (Hin a) (or_introl eq_refl)) as [E|Ea]; [now symmetry|].
      destruct (proj2 (Hin b) (or_introl eq_refl)) as [E|Eb]; [assumption|].
      exfalso. apply (slt_irrefl a).
      eapply slt_trans; [apply Ha, Eb | apply Hb, Ea]. }
    f_equal. apply IH; try assumption.
    intros x. split; intros Hx.
    + destruct (proj1 (Hin x) (or_intror Hx)) as [E|E]; [|exact E].
      subst x. exfalso. exact (slt_irrefl a (Ha a Hx)).
    + destruct (proj2 (Hin x) (or_intror Hx)) as [E|E]; [|exact E].
      subst x. exfalso. exact (slt_irrefl a (Hb a Hx)).
Qed.

Lemma group_keys_same (l1 l2 : list string) :
  (forall x, In x l1 <-> In x l2) -> group_keys l1 = group_keys l2.
Proof.
  intros H. destruct (group_keys_spec l1) as [S1 I1], (group_keys_spec l2) as [S2 I2].
  apply sorted_keys_unique; try assumption.
  intros x. now rewrite I1, I2.
Qed.

(** *** Rows without a timestamp *)


Lemma mergesort_nil (l : list (Z * float)) : mergesort l = [] -> l = [].
Proof.
  destruct l as [|x l]; [reflexivity|]. unfold mergesort. cbn [fold_right].
  destruct (fold_right insert_sorted [] l) as [|h t]; cbn [insert_sorted];
    [intros H; discriminate H|].
  destruct (fst x <=? fst h)%Z; intros H; discriminate H.
Qed.


Section DropUntimed.

Let series (rows : list (string * option Z * float)) (k : string) : list (option Z * float) :=
  map (fun r : string * option Z * float => (snd (fst r), snd r))
      (filter (fun r : string * option Z * float => String.eqb (fst (fst r)) k) rows).





End DropUntimed.



Lemma filter_idem {A} (p : A -> bool) (l : list A) :
  filter p (filter p l) = filter p l.
Proof.
  induction l as [|x l IH]; [reflexivity|]. cbn.
  destruct (p x) eqn:E; cbn; rewrite ?E, IH; reflexivity.
Qed.

(** ** High and low markers *)

Lemma SFcompare_rank (x y : spec_float) :
  x <> S754_nan -> y <> S754_nan ->
  SFcompare x y = Some (lex3 (float_rank x) (float_rank y)).
Proof.
  intros Hx Hy.
  destruct x as [sx|sx| |sx mx ex], y as [sy|sy| |sy my ey];
    try congruence; try (destruct sx); try (destruct sy); try reflexivity;
    cbn [SFcompare float_rank lex3 fst snd]; f_equal.
  unfold lex3. cbn [fst snd]. rewrite Z.compare_refl, Z.compare_opp.
  rewrite (Z.compare_antisym ex ey).
  destruct (ex ?= ey)%Z; reflexivity.
Qed.

Ltac lex3_solve :=
  unfold lex3; intros;
  repeat match goal with
         | H : context [(?a ?= ?b)%Z] |- _ =>
             destruct (Z.compare_spec a b); try discriminate
         | |- context [(?a ?= ?b)%Z] =>
             destruct (Z.compare_spec a b); try discriminate
         end;
  try reflexivity; try lia.

Lemma lex3_refl (a : Z * Z * Z) : lex3 a a = Eq.
Proof. unfold lex3. now rewrite !Z.compare_refl. Qed.

Lemma lex3_antisym (a b : Z * Z * Z) : lex3 b a = CompOpp (lex3 a b).
Proof.
  unfold lex3.
  rewrite (Z.compare_antisym (fst (fst a))), (Z.compare_antisym (snd (fst a))),
    (Z.compare_antisym (snd a)).
  destruct (fst (fst a) ?= fst (fst b))%Z; cbn; try reflexivity.
  destruct (snd (fst a) ?= snd (fst b))%Z; cbn; reflexivity.
Qed.

Lemma lex3_lt_trans (a b c : Z * Z * Z) :
  lex3 a b = Lt -> lex3 b c = Lt -> lex3 a c = Lt.
Proof. destruct a as [[a1 a2] a3], b as [[b1 b2] b3], c as [[c1 c2] c3]; cbn [fst snd]. lex3_solve. Qed.

Lemma lex3_eq_lt (a b c : Z * Z * Z) :
  lex3 a b = Eq -> lex3 b c = Lt -> lex3 a c = Lt.
Proof. destruct a as [[a1 a2] a3], b as [[b1 b2] b3], c as [[c1 c2] c3]; cbn [fst snd]. lex3_solve. Qed.

Lemma lex3_lt_eq (a b c : Z * Z * Z) :
  lex3 a b = Lt -> lex3 b c = Eq -> lex3 a c = Lt.
Proof. destruct a as [[a1 a2] a3], b as [[b1 b2] b3], c as [[c1 c2] c3]; cbn [fst snd]. lex3_solve. Qed.

Lemma lex3_eq_trans (a b c : Z * Z * Z) :
  lex3 a b = Eq -> lex3 b c = Eq -> lex3 a c = Eq.
Proof. destruct a as [[a1 a2] a3], b as [[b1 b2] b3], c as [[c1 c2] c3]; cbn [fst snd]. lex3_solve. Qed.

Section NotNan.

Variables x y : float.
Hypothesis Hx : is_nan x = false.
Hypothesis Hy : is_nan y = false.

Lemma compare_cmp : SFcompare (Prim2SF x) (Prim2SF y) = Some (fcmp x y).
Proof.
  apply SFcompare_rank; intros E; apply FloatFacts.is_nan_spec in E; congruence.
Qed.

Lemma ltb_cmp : (x <? y)%float = match fcmp x y with Lt => true | _ => false end.
Proof. rewrite ltb_spec. unfold SFltb. now rewrite compare_cmp. Qed.

Lemma leb_cmp : (x <=? y)%float = match fcmp x y with Gt => false | _ => true end.
Proof.
  rewrite leb_spec. unfold SFleb. rewrite compare_cmp. now destruct (fcmp x y).
Qed.

Lemma eqb_cmp : (x =? y)%float = match fcmp x y with Eq => true | _ => false end.
Proof. rewrite eqb_spec. unfold SFeqb. now rewrite compare_cmp. Qed.

End NotNan.

Lemma cmp_antisym (x y : float) : fcmp y x = CompOpp (fcmp x y).
Proof. apply lex3_antisym. Qed.

Section Argmax.

Lemma cmp_refl (x : float) : fcmp x x = Eq.
Proof. apply lex3_refl. Qed.

Lemma cmp_le_lt (a b c : float) : fcmp a b <> Gt -> fcmp b c = Lt -> fcmp a c = Lt.
Proof.
  unfold fcmp. intros H1 H2.
  destruct (lex3 (float_rank (Prim2SF a)) (float_rank (Prim2SF b))) eqn:E; [| |congruence].
  - eapply lex3_eq_lt; eassumption.
  - eapply lex3_lt_trans; eassumption.
Qed.

Lemma cmp_lt_le (a b c : float) : fcmp a b = Lt -> fcmp b c <> Gt -> fcmp a c = Lt.
Proof.
  unfold fcmp. intros H1 H2.
  destruct (lex3 (float_rank (Prim2SF b)) (float_rank (Prim2SF c))) eqn:E; [| |congruence].
  - eapply lex3_lt_eq; eassumption.
  - eapply lex3_lt_trans; eassumption.
Qed.

Lemma cmp_gt_lt (a b : float) : fcmp a b = Gt -> fcmp b a = Lt.
Proof. intros H. now rewrite cmp_antisym, H. Qed.

Lemma cmp_lt_gt (a b : float) : fcmp a b = Lt -> fcmp b a = Gt.
Proof. intros H. now rewrite cmp_antisym, H. Qed.

Lemma argmax_from_spec (l : list float) : forall pre mp max_ind,
  all_numbers (pre ++ l) ->
  nth_error pre max_ind = Some mp ->
  (forall e, In e pre -> fcmp e mp <> Gt) ->
  (forall j e, j < max_ind -> nth_error pre j = Some e -> fcmp e mp = Lt) ->
  first_max (pre ++ l) (argmax_from mp max_ind (List.length pre) l).
Proof.
  induction l as [|x t IH]; intros pre mp max_ind Hnum Hmp Hle Hlt.
  - cbn [argmax_from]. rewrite app_nil_r. exists mp. auto.
  - assert (Hx : is_nan x = false).
    { apply Forall_app in Hnum as [_ H]. now inversion H. }
    assert (Hm : is_nan mp = false).
    { apply Forall_app in Hnum as [H _]. rewrite Forall_forall in H.
      eapply H, nth_error_In, Hmp. }
    assert (Hlen : max_ind < List.length pre)
      by (apply nth_error_Some; congruence).
    cbn [argmax_from]. rewrite (leb_cmp x mp Hx Hm).
    replace (pre ++ x :: t) with ((pre ++ [x]) ++ t) in *
      by (now rewrite <- app_assoc).
    replace (S (List.length pre)) with (List.length (pre ++ [x]))
      by (rewrite length_app; cbn; lia).
    destruct (fcmp x mp) eqn:E; cbn [negb].
    + apply IH; try assumption.
      * rewrite nth_error_app1 by assumption. exact Hmp.
      * intros e He. apply in_app_or in He as [He|[<-|[]]]; [auto|congruence].
      * intros j e Hj He. apply Hlt with j; [assumption|].
        rewrite nth_error_app1 in He by lia. exact He.
    + apply IH; try assumption.
      * rewrite nth_error_app1 by assumption. exact Hmp.
      * intros e He. apply in_app_or in He as [He|[<-|[]]]; [auto|congruence].
      * intros j e Hj He. apply Hlt with j; [assumption|].
        rewrite nth_error_app1 in He by lia. exact He.
    + apply cmp_gt_lt in E as E'. apply IH; try assumption.
      * rewrite nth_error_app2, Nat.sub_diag by lia. reflexivity.
      * intros e He. apply in_app_or in He as [He|[<-|[]]].
        -- rewrite (cmp_le_lt e mp x (Hle e He) E'). discriminate.
        -- rewrite cmp_refl. discriminate.
      * intros j e Hj He. rewrite nth_error_app1 in He by lia.
        apply (cmp_le_lt e mp x); [|exact E']. eapply Hle, nth_error_In, He.
Qed.

Lemma argmin_from_spec (l : list float) : forall pre mp min_ind,
  all_numbers (pre ++ l) ->
  nth_error pre min_ind = Some mp ->
  (forall e, In e pre -> fcmp mp e <> Gt) ->
  (forall j e, j < min_ind -> nth_error pre j = Some e -> fcmp mp e = Lt) ->
  first_min (pre ++ l) (argmin_from mp min_ind (List.length pre) l).
Proof.
  induction l as [|x t IH]; intros pre mp min_ind Hnum Hmp Hle Hlt.
  - cbn [argmin_from]. rewrite app_nil_r. exists mp. auto.
  - assert (Hx : is_nan x = false).
    { apply Forall_app in Hnum as [_ H]. now inversion H. }
    assert (Hm : is_nan mp = false).
    { apply Forall_app in Hnum as [H _]. rewrite Forall_forall in H.
      eapply H, nth_error_In, Hmp. }
    assert (Hlen : min_ind < List.length pre)
      by (apply nth_error_Some; congruence).
    cbn [argmin_from]. rewrite (leb_cmp mp x Hm Hx).
    replace (pre ++ x :: t) with ((pre ++ [x]) ++ t) in *
      by (now rewrite <- app_assoc).
    replace (S (List.length pre)) with (List.length (pre ++ [x]))
      by (rewrite length_app; cbn; lia).
    destruct (fcmp mp x) eqn:E; cbn [negb].
    + apply IH; try assumption.
      * rewrite nth_error_app1 by assumption. exact Hmp.
      * intros e He. apply in_app_or in He as [He|[<-|[]]]; [auto|congruence].
      * intros j e Hj He. apply Hlt with j; [assumption|].
        rewrite nth_error_app1 in He by lia. exact He.
    + apply IH; try assumption.
      * rewrite nth_error_app1 by assumption. exact Hmp.
      * intros e He. apply in_app_or in He as [He|[<-|[]]]; [auto|congruence].
      * intros j e Hj He. apply Hlt with j; [assumption|].
        rewrite nth_error_app1 in He by lia. exact He.
    + apply cmp_gt_lt in E as E'. apply IH; try assumption.
      * rewrite nth_error_app2, Nat.sub_diag by lia. reflexivity.
      * intros e He. apply in_app_or in He as [He|[<-|[]]].
        -- rewrite (cmp_lt_le x mp e E' (Hle e He)). discriminate.
        -- rewrite cmp_refl. discriminate.
      * intros j e Hj He. rewrite nth_error_app1 in He by lia.
        apply (cmp_lt_le x mp e E'). eapply Hle, nth_error_In, He.
Qed.

Lemma all_numbers_not_all_nan (x : float) (t : list float) :
  all_numbers (x :: t) -> forallb Np.isnan (x :: t) = false.
Proof. intros H. inversion H; subst. cbn. unfold Np.isnan. now rewrite H2. Qed.

Lemma all_numbers_map (v : float) (l : list float) :
  all_numbers l -> map (fun x => if Np.isnan x then v else x) l = l.
Proof.
  induction 1 as [|x l Hx _ IH]; [reflexivity|].
  cbn. unfold Np.isnan at 1. now rewrite Hx, IH.
Qed.

Lemma idxmax_spec (l : list float) :
  all_numbers l -> l <> [] -> exists r, idxmax l = Some r /\ first_max l r.
Proof.
  intros Hnum Hne. destruct l as [|x t]; [congruence|].
  unfold idxmax. rewrite (all_numbers_not_all_nan x t Hnum).
  rewrite (all_numbers_map _ _ Hnum). eexists. split; [reflexivity|].
  apply (argmax_from_spec t [x] x 0 Hnum eq_refl).
  - intros e [<-|[]]. rewrite cmp_refl. discriminate.
  - intros j e Hj. lia.
Qed.

Lemma idxmin_spec (l : list float) :
  all_numbers l -> l <> [] -> exists r, idxmin l = Some r /\ first_min l r.
Proof.
  intros Hnum Hne. destruct l as [|x t]; [congruence|].
  unfold idxmin. rewrite (all_numbers_not_all_nan x t Hnum).
  rewrite (all_numbers_map _ _ Hnum). eexists. split; [reflexivity|].
  apply (argmin_from_spec t [x] x 0 Hnum eq_refl).
  - intros e [<-|[]]. rewrite cmp_refl. discriminate.
  - intros j e Hj. lia.
Qed.

End Argmax.

(** *** The buckets of one source *)

Section Blocks.

Variable G : string -> option (list Bucket).
Hypothesis G_source : forall k block b, G k = Some block -> In b block -> b_source b = k.

Lemma filter_block_same (k : string) (block : list Bucket) :
  G k = Some block -> filter (of_source k) block = block.
Proof.
  intros H. apply forallb_filter_id, forallb_forall. intros b Hb.
  unfold of_source. rewrite (G_source k block b H Hb). apply String.eqb_refl.
Qed.

Lemma filter_block_other (k s : string) (block : list Bucket) :
  G k = Some block -> k <> s -> filter (of_source s) block = [].
Proof.
  intros H Hne. rewrite (filter_ext_in _ (fun _ => false)); [apply filter_false|].
  intros b Hb. unfold of_source. rewrite (G_source k block b H Hb).
  now apply String.eqb_neq.
Qed.

Lemma filter_blocks_absent (s : string) (keys : list string) : forall chart,
  sequence (map G keys) = Some chart -> ~ In s keys ->
  filter (of_source s) chart = [].
Proof.
  induction keys as [|k keys IH]; cbn [map sequence]; intros chart H Hs.
  - now injection H as <-.
  - destruct (G k) as [block|] eqn:Ek; [|discriminate].
    destruct (sequence (map G keys)) as [rest|]; [|discriminate].
    injection H as <-. rewrite filter_app.
    rewrite (filter_block_other k s block Ek) by (intros ->; apply Hs; now left).
    apply IH; [reflexivity|]. intros Hin. apply Hs. now right.
Qed.

Lemma filter_blocks_present (s : string) (keys : list string) : forall chart,
  StronglySorted slt keys ->
  sequence (map G keys) = Some chart -> In s keys ->
  G s = Some (filter (of_source s) chart).
Proof.
  induction keys as [|k keys IH]; cbn [map sequence]; intros chart Hsort H Hs.
  - contradiction.
  - apply StronglySorted_inv in Hsort as [Hsort Hk]. rewrite Forall_forall in Hk.
    destruct (G k) as [block|] eqn:Ek; [|discriminate].
    destruct (sequence (map G keys)) as [rest|] eqn:Er; [|discriminate].
    injection H as <-. rewrite filter_app.
    destruct (String.eqb_spec k s) as [->|Hne].
    + rewrite (filter_block_same s block Ek).
      rewrite (filter_blocks_absent s keys rest Er), app_nil_r; [exact Ek|].
      intros Hin. exact (slt_irrefl s (Hk s Hin)).
    + rewrite (filter_block_other k s block Ek Hne). cbn [app].
      destruct Hs as [E|Hs]; [contradiction|]. now apply IH.
Qed.

End Blocks.

Lemma ascending_starts (first w : Z) (n : nat) : forall s,
  (0 < w)%Z ->
  StronglySorted Z.lt (map (fun k => (first + Z.of_nat k * w)%Z) (seq s n)).
Proof.
  induction n as [|n IH]; intros s Hw; cbn [seq map]; constructor.
  - now apply IH.
  - apply Forall_forall. intros x Hx. apply in_map_iff in Hx as (k & <- & Hk).
    apply in_seq in Hk. nia.
Qed.

Lemma resample_sum_ascending (w : Z) (series : list (option Z * float))
  (buckets : list (Z * float)) :
  (0 < w)%Z -> resample_sum w series = Some buckets ->
  StronglySorted Z.lt (map fst buckets).
Proof.
  unfold resample_sum. intros Hw H.
  destruct (mergesort _) as [|[t0 v0] rows]; [discriminate|].
  injection H as <-. rewrite map_map. cbn [fst].
  now apply ascending_starts.
Qed.

Lemma bucket_sums_of_source (rows : list (string * option Z * float))
  (chart : list Bucket) (s : string) :
  bucket_sums rows = Some chart -> In s (map b_source chart) ->
  exists buckets,
    filter (of_source s) chart = map (fun b => mkBucket s (fst b) (snd b)) buckets
    /\ StronglySorted Z.lt (map fst buckets).
Proof.
  unfold bucket_sums.
  set (G := fun k : string =>
              match resample_sum bucket_width
                      (map (fun r : string * option Z * float => (snd (fst r), snd r))
                         (filter (fun r : string * option Z * float =>
                                    String.eqb (fst (fst r)) k) rows)) with
              | Some buckets => Some (map (fun b => mkBucket k (fst b) (snd b)) buckets)
              | None => None
              end).
  intros H Hs.
  assert (GS : forall k block b, G k = Some block -> In b block -> b_source b = k).
  { intros k block b Hk Hb. unfold G in Hk.
    destruct (resample_sum _ _); [|discriminate]. injection Hk as <-.
    apply in_map_iff in Hb as (x & <- & _). reflexivity. }
  assert (Hin : In s (group_keys (map (fun r : string * option Z * float => fst (fst r)) rows))).
  { destruct (in_dec string_dec s
                (group_keys (map (fun r : string * option Z * float => fst (fst r)) rows)))
      as [Hin|Hout]; [exact Hin|].
    exfalso. pose proof (filter_blocks_absent G GS s _ chart H Hout) as E.
    apply in_map_iff in Hs as (b & Hb & Hbin).
    assert (In b (filter (of_source s) chart)) as Hf.
    { apply filter_In. split; [exact Hbin|]. unfold of_source.
      rewrite Hb. apply String.eqb_refl. }
    now rewrite E in Hf. }
  pose proof (filter_blocks_present G GS s _ chart
                (proj1 (group_keys_spec _)) H Hin) as E.
  unfold G in E at 1.
  destruct (resample_sum _ _) as [buckets|] eqn:Er; [|discriminate].
  injection E as E. exists buckets. split; [now symmetry|].
  apply (resample_sum_ascending bucket_width _ _ eq_refl Er).
Qed.

Lemma sorted_nth_le (l : list Z) : forall i j a b,
  StronglySorted Z.lt l -> i <= j ->
  nth_error l i = Some a -> nth_error l j = Some b -> (a <= b)%Z.
Proof.
  induction l as [|x l IH]; intros i j a b Hs Hij Ha Hb.
  - destruct i; discriminate.
  - apply StronglySorted_inv in Hs as [Hs Hx]. rewrite Forall_forall in Hx.
    destruct i as [|i], j as [|j]; cbn in Ha, Hb.
    + injection Ha as <-. injection Hb as <-. lia.
    + injection Ha as <-. apply nth_error_In in Hb. specialize (Hx b Hb). lia.
    + lia.
    + apply (IH i j); try assumption. lia.
Qed.

Section Markers.

Variables (chart : list Bucket) (s : string).

Let data : list Bucket := filter (of_source s) chart.

Hypothesis data_numbers : all_numbers (map bucket_kwh data).
Hypothesis data_ascending : StronglySorted Z.lt (map bucket_start data).
Hypothesis data_nonempty : data <> [].

Lemma data_number (b : Bucket) : In b data -> is_nan (bucket_kwh b) = false.
Proof.
  intros Hb. unfold all_numbers in data_numbers.
  rewrite Forall_forall in data_numbers.
  apply data_numbers. now apply in_map.
Qed.

Lemma max_row_spec (r : nat) (hi : Bucket) :
  first_max (map bucket_kwh data) r -> nth_error data r = Some hi ->
  forall b, In b data ->
    (bucket_kwh b <=? bucket_kwh hi)%float = true
    /\ ((bucket_kwh b =? bucket_kwh hi)%float = true ->
        (bucket_start hi <= bucket_start b)%Z).
Proof.
  intros (v & Hv & Hle & Hlt) Hhi b Hb.
  rewrite (nth_error_map_Some bucket_kwh _ _ _ Hhi) in Hv. injection Hv as <-.
  pose proof (data_number b Hb) as Nb.
  pose proof (data_number hi (nth_error_In _ _ Hhi)) as Nh.
  split.
  - rewrite (leb_cmp _ _ Nb Nh).
    specialize (Hle (bucket_kwh b) (in_map _ _ _ Hb)).
    now destruct (fcmp (bucket_kwh b) (bucket_kwh hi)).
  - rewrite (eqb_cmp _ _ Nb Nh). intros Heq.
    apply In_nth_error in Hb as [j Hj].
    destruct (Nat.lt_ge_cases j r) as [Hjr|Hjr].
    + rewrite (Hlt j (bucket_kwh b) Hjr (nth_error_map_Some bucket_kwh _ _ _ Hj)) in Heq.
      discriminate.
    + apply (sorted_nth_le (map bucket_start data) r j); try assumption.
      * now apply nth_error_map_Some.
      * now apply nth_error_map_Some.
Qed.

Lemma min_row_spec (r : nat) (lo : Bucket) :
  first_min (map bucket_kwh data) r -> nth_error data r = Some lo ->
  forall b, In b data ->
    (bucket_kwh lo <=? bucket_kwh b)%float = true
    /\ ((bucket_kwh b =? bucket_kwh lo)%float = true ->
        (bucket_start lo <= bucket_start b)%Z).
Proof.
  intros (v & Hv & Hle & Hlt) Hlo b Hb.
  rewrite (nth_error_map_Some bucket_kwh _ _ _ Hlo) in Hv. injection Hv as <-.
  pose proof (data_number b Hb) as Nb.
  pose proof (data_number lo (nth_error_In _ _ Hlo)) as Nl.
  split.
  - rewrite (leb_cmp _ _ Nl Nb).
    specialize (Hle (bucket_kwh b) (in_map _ _ _ Hb)).
    now destruct (fcmp (bucket_kwh lo) (bucket_kwh b)).
  - rewrite (eqb_cmp _ _ Nb Nl). intros Heq.
    apply In_nth_error in Hb as [j Hj].
    destruct (Nat.lt_ge_cases j r) as [Hjr|Hjr].
    + pose proof (Hlt j (bucket_kwh b) Hjr (nth_error_map_Some bucket_kwh _ _ _ Hj)) as E.
      apply cmp_lt_gt in E. rewrite E in Heq. discriminate.
    + apply (sorted_nth_le (map bucket_start data) r j); try assumption.
      * now apply nth_error_map_Some.
      * now apply nth_error_map_Some.
Qed.

Lemma marker_of_spec :
  exists m,
    marker_of chart s = Some m
    /\ In (max_row m) data /\ In (min_row m) data
    /\ forall b, In b data ->
         ((bucket_kwh b <=? bucket_kwh (max_row m))%float = true
          /\ ((bucket_kwh b =? bucket_kwh (max_row m))%float = true ->
              (bucket_start (max_row m) <= bucket_start b)%Z))
         /\ ((bucket_kwh (min_row m) <=? bucket_kwh b)%float = true
             /\ ((bucket_kwh b =? bucket_kwh (min_row m))%float = true ->
                 (bucket_start (min_row m) <= bucket_start b)%Z)).
Proof.
  assert (Hne : map bucket_kwh data <> []).
  { intros E. apply map_eq_nil in E. contradiction. }
  destruct (idxmax_spec _ data_numbers Hne) as (i & Hi & Hmax).
  destruct (idxmin_spec _ data_numbers Hne) as (j & Hj & Hmin).
  destruct Hmax as (v & Hv & Hmax'). destruct Hmin as (u & Hu & Hmin').
  destruct (nth_error data i) as [hi|] eqn:Ehi;
    [|rewrite nth_error_map, Ehi in Hv; discriminate].
  destruct (nth_error data j) as [lo|] eqn:Elo;
    [|rewrite nth_error_map, Elo in Hu; discriminate].
  exists (mkMarker s hi lo). unfold marker_of. fold (of_source s). fold data.
  rewrite Hi, Hj, Ehi, Elo. split; [reflexivity|]. cbn [max_row min_row].
  split; [eapply nth_error_In, Ehi|]. split; [eapply nth_error_In, Elo|].
  intros b Hb. split.
  - apply (max_row_spec i hi); [exists v; auto | assumption | assumption].
  - apply (min_row_spec j lo); [exists u; auto | assumption | assumption].
Qed.

End Markers.



(** ** Sign of rounded values *)

Lemma shr_1_nonneg (mrs : shr_record) :
  (0 <= shr_m mrs)%Z -> (0 <= shr_m (shr_1 mrs))%Z.
Proof.
  destruct mrs as [m r s]. cbn [shr_m shr_1].
  destruct m as [|[p|p|]|[p|p|]]; cbn [shr_m]; lia.
Qed.

Lemma iter_pos_invariant {A} (P : A -> Prop) (f : A -> A) :
  (forall a, P a -> P (f a)) -> forall n a, P a -> P (iter_pos f n a).
Proof.
  intros Hf. induction n as [n IH|n IH|]; intros a Ha; cbn [iter_pos]; auto.
Qed.

Lemma shr_record_of_loc_m (m : Z) (l : location) :
  shr_m (shr_record_of_loc m l) = m.
Proof. destruct l as [|[| |]]; reflexivity. Qed.

Lemma shr_fexp_nonneg (m e : Z) (l : location) :
  (0 <= m)%Z -> (0 <= shr_m (fst (shr_fexp prec emax m e l)))%Z.
Proof.
  intros H. unfold shr_fexp, shr.
  destruct (fexp prec emax (Zdigits2 m + e) - e)%Z; cbn [fst];
    rewrite ?shr_record_of_loc_m; try assumption.
  apply (iter_pos_invariant (fun mrs => (0 <= shr_m mrs)%Z)).
  - apply shr_1_nonneg.
  - now rewrite shr_record_of_loc_m.
Qed.

Lemma round_nearest_even_nonneg (m : Z) (l : location) :
  (0 <= m)%Z -> (0 <= round_nearest_even m l)%Z.
Proof.
  intros H. unfold round_nearest_even.
  destruct l as [|[| |]]; try assumption; [destruct (Z.even m)|]; lia.
Qed.

Lemma binary_round_aux_sign (sx : bool) (mx ex : Z) (lx : location) :
  (0 <= mx)%Z -> has_sign sx (binary_round_aux prec emax sx mx ex lx).
Proof.
  intros H. unfold binary_round_aux.
  pose proof (shr_fexp_nonneg mx ex lx H) as H1.
  destruct (shr_fexp prec emax mx ex lx) as [mrs' e']. cbn [fst] in H1.
  pose proof (shr_fexp_nonneg _ e' loc_Exact
                (round_nearest_even_nonneg _ (loc_of_shr_record mrs') H1)) as H2.
  destruct (shr_fexp prec emax _ e' loc_Exact) as [mrs'' e'']. cbn [fst] in H2.
  unfold has_sign.
  destruct (shr_m mrs'') as [|m|m]; [reflexivity| |lia].
  destruct (e'' <=? emax - prec)%Z; reflexivity.
Qed.

Lemma binary_normalize_not_nan (m e : Z) (sz : bool) :
  binary_normalize prec emax m e sz <> S754_nan.
Proof.
  unfold binary_normalize, binary_round.
  destruct m as [|p|p]; [discriminate| |];
    destruct (shl_align _ _ _) as [mz ez];
    match goal with
    | |- binary_round_aux _ _ ?s ?mm ?ee ?ll <> _ =>
        pose proof (binary_round_aux_sign s mm ee ll (Pos2Z.is_nonneg _)) as H;
        intros E; rewrite E in H; exact H
    end.
Qed.

Lemma mul_sign (s : bool) (x c : float) :
  has_sign s (Prim2SF x) -> positive_finite c -> has_sign s (Prim2SF (x * c)).
Proof.
  intros Hx (m & e & Hc). rewrite mul_spec, Hc. unfold SF64mul, SFmul.
  destruct (Prim2SF x) as [sx|sx| |sx mx ex]; unfold has_sign in Hx |- *;
    try contradiction; subst.
  - apply xorb_false_r.
  - apply xorb_false_r.
  - rewrite xorb_false_r. apply binary_round_aux_sign. apply Pos2Z.is_nonneg.
Qed.

Lemma div_core_nonneg (m1 m2 : positive) (e1 e2 : Z) :
  (0 <= fst (fst (SFdiv_core_binary prec emax (Zpos m1) e1 (Zpos m2) e2)))%Z.
Proof.
  unfold SFdiv_core_binary.
  set (s := (e1 - e2 - _)%Z).
  set (m' := match s with Zpos _ => Z.shiftl (Zpos m1) s | Z0 => Zpos m1 | Zneg _ => 0%Z end).
  assert (Hm : (0 <= m')%Z).
  { unfold m'. destruct s; try lia. apply Z.shiftl_nonneg. lia. }
  pose proof (Z.div_pos m' (Zpos m2) Hm eq_refl) as Hq.
  unfold Z.div in Hq. destruct (Z.div_eucl m' (Zpos m2)) as [q r]. exact Hq.
Qed.

Lemma div_sign (s : bool) (x c : float) :
  has_sign s (Prim2SF x) -> positive_finite c -> has_sign s (Prim2SF (x / c)).
Proof.
  intros Hx (m & e & Hc). rewrite div_spec, Hc. unfold SF64div, SFdiv.
  destruct (Prim2SF x) as [sx|sx| |sx mx ex]; unfold has_sign in Hx |- *;
    try contradiction; subst.
  - apply xorb_false_r.
  - apply xorb_false_r.
  - pose proof (div_core_nonneg mx m ex e) as H.
    destruct (SFdiv_core_binary prec emax (Zpos mx) ex (Zpos m) e) as [[mz ez] lz].
    rewrite xorb_false_r. now apply binary_round_aux_sign.
Qed.

Lemma get_sign_negative (x : float) :
  has_sign true (Prim2SF x) -> get_sign x = true.
Proof.
  intros H. unfold get_sign, is_zero.
  rewrite eqb_spec. change (Prim2SF zero) with (S754_zero false).
  destruct (Prim2SF x) as [sx|sx| |sx mx ex] eqn:E; unfold has_sign in H;
    try contradiction; subst; cbn [SFeqb SFcompare].
  - rewrite ltb_spec, div_spec, E. reflexivity.
  - rewrite ltb_spec, E. reflexivity.
  - rewrite ltb_spec, E. reflexivity.
Qed.

Lemma add_sub_not_nan (a c : float) :
  (exists m e, Prim2SF c = S754_finite false m e) ->
  (a <? c)%float = true ->
  Prim2SF (a + c - c) <> S754_nan.
Proof.
  intros (m & e & Hc) Hlt. rewrite ltb_spec, Hc in Hlt.
  rewrite sub_spec, add_spec, Hc. unfold SF64sub, SF64add.
  destruct (Prim2SF a) as [sa|sa| |sa ma ea];
    [ | destruct sa | discriminate Hlt | ].
  - cbn [SFadd SFsub]. apply binary_normalize_not_nan.
  - discriminate.
  - discriminate Hlt.
  - cbn [SFadd].
    pose proof (binary_normalize_not_nan
                  (cond_Zopp sa (Zpos (fst (shl_align ma ea (Z.min ea e))))
                   + cond_Zopp false (Zpos (fst (shl_align m e (Z.min ea e)))))
                  (Z.min ea e) false) as N.
    destruct (binary_normalize _ _ _ _ _) as [s1|s1| |s1 m1 e1];
      [| | contradiction |]; cbn [SFsub]; try discriminate.
    apply binary_normalize_not_nan.
Qed.

Lemma rint_sign (x : float) :
  has_sign true (Prim2SF x) -> has_sign true (Prim2SF (Np.rint x)).
Proof.
  intros H. unfold Np.rint.
  destruct (abs x <? Np.two52)%float eqn:E; [|exact H].
  unfold Np.copysign. rewrite (get_sign_negative x H).
  rewrite opp_spec, abs_spec.
  pose proof (add_sub_not_nan (abs x) Np.two52) as N.
  destruct (Prim2SF (abs x + Np.two52 - Np.two52)) as [s|s| |s m e];
    cbn [SFabs SFopp has_sign negb]; try reflexivity.
  apply N; [|exact E|reflexivity]. vm_compute. eauto.
Qed.

Lemma positive_finite_pow10 (n : nat) :
  n <= 2 -> positive_finite (Np.power_of_ten n).
Proof.
  intros H. unfold positive_finite.
  destruct n as [|[|[|n]]]; [| | |lia]; vm_compute; eauto.
Qed.

Lemma around_sign (n : nat) (x : float) :
  n <= 2 ->
  has_sign true (Prim2SF x) -> has_sign true (Prim2SF (Np.around n x)).
Proof.
  intros Hn H. unfold Np.around.
  apply div_sign; [|now apply positive_finite_pow10].
  apply rint_sign, mul_sign; [exact H | now apply positive_finite_pow10].
Qed.

Lemma ltb_zero_sign (x : float) :
  (x <? 0)%float = true -> has_sign true (Prim2SF x).
Proof.
  rewrite ltb_spec. change (Prim2SF 0) with (S754_zero false).
  unfold has_sign, SFltb.
  destruct (Prim2SF x) as [s|s| |s m e]; cbn [SFcompare]; try discriminate;
    destruct s; try discriminate; reflexivity.
Qed.

Lemma sign_negative_or_negzero (x : float) :
  has_sign true (Prim2SF x) -> negative_or_negzero x.
Proof.
  intros H. unfold negative_or_negzero.
  destruct (Prim2SF x) as [s|s| |s m e] eqn:E; unfold has_sign in H;
    try contradiction; subst.
  - right. apply Prim2SF_inj. rewrite E. reflexivity.
  - left. rewrite ltb_spec, E. reflexivity.
  - left. rewrite ltb_spec, E. reflexivity.
Qed.

Lemma not_nan_has_sign (x : float) :
  is_nan x = false -> exists s, has_sign s (Prim2SF x).
Proof.
  intros H. destruct (Prim2SF x) as [s|s| |s m e] eqn:E;
    try (exists s; reflexivity).
  apply FloatFacts.is_nan_spec in E. congruence.
Qed.

Lemma has_sign_not_nan (s : bool) (x : float) :
  has_sign s (Prim2SF x) -> is_nan x = false.
Proof.
  intros H. destruct (is_nan x) eqn:E; [|reflexivity].
  apply FloatFacts.is_nan_spec in E. rewrite E in H. contradiction.
Qed.

Lemma get_sign_positive (x : float) :
  has_sign false (Prim2SF x) -> get_sign x = false.
Proof.
  intros H. unfold get_sign, is_zero.
  rewrite eqb_spec. change (Prim2SF zero) with (S754_zero false).
  destruct (Prim2SF x) as [sx|sx| |sx mx ex] eqn:E; unfold has_sign in H;
    try contradiction; subst; cbn [SFeqb SFcompare].
  - rewrite ltb_spec, div_spec, E. reflexivity.
  - rewrite ltb_spec, E. reflexivity.
  - rewrite ltb_spec, E. reflexivity.
Qed.

Lemma rint_keeps_sign (s : bool) (x : float) :
  has_sign s (Prim2SF x) -> has_sign s (Prim2SF (Np.rint x)).
Proof.
  destruct s; [apply rint_sign|].
  intros H. unfold Np.rint.
  destruct (abs x <? Np.two52)%float eqn:E; [|exact H].
  unfold Np.copysign. rewrite (get_sign_positive x H).
  rewrite abs_spec.
  pose proof (add_sub_not_nan (abs x) Np.two52) as N.
  destruct (Prim2SF (abs x + Np.two52 - Np.two52)) as [s|s| |s m e];
    cbn [SFabs has_sign]; try reflexivity.
  apply N; [|exact E|reflexivity]. vm_compute. eauto.
Qed.

Lemma around_keeps_sign (s : bool) (n : nat) (x : float) :
  n <= 2 ->
  has_sign s (Prim2SF x) -> has_sign s (Prim2SF (Np.around n x)).
Proof.
  intros Hn H. unfold Np.around.
  apply div_sign; [|now apply positive_finite_pow10].
  apply rint_keeps_sign, mul_sign; [exact H | now apply positive_finite_pow10].
Qed.

(** *** The sign of a difference *)

Lemma digits2_pos_size (p : positive) : digits2_pos p = Pos.size p.
Proof. induction p as [p IH|p IH|]; cbn; now rewrite ?IH. Qed.

Lemma mantissa_bounds (x : float) (s : bool) (m : positive) (e : Z) :
  Prim2SF x = S754_finite s m e ->
  (Zpos m < 2 ^ 53)%Z /\ (-1074 <= e)%Z
  /\ ((-1074 < e)%Z -> (2 ^ 52 <= Zpos m)%Z).
Proof.
  intros E. pose proof (Prim2SF_valid x) as V. rewrite E in V.
  unfold valid_binary, bounded, canonical_mantissa, fexp, emin in V.
  apply andb_true_iff in V as [V _]. apply Z.eqb_eq in V.
  rewrite digits2_pos_size in V.
  pose proof (Pos.size_gt m) as Hgt. pose proof (Pos.size_le m) as Hle.
  apply Pos2Z.pos_lt_pos in Hgt. apply Pos2Z.pos_le_pos in Hle.
  rewrite Pos2Z.inj_pow in Hgt, Hle. rewrite Pos2Z.inj_xO in Hle.
  change prec with 53%Z in V. change emax with 1024%Z in V.
  assert (Hd : (Zpos (Pos.size m) <= 53)%Z) by lia.
  split; [|split; [lia|]].
  - eapply Z.lt_le_trans; [exact Hgt|]. apply Z.pow_le_mono_r; lia.
  - intros He. assert (Zpos (Pos.size m) = 53)%Z as Hsz by lia.
    rewrite Hsz in Hle. change (2 ^ 53)%Z with (2 * 2 ^ 52)%Z in Hle. lia.
Qed.

Lemma shl_align_value (m : positive) (e ez : Z) :
  (ez <= e)%Z -> Zpos (fst (shl_align m e ez)) = (Zpos m * 2 ^ (e - ez))%Z.
Proof.
  intros H. unfold shl_align.
  destruct (ez - e)%Z as [|d|d] eqn:E; cbn [fst].
  - replace (e - ez)%Z with 0%Z by lia. lia.
  - lia.
  - replace (e - ez)%Z with (Zpos d) by lia.
    change (Pos.iter xO m d) with (shift_pos d m).
    rewrite shift_pos_correct. change (Z.pow_pos 2 d) with (2 ^ Zpos d)%Z. lia.
Qed.

Lemma binary_normalize_negative (m e : Z) :
  (m < 0)%Z -> has_sign true (binary_normalize prec emax m e false).
Proof.
  intros H. destruct m as [|p|p]; try lia.
  unfold binary_normalize, binary_round.
  destruct (shl_align _ _ _) as [mz ez].
  apply binary_round_aux_sign. apply Pos2Z.is_nonneg.
Qed.

Lemma finite_sub_sign (x y : float) (sx sy : bool) (mx my : positive) (ex ey : Z) :
  Prim2SF x = S754_finite sx mx ex -> Prim2SF y = S754_finite sy my ey ->
  SFcompare (S754_finite sx mx ex) (S754_finite sy my ey) = Some Lt ->
  (cond_Zopp sx (Zpos (fst (shl_align mx ex (Z.min ex ey))))
   - cond_Zopp sy (Zpos (fst (shl_align my ey (Z.min ex ey)))) < 0)%Z.
Proof.
  intros Ex Ey H.
  destruct (mantissa_bounds x sx mx ex Ex) as (Bx & Lx & Nx).
  destruct (mantissa_bounds y sy my ey Ey) as (By & Ly & Ny).
  rewrite !shl_align_value by lia.
  assert (Pa : (0 < 2 ^ (ex - Z.min ex ey))%Z) by (apply Z.pow_pos_nonneg; lia).
  assert (Pb : (0 < 2 ^ (ey - Z.min ex ey))%Z) by (apply Z.pow_pos_nonneg; lia).
  cbn [SFcompare] in H.
  destruct sx, sy; cbn [cond_Zopp]; try discriminate; [| nia |].
  - (* both negative: the larger magnitude is on the left *)
    destruct (Z.compare_spec ex ey) as [E|E|E]; try discriminate.
    + subst ey. rewrite Z.min_id, Z.sub_diag in *.
      change (Pos.compare_cont Eq mx my) with (Pos.compare mx my) in H.
      destruct (Pos.compare_spec mx my) as [F|F|F]; cbn in H; try discriminate.
      apply Pos2Z.pos_lt_pos in F. change (2 ^ 0)%Z with 1%Z. lia.
    + rewrite Z.min_r, Z.sub_diag in * by lia. change (2 ^ 0)%Z with 1%Z.
      assert (2 ^ 1 <= 2 ^ (ex - ey))%Z by (apply Z.pow_le_mono_r; lia).
      specialize (Nx ltac:(lia)). change (2 ^ 53)%Z with (2 * 2 ^ 52)%Z in *.
      change (2 ^ 1)%Z with 2%Z in *. nia.
  - destruct (Z.compare_spec ex ey) as [E|E|E]; try discriminate.
    + subst ey. rewrite Z.min_id, Z.sub_diag in *.
      change (Pos.compare_cont Eq mx my) with (Pos.compare mx my) in H.
      destruct (Pos.compare_spec mx my) as [F|F|F]; cbn in H; try discriminate.
      apply Pos2Z.pos_lt_pos in F. change (2 ^ 0)%Z with 1%Z. lia.
    + rewrite Z.min_l, Z.sub_diag in * by lia. change (2 ^ 0)%Z with 1%Z.
      assert (2 ^ 1 <= 2 ^ (ey - ex))%Z by (apply Z.pow_le_mono_r; lia).
      specialize (Ny ltac:(lia)). change (2 ^ 53)%Z with (2 * 2 ^ 52)%Z in *.
      change (2 ^ 1)%Z with 2%Z in *. nia.
Qed.

Lemma sub_sign (x y : float) :
  (x <? y)%float = true -> has_sign true (Prim2SF (x - y)).
Proof.
  rewrite ltb_spec, sub_spec. unfold SFltb, SF64sub. intros H.
  destruct (Prim2SF x) as [sx|sx| |sx mx ex] eqn:Ex,
           (Prim2SF y) as [sy|sy| |sy my ey] eqn:Ey;
    try discriminate.
  - (* zero, infinity *) destruct sy; [discriminate | reflexivity].
  - (* zero, finite *) destruct sy; [discriminate | reflexivity].
  - (* infinity, zero *) destruct sx; [reflexivity | discriminate].
  - (* infinity, infinity *) destruct sx, sy; try discriminate; reflexivity.
  - (* infinity, finite *) destruct sx; [reflexivity | discriminate].
  - (* finite, zero *) destruct sx; [reflexivity | discriminate].
  - (* finite, infinity *) destruct sy; [discriminate | reflexivity].
  - (* finite, finite *)
    cbn [SFsub]. apply binary_normalize_negative.
    apply (finite_sub_sign x y sx sy mx my ex ey Ex Ey).
    destruct (SFcompare _ _) as [[| |]|]; try discriminate. reflexivity.
Qed.

Section Decrease.

Variable to_datetime : list (option string) -> list (option Z).
Variable argsort : list Z -> list nat.

Lemma positive_finite_consts :
  positive_finite 3.3%float /\ positive_finite 1000%float
  /\ positive_finite 209.50%float.
Proof. unfold positive_finite. repeat split; vm_compute; eauto. Qed.

(** The economics of a kWh value with the sign bit set. *)
Lemma economics_of_sign (s : string) (kwh : float) :
  has_sign true (Prim2SF kwh) ->
  (s = "Gen1"%string \/ s = "Gen2"%string ->
   has_sign true (Prim2SF (fst (economics_of s kwh)))
   /\ has_sign true (Prim2SF (snd (economics_of s kwh))))
  /\ (s = "Utility"%string ->
      has_sign true (Prim2SF (snd (economics_of s kwh)))).
Proof.
  intros H. destruct positive_finite_consts as (P1 & P2 & P3).
  assert (F : has_sign true (Prim2SF (Np.around 2 (kwh / 3.3)))).
  { apply around_sign; [lia|]. now apply div_sign. }
  split.
  - intros Hs.
    assert (E : economics_of s kwh
                = (Np.around 2 (kwh / 3.3),
                   Np.around 2 (Np.around 2 (kwh / 3.3) * 1000))%float)
      by (destruct Hs; subst s; reflexivity).
    rewrite E. cbn [fst snd]. split; [exact F|].
    apply around_sign; [lia|]. now apply mul_sign.
  - intros ->. cbn [economics_of String.eqb Ascii.eqb Bool.eqb orb fst snd].
    apply around_sign; [lia|]. now apply mul_sign.
Qed.

(** Claim C5, as amended.  When the cumulative counter of a record is below
    that of the record before it, the derived KWh is the (negative)
    difference rounded to 2 decimals, with no clamping: a
    negative number, or negative zero when the rounding leaves nothing.
    The sign goes through the economics unchanged: for Gen1 and Gen2 the
    expected fuel and the cost, for Utility the cost, are negative numbers
    or negative zero. *)
Theorem counter_decrease_propagates (f : CsvFrame) (name : string)
  (log log' : list Event) (rows : list Reading) (i : nat) (p r : Reading) :
  process_source to_datetime argsort f name log = (Ok rows, log') ->
  nth_error rows i = Some p -> nth_error rows (S i) = Some r ->
  (as_number (kwh_import r) <? as_number (kwh_import p))%float = true ->
  KWh r = Np.around 2 (as_number (kwh_import r) - as_number (kwh_import p))
  /\ negative_or_negzero (KWh r)
  /\ forall combined_df e,
       In e (economics combined_df) -> reading e = r ->
       (source r = "Gen1"%string \/ source r = "Gen2"%string ->
        negative_or_negzero (expected_fuel_liters e)
        /\ negative_or_negzero (cost_ngn e))
       /\ (source r = "Utility"%string -> negative_or_negzero (cost_ngn e)).
Proof.
  intros Hrows Hp Hr Hd. apply sub_sign in Hd.
  assert (Hnan : Np.isnan (as_number (kwh_import r) - as_number (kwh_import p)) = false).
  { unfold Np.isnan, is_nan. rewrite eqb_spec.
    destruct (Prim2SF (as_number (kwh_import r) - as_number (kwh_import p))) as [s|s| |s m e];
      unfold has_sign in Hd; try contradiction; unfold SFeqb;
      rewrite FloatFacts.SFcompare_refl; try reflexivity; discriminate. }
  assert (HK : KWh r = Np.around 2 (as_number (kwh_import r) - as_number (kwh_import p))).
  { apply process_source_KWh in Hrows as HK.
    rewrite (KWh_next rows i p r HK Hp Hr). unfold Series.fill.
    now rewrite Hnan. }
  assert (HS : has_sign true (Prim2SF (KWh r))).
  { rewrite HK. now apply around_sign; [lia|]. }
  split; [exact HK|]. split; [now apply sign_negative_or_negzero|].
  intros combined_df e He Her. rewrite economics_map in He.
  apply in_map_iff in He as (r' & <- & _). cbn [reading] in Her. subst r'.
  cbn [expected_fuel_liters cost_ngn].
  destruct (economics_of_sign (source r) (KWh r) HS) as [Hg Hu].
  split.
  - intros Hs. destruct (Hg Hs) as [H1 H2].
    split; now apply sign_negative_or_negzero.
  - intros Hs. now apply sign_negative_or_negzero, Hu.
Qed.

End Decrease.

Lemma counter_decrease_witness :
  exists p r,
    nth_error drop_rows 0 = Some p /\ nth_error drop_rows 1 = Some r
    /\ (as_number (kwh_import r) <? as_number (kwh_import p))%float = true
    /\ KWh r = (-2.5)%float
    /\ (KWh r = Np.around 2 (as_number (kwh_import r) - as_number (kwh_import p))
        /\ negative_or_negzero (KWh r)
        /\ forall combined_df e,
             In e (economics combined_df) -> reading e = r ->
             (source r = "Gen1"%string \/ source r = "Gen2"%string ->
              negative_or_negzero (expected_fuel_liters e)
              /\ negative_or_negzero (cost_ngn e))
             /\ (source r = "Utility"%string -> negative_or_negzero (cost_ngn e))).
Proof.
  eexists. eexists. split; [reflexivity|]. split; [reflexivity|].
  split; [reflexivity|]. split; [reflexivity|].
  refine (counter_decrease_propagates iso_to_datetime stable_argsort drop_csv
            "Gen1" [] [] drop_rows 0 _ _ _ eq_refl eq_refl eq_refl).
  vm_compute. reflexivity.
Defined.

(** Claim C5 as stated fails: in a generator file with the readings 10,
    9.999, 9.999, 9.99 the counter of the second record is below the first
    yet its KWh is negative zero, not a negative number; and the KWh of the
    last record is -0.01, yet its expected fuel and its cost are negative
    zero. *)
Lemma counter_decrease_counterexample :
  map kwh_import dip_rows = map Num [10; 9.999; 9.999; 9.99]%float
  /\ (9.999 <? 10)%float = true
  /\ map KWh dip_rows = [0; -0; 0; -0.01]%float
  /\ (-0 <? 0)%float = false
  /\ map expected_fuel_liters (economics dip_rows) = [0; -0; 0; -0]%float
  /\ map cost_ngn (economics dip_rows) = [0; -0; 0; -0]%float.
Proof. repeat split; vm_compute; reflexivity. Qed.

(** ** Percentages of a zero total *)

Section ZeroTotal.

Lemma eqb_zero (t : float) :
  (t =? 0)%float = true -> exists s, Prim2SF t = S754_zero s.
Proof.
  rewrite eqb_spec. change (Prim2SF 0) with (S754_zero false).
  unfold SFeqb. destruct (Prim2SF t) as [s|s| |s m e]; cbn.
  - intros _. now exists s.
  - destruct s; discriminate.
  - discriminate.
  - destruct s; discriminate.
Qed.

Lemma nan_or_inf_rint (x : float) : nan_or_inf x -> Np.rint x = x.
Proof.
  intros H. unfold Np.rint.
  replace (abs x <? Np.two52)%float with false; [reflexivity|].
  rewrite ltb_spec, abs_spec. destruct H as [H|[s H]]; rewrite H; reflexivity.
Qed.

Lemma percent_of_total_values (rows : list (string * float)) :
  map s_value (percent_of_total rows) = map snd rows.
Proof. unfold percent_of_total. rewrite map_map. reflexivity. Qed.

Lemma positive_finite_hundred : positive_finite 100%float.
Proof. unfold positive_finite. vm_compute. eauto. Qed.

(** NaN and the infinities go through [* 100] and [round(1)] as they are. *)
Lemma percent_of_nan (x : float) :
  Prim2SF x = S754_nan -> Np.around 1 (x * 100) = nan.
Proof.
  intros H. destruct positive_finite_hundred as (m & e & H100).
  destruct (positive_finite_pow10 1) as (m' & e' & H10); [lia|].
  assert (N : Prim2SF (x * 100 * Np.power_of_ten 1) = S754_nan).
  { rewrite mul_spec, H10, mul_spec, H, H100. reflexivity. }
  unfold Np.around. rewrite nan_or_inf_rint by (now left).
  apply Prim2SF_inj. rewrite div_spec, N, H10. reflexivity.
Qed.

Lemma percent_of_infinity (x : float) (s : bool) :
  Prim2SF x = S754_infinity s ->
  Np.around 1 (x * 100) = if s then neg_infinity else infinity.
Proof.
  intros H. destruct positive_finite_hundred as (m & e & H100).
  destruct (positive_finite_pow10 1) as (m' & e' & H10); [lia|].
  assert (N : Prim2SF (x * 100 * Np.power_of_ten 1) = S754_infinity s).
  { rewrite mul_spec, H10, mul_spec, H, H100. cbn. now rewrite !xorb_false_r. }
  unfold Np.around. rewrite nan_or_inf_rint by (right; eauto).
  apply Prim2SF_inj. rewrite div_spec, N, H10. cbn. rewrite xorb_false_r.
  now destruct s.
Qed.

(** The percentage of a value [v] in a total [t] that is zero. *)
Lemma percent_of_zero (v t : float) :
  (t =? 0)%float = true ->
  Np.around 1 (v / t * 100) = pct_over_zero t v.
Proof.
  intros Ht. apply eqb_zero in Ht as [st Ht].
  assert (St : get_sign t = st).
  { destruct st; [apply get_sign_negative | apply get_sign_positive];
      rewrite Ht; reflexivity. }
  unfold pct_over_zero. rewrite St.
  destruct (Prim2SF v) as [sv|sv| |sv m e] eqn:Hv.
  - (* zero *)
    replace (v =? 0)%float with true
      by (rewrite eqb_spec, Hv; now destruct sv).
    rewrite orb_true_r. apply percent_of_nan.
    rewrite div_spec, Hv, Ht. reflexivity.
  - (* infinity *)
    replace (Np.isnan v) with false
      by (symmetry; apply (has_sign_not_nan sv); now rewrite Hv).
    replace (v =? 0)%float with false
      by (rewrite eqb_spec, Hv; now destruct sv).
    replace (get_sign v) with sv
      by (symmetry; destruct sv; [apply get_sign_negative | apply get_sign_positive];
          rewrite Hv; reflexivity).
    cbn [orb]. rewrite (percent_of_infinity (v / t) (xorb sv st)).
    + now destruct sv, st.
    + rewrite div_spec, Hv, Ht. reflexivity.
  - (* NaN *)
    replace (Np.isnan v) with true
      by (symmetry; now apply FloatFacts.is_nan_spec).
    cbn [orb]. apply percent_of_nan.
    rewrite div_spec, Hv. reflexivity.
  - (* a finite number *)
    replace (Np.isnan v) with false
      by (symmetry; apply (has_sign_not_nan sv); now rewrite Hv).
    replace (v =? 0)%float with false
      by (rewrite eqb_spec, Hv; now destruct sv).
    replace (get_sign v) with sv
      by (symmetry; destruct sv; [apply get_sign_negative | apply get_sign_positive];
          rewrite Hv; reflexivity).
    cbn [orb]. rewrite (percent_of_infinity (v / t) (xorb sv st)).
    + now destruct sv, st.
    + rewrite div_spec, Hv, Ht. reflexivity.
Qed.

Lemma percent_of_total_zero (rows : list (string * float)) (r : SummaryRow) :
  (Np.nansum (map s_value (percent_of_total rows)) =? 0)%float = true ->
  In r (percent_of_total rows) ->
  pct r = pct_over_zero (Np.nansum (map s_value (percent_of_total rows))) (s_value r).
Proof.
  rewrite percent_of_total_values. intros Ht Hr. unfold percent_of_total in Hr.
  apply in_map_iff in Hr as (kv & <- & _). cbn [pct s_value].
  now apply percent_of_zero.
Qed.

Variable argsort_f : list float -> list nat.

(** Claim C2, as amended.  The two summaries are made for every combined
    frame, and the division by the total raises nothing.  When the grand
    total of the KWh summary (resp. of the cost summary) is zero, the
    percentage of a source is what the float division by zero gives: NaN
    (shown as nan%) when the own total of the source is zero or is not a
    number; otherwise an infinity (inf%, -inf%), with the sign of the own
    total, the sign being reversed if the zero total is -0.0.  It is never
    0. *)
Theorem zero_total_percentages (combined_df : list EconRow) :
  (forall r,
     (Np.nansum (map s_value (summary combined_df)) =? 0)%float = true ->
     In r (summary combined_df) ->
     pct r = pct_over_zero (Np.nansum (map s_value (summary combined_df)))
                           (s_value r)
     /\ (pct r =? 0)%float = false)
  /\ (forall r,
        (Np.nansum (map s_value (cost_summary argsort_f combined_df)) =? 0)%float
        = true ->
        In r (cost_summary argsort_f combined_df) ->
        pct r = pct_over_zero
                  (Np.nansum (map s_value (cost_summary argsort_f combined_df)))
                  (s_value r)
        /\ (pct r =? 0)%float = false).
Proof.
  assert (Z : forall t v, (pct_over_zero t v =? 0)%float = false).
  { intros t v. unfold pct_over_zero.
    destruct (Np.isnan v || (v =? 0)%float); [reflexivity|].
    destruct (Bool.eqb (get_sign v) (get_sign t)); reflexivity. }
  split; intros r Ht Hr;
    [unfold summary in * | unfold cost_summary in *];
    rewrite (percent_of_total_zero _ r Ht Hr); split; [reflexivity | apply Z |
                                                          reflexivity | apply Z].
Qed.

End ZeroTotal.

Lemma zero_total_witness :
  (Np.nansum (map s_value (summary (combined_df opposite_report))) =? 0)%float = true
  /\ In (mkSummaryRow "Gen2" (-2.5) neg_infinity) (summary (combined_df opposite_report))
  /\ neg_infinity
     = pct_over_zero (Np.nansum (map s_value (summary (combined_df opposite_report))))
                     (-2.5)
  /\ (neg_infinity =? 0)%float = false.
Proof.
  assert (T : (Np.nansum (map s_value (summary (combined_df opposite_report))) =? 0)%float
              = true) by (vm_compute; reflexivity).
  assert (I : In (mkSummaryRow "Gen2" (-2.5) neg_infinity)
                (summary (combined_df opposite_report)))
    by (vm_compute; right; left; reflexivity).
  split; [exact T|]. split; [exact I|].
  exact (proj1 (zero_total_percentages stable_argsort_f (combined_df opposite_report))
           (mkSummaryRow "Gen2" (-2.5) neg_infinity) T I).
Defined.

(** Claim C2 as stated fails.  In a run whose only file, a generator file,
    has readings that do not move, the KWh total and the cost total are zero,
    the run ends with its report, and both summaries show NaN for the source.
    In a run with a generator that gains 2.5 kWh and one that loses as much,
    both totals are zero again, and the summaries show +infinity for the one
    and -infinity for the other.  None of them is 0. *)
Lemma zero_total_counterexample :
  main iso_to_datetime stable_argsort stable_argsort_f None (Some flat_csv) None []
  = (Ok (Some flat_report), [Success "Gen1"])
  /\ r_summary flat_report = [mkSummaryRow "Gen1" 0 nan]
  /\ r_cost_summary flat_report = [mkSummaryRow "Gen1" 0 nan]
  /\ main iso_to_datetime stable_argsort stable_argsort_f
       None (Some rise_csv) (Some drop_csv) []
     = (Ok (Some opposite_report), [Success "Gen1"; Success "Gen2"])
  /\ r_summary opposite_report
     = [mkSummaryRow "Gen1" 2.5 infinity; mkSummaryRow "Gen2" (-2.5) neg_infinity]
  /\ r_cost_summary opposite_report
     = [mkSummaryRow "Gen1" 760 infinity; mkSummaryRow "Gen2" (-760) neg_infinity]
  /\ (nan =? 0)%float = false /\ (infinity =? 0)%float = false
  /\ (neg_infinity =? 0)%float = false.
Proof. repeat split; vm_compute; reflexivity. Qed.

(** ** Re-aggregating the bucket sums *)

Lemma insert_sorted_in (x y : Z * float) (l : list (Z * float)) :
  In y (insert_sorted x l) -> y = x \/ In y l.
Proof.
  induction l as [|h t IH]; cbn; [intuition|].
  destruct (fst x <=? fst h)%Z; cbn; intuition.
Qed.

Lemma insert_sorted_sorted (x : Z * float) (l : list (Z * float)) :
  StronglySorted by_time l -> StronglySorted by_time (insert_sorted x l).
Proof.
  induction 1 as [|h t Hs IH Hh]; cbn; [repeat constructor|].
  destruct (fst x <=? fst h)%Z eqn:E.
  - apply Z.leb_le in E. constructor; [now constructor|].
    constructor; [exact E|]. eapply Forall_impl; [|exact Hh].
    unfold by_time. intros a Ha. lia.
  - apply Z.leb_gt in E. constructor; [exact IH|].
    apply Forall_forall. intros y Hy. apply insert_sorted_in in Hy as [->|Hy].
    + unfold by_time. lia.
    + rewrite Forall_forall in Hh. now apply Hh.
Qed.

Lemma mergesort_sorted (l : list (Z * float)) : StronglySorted by_time (mergesort l).
Proof.
  unfold mergesort. induction l as [|x l IH]; cbn; [constructor|].
  now apply insert_sorted_sorted.
Qed.

Lemma insert_sorted_head (x : Z * float) (l : list (Z * float)) :
  Forall (fun y => (fst x < fst y)%Z) l -> insert_sorted x l = x :: l.
Proof.
  destruct l as [|h t]; [reflexivity|]. intros H. inversion H; subst. cbn.
  replace (fst x <=? fst h)%Z with true; [reflexivity|].
  symmetry. apply Z.leb_le. lia.
Qed.

Lemma mergesort_ascending (l : list (Z * float)) :
  StronglySorted Z.lt (map fst l) -> mergesort l = l.
Proof.
  unfold mergesort. induction l as [|x l IH]; cbn [map fold_right]; intros H;
    [reflexivity|].
  apply StronglySorted_inv in H as [Hs Hx]. rewrite (IH Hs).
  apply insert_sorted_head. rewrite Forall_map in Hx. exact Hx.
Qed.

Lemma sorted_last (x d : Z * float) (l : list (Z * float)) :
  StronglySorted by_time (x :: l) -> (fst x <= fst (List.last (x :: l) d))%Z.
Proof.
  intros H. apply StronglySorted_inv in H as [_ H]. rewrite Forall_forall in H.
  destruct l as [|y l]; [cbn; lia|].
  apply H. change (List.last (x :: y :: l) d) with (List.last (y :: l) d).
  clear H. revert y.
  induction l as [|z l IH]; intros y; [now left|].
  right. apply IH.
Qed.

Lemma floor_to_mod (w t : Z) : (0 < w)%Z -> (floor_to w t mod w = 0)%Z.
Proof.
  intros Hw. unfold floor_to.
  rewrite (Z.div_mod t w) at 1 by lia.
  replace (w * (t / w) + t mod w - t mod w)%Z with ((t / w) * w)%Z by lia.
  now apply Z.mod_mul; lia.
Qed.

Lemma floor_to_le (w a b : Z) : (0 < w)%Z -> (a <= b)%Z -> (floor_to w a <= floor_to w b)%Z.
Proof.
  intros Hw Hab. unfold floor_to.
  pose proof (Z.div_le_mono a b w Hw Hab).
  rewrite (Z.mod_eq a w), (Z.mod_eq b w) by lia. nia.
Qed.

Lemma floor_to_fixed (w first : Z) (k : nat) :
  (0 < w)%Z -> (first mod w = 0)%Z ->
  floor_to w (first + Z.of_nat k * w) = (first + Z.of_nat k * w)%Z.
Proof.
  intros Hw H. unfold floor_to. rewrite Z.mod_add, H by lia. lia.
Qed.

Lemma resample_sum_regular (w : Z) (series : list (option Z * float))
  (buckets : list (Z * float)) :
  (0 < w)%Z -> resample_sum w series = Some buckets -> regular w buckets.
Proof.
  unfold resample_sum. intros Hw H.
  pose proof (mergesort_sorted
                (flat_map (fun tv : option Z * float =>
                             match fst tv with
                             | Some t => [(t, snd tv)]
                             | None => []
                             end) series)) as Hs.
  destruct (mergesort _) as [|[t0 v0] rows]; [discriminate|].
  injection H as <-.
  set (last := floor_to w (fst (List.last ((t0, v0) :: rows) (t0, 0%float)))).
  set (first := floor_to w t0).
  exists first, (Z.to_nat ((last - first) / w + 1)),
    (fun k => Series.group_sum
                (map snd (filter (fun tv : Z * float =>
                                    (floor_to w (fst tv) =? first + Z.of_nat k * w)%Z)
                            ((t0, v0) :: rows)))).
  split; [now apply floor_to_mod|]. split; [|reflexivity].
  assert (first <= last)%Z.
  { unfold first, last. apply floor_to_le; [assumption|].
    apply (sorted_last (t0, v0) (t0, 0%float) rows Hs). }
  assert (0 <= (last - first) / w)%Z by (apply Z.div_pos; lia). lia.
Qed.

Lemma filter_seq_one {A} (f : nat -> A) (p : A -> bool) (k : nat) : forall n s,
  (forall j, p (f j) = Nat.eqb j k) ->
  s <= k < s + n ->
  filter p (map f (seq s n)) = [f k].
Proof.
  induction n as [|n IH]; intros s Hp Hk; [lia|].
  cbn [seq map filter]. rewrite Hp.
  destruct (Nat.eqb_spec s k) as [->|Hne].
  - f_equal. rewrite (filter_ext_in _ (fun _ => false)); [apply filter_false|].
    intros a Ha. apply in_map_iff in Ha as (j & <- & Hj). apply in_seq in Hj.
    rewrite Hp. apply Nat.eqb_neq. lia.
  - apply IH; [assumption | lia].
Qed.

Lemma resample_regular (w : Z) (buckets : list (Z * float)) :
  (0 < w)%Z -> regular w buckets ->
  resample_sum w (map (fun b => (Some (fst b), snd b)) buckets)
  = Some (map (fun b => (fst b, Series.group_sum [snd b])) buckets).
Proof.
  intros Hw (first & n & g & Hfirst & Hn & ->).
  unfold resample_sum.
  set (bs := map (fun k => ((first + Z.of_nat k * w)%Z, g k)) (seq 0 n)).
  assert (Hst : flat_map (fun tv : option Z * float =>
                            match fst tv with
                            | Some t => [(t, snd tv)]
                            | None => []
                            end)
                  (map (fun b : Z * float => (Some (fst b), snd b)) bs) = bs).
  { induction bs as [|[t v] l IH]; [reflexivity|]. cbn. now rewrite IH. }
  rewrite Hst.
  assert (Hasc : StronglySorted Z.lt (map fst bs)).
  { unfold bs. rewrite map_map. cbn [fst]. now apply ascending_starts. }
  rewrite (mergesort_ascending bs Hasc).
  destruct n as [|n]; [lia|].
  assert (Hlast : List.last bs ((first + Z.of_nat 0 * w)%Z, 0%float)
                  = ((first + Z.of_nat n * w)%Z, g n)).
  { unfold bs. rewrite seq_S, map_app. cbn [map]. apply last_last. }
  unfold bs at 1. cbn [seq map]. fold bs in Hlast |- *.
  change ((first + Z.of_nat 0 * w)%Z, g 0 :: map _ (seq 1 n)) with bs.
  rewrite Hlast. cbn [fst].
  rewrite !(floor_to_fixed w first) by assumption.
  replace (Z.to_nat ((first + Z.of_nat n * w - (first + Z.of_nat 0 * w)) / w + 1))
    with (S n).
  2:{ replace (first + Z.of_nat n * w - (first + Z.of_nat 0 * w))%Z
        with (Z.of_nat n * w)%Z by lia.
      rewrite Z.div_mul by lia. lia. }
  f_equal. unfold bs. rewrite map_map. apply map_ext_in.
  intros k Hk. apply in_seq in Hk. cbn [fst snd]. f_equal; [lia|].
  replace (first + Z.of_nat 0 * w + Z.of_nat k * w)%Z
    with (first + Z.of_nat k * w)%Z by lia.
  rewrite (filter_seq_one (fun j => ((first + Z.of_nat j * w)%Z, g j)) _ k);
    [reflexivity | | lia].
  intros j. cbn [fst]. rewrite (floor_to_fixed w first j) by assumption.
  destruct (Nat.eqb_spec j k) as [->|Hne].
  - apply Z.eqb_refl.
  - apply Z.eqb_neq. nia.
Qed.

Lemma sequence_map_resum (G G' : string -> option (list Bucket))
  (keys : list string) : forall chart,
  (forall k, In k keys -> G' k = option_map (map resum) (G k)) ->
  sequence (map G keys) = Some chart ->
  sequence (map G' keys) = Some (map resum chart).
Proof.
  induction keys as [|k keys IH]; cbn [map sequence]; intros chart HG H.
  - now injection H as <-.
  - rewrite (HG k (or_introl eq_refl)).
    destruct (G k) as [block|]; [|discriminate]. cbn [option_map].
    destruct (sequence (map G keys)) as [rest|] eqn:E; [|discriminate].
    injection H as <-.
    rewrite (IH rest (fun k' Hk' => HG k' (or_intror Hk')) eq_refl).
    now rewrite map_app.
Qed.

Lemma group_sum_single (x : float) :
  Series.group_sum [x] = if Np.isnan x then 0%float else (0 + (x - 0))%float.
Proof.
  unfold Series.group_sum. cbn [fold_left Series.kahan_step].
  now destruct (Np.isnan x).
Qed.

Lemma sub_zero (x : float) : (x - 0)%float = x.
Proof.
  apply Prim2SF_inj. rewrite sub_spec. change (Prim2SF 0) with (S754_zero false).
  unfold SF64sub, SFsub. destruct (Prim2SF x) as [[|]|[|]| |s m e]; reflexivity.
Qed.

Lemma zero_add (x : float) :
  is_nan x = false -> ((0 + x)%float =? x)%float = true.
Proof.
  intros H. rewrite eqb_spec, add_spec. change (Prim2SF 0) with (S754_zero false).
  unfold SF64add, SFadd, SFeqb.
  destruct (Prim2SF x) as [s|s| |s m e] eqn:E.
  - destruct s; reflexivity.
  - destruct s; reflexivity.
  - apply FloatFacts.is_nan_spec in E. congruence.
  - rewrite FloatFacts.SFcompare_refl; [reflexivity | discriminate].
Qed.

Lemma zero_add_exact (x : float) : x <> neg_zero -> (0 + x)%float = x.
Proof.
  intros Hz. apply Prim2SF_inj. rewrite add_spec.
  change (Prim2SF 0) with (S754_zero false). unfold SF64add, SFadd.
  destruct (Prim2SF x) as [[|]|[|]| |s m e] eqn:E; try reflexivity.
  exfalso. apply Hz. apply Prim2SF_inj. rewrite E. reflexivity.
Qed.

(** Claim C8, as amended.  Applying the bucket-and-sum transform to the
    bucket sums, each placed at its [bucket_start], gives the same buckets
    (same sources, same starts, in the same order), the sum of each being
    added up again as a single value; for a sum that is a number the result
    is numerically equal to it, and is the very same float unless it is
    negative zero. *)
Theorem rebucket_same_buckets (rows : list (string * option Z * float))
  (chart : list Bucket) :
  bucket_sums rows = Some chart ->
  rebucket chart = Some (map resum chart)
  /\ (forall x, Np.isnan x = false -> (Series.group_sum [x] =? x)%float = true)
  /\ (forall x, Np.isnan x = false -> x <> neg_zero -> Series.group_sum [x] = x).
Proof.
  intros Hchart. split; [|split].
  - unfold rebucket.
    pose proof Hchart as H. unfold bucket_sums in H |- *.
    set (G := fun k : string =>
                match resample_sum bucket_width
                        (map (fun r : string * option Z * float => (snd (fst r), snd r))
                           (filter (fun r : string * option Z * float =>
                                      String.eqb (fst (fst r)) k) rows)) with
                | Some buckets => Some (map (fun b => mkBucket k (fst b) (snd b)) buckets)
                | None => None
                end) in *.
    set (conv := fun b : Bucket => (b_source b, Some (bucket_start b), bucket_kwh b)).
    set (G' := fun k : string =>
                 match resample_sum bucket_width
                         (map (fun r : string * option Z * float => (snd (fst r), snd r))
                            (filter (fun r : string * option Z * float =>
                                       String.eqb (fst (fst r)) k) (map conv chart))) with
                 | Some buckets => Some (map (fun b => mkBucket k (fst b) (snd b)) buckets)
                 | None => None
                 end).
    set (keys := group_keys (map (fun r : string * option Z * float => fst (fst r)) rows)) in *.
    assert (GS : forall k block b, G k = Some block -> In b block -> b_source b = k).
    { intros k block b Hk Hb. unfold G in Hk.
      destruct (resample_sum _ _); [|discriminate]. injection Hk as <-.
      apply in_map_iff in Hb as (x & <- & _). reflexivity. }
    assert (Hkeys : StronglySorted slt keys) by apply group_keys_spec.
    assert (HG' : forall k, In k keys -> G' k = option_map (map resum) (G k)).
    { intros k Hk.
      pose proof (filter_blocks_present G GS k keys chart Hkeys H Hk) as Ek.
      rewrite Ek. cbn [option_map]. unfold G in Ek.
      destruct (resample_sum bucket_width _) as [buckets|] eqn:Er; [|discriminate].
      injection Ek as Ek. unfold G'.
      rewrite filter_map_swap, map_map. unfold conv. cbn [fst snd].
      change (fun b : Bucket => String.eqb (b_source b) k) with (of_source k).
      rewrite <- Ek, !map_map. cbn [snd fst bucket_start bucket_kwh].
      pose proof (resample_sum_regular bucket_width _ _ eq_refl Er) as Hreg.
      rewrite (resample_regular bucket_width buckets eq_refl Hreg).
      rewrite !map_map. reflexivity. }
    assert (K : group_keys (map (fun r : string * option Z * float => fst (fst r))
                              (map conv chart)) = keys).
    { apply sorted_keys_unique; [apply group_keys_spec | exact Hkeys |].
      intros s. rewrite (proj2 (group_keys_spec _) s), map_map.
      change (map (fun x : Bucket => fst (fst (conv x))) chart)
        with (map b_source chart).
      split.
      - intros Hs.
        destruct (in_dec string_dec s keys) as [Hin|Hout]; [exact Hin|].
        exfalso. pose proof (filter_blocks_absent G GS s keys chart H Hout) as E.
        apply in_map_iff in Hs as (b & Hb & Hbin).
        assert (In b (filter (of_source s) chart)) as Hf.
        { apply filter_In. split; [exact Hbin|]. unfold of_source.
          rewrite Hb. apply String.eqb_refl. }
        now rewrite E in Hf.
      - intros Hs.
        pose proof (filter_blocks_present G GS s keys chart Hkeys H Hs) as Es.
        unfold G in Es.
        destruct (resample_sum bucket_width _) as [buckets|] eqn:Er; [|discriminate].
        injection Es as Es.
        destruct (resample_sum_regular bucket_width _ _ eq_refl Er)
          as (first & n & g & _ & Hn & ->).
        destruct n as [|n]; [lia|]. cbn [seq map] in Es.
        assert (In (mkBucket s (first + Z.of_nat 0 * bucket_width) (g 0))
                  (filter (of_source s) chart)) as Hb by (rewrite <- Es; now left).
        apply filter_In in Hb as [Hb _].
        apply in_map_iff. eexists. split; [|exact Hb]. reflexivity. }
    rewrite K. now apply (sequence_map_resum G G').
  - intros x Hx. rewrite group_sum_single, Hx, sub_zero. now apply zero_add.
  - intros x Hx Hz. rewrite group_sum_single, Hx, sub_zero. now apply zero_add_exact.
Qed.

Lemma rebucket_witness :
  bucket_sums even_rows = Some even_chart
  /\ (rebucket even_chart = Some (map resum even_chart)
      /\ (forall x, Np.isnan x = false -> (Series.group_sum [x] =? x)%float = true)
      /\ (forall x, Np.isnan x = false -> x <> neg_zero -> Series.group_sum [x] = x)).
Proof.
  assert (H : bucket_sums even_rows = Some even_chart) by (vm_compute; reflexivity).
  split; [exact H|]. exact (rebucket_same_buckets even_rows even_chart H).
Defined.

(** Claim C8 as stated fails.  Three records of one source with the same
    timestamp, hence of one bucket, add up to 0.32999999999999996 in the
    order 0.01, 0.02, 0.3 and to 0.33 in the reverse order: the bucket sum
    depends on the order of the records.  And a bucket whose sum is NaN
    (an infinite rise followed by an infinite fall) is re-aggregated to 0. *)
Lemma bucket_order_counterexample :
  let t := Some 1709287200000000000%Z in
  let a := ("Gen1"%string, t, 0.01%float) in
  let b := ("Gen1"%string, t, 0.02%float) in
  let c := ("Gen1"%string, t, 0.3%float) in
  Permutation [a; b; c] [c; b; a]
  /\ bucket_sums [a; b; c]
     = Some [mkBucket "Gen1" 1709287200000000000 0.32999999999999996]
  /\ bucket_sums [c; b; a]
     = Some [mkBucket "Gen1" 1709287200000000000 0.33]
  /\ (0.32999999999999996 =? 0.33)%float = false
  /\ bucket_sums [("Gen1"%string, t, infinity); ("Gen1"%string, t, neg_infinity)]
     = Some [mkBucket "Gen1" 1709287200000000000 nan]
  /\ rebucket [mkBucket "Gen1" 1709287200000000000 nan]
     = Some [mkBucket "Gen1" 1709287200000000000 0].
Proof.
  cbv zeta. split.
  - apply Permutation_sym, (Permutation_rev [_; _; _]).
  - repeat split; vm_compute; reflexivity.
Qed.

(** * Further properties of the two pages *)

(** ** Values that are never missing *)

Lemma around_not_nan (n : nat) (x : float) :
  n <= 2 -> is_nan x = false -> is_nan (Np.around n x) = false.
Proof.
  intros Hn H. apply not_nan_has_sign in H as [s H].
  apply (has_sign_not_nan s). now apply around_keeps_sign.
Qed.

Lemma fill_not_nan (x : float) : is_nan (Series.fill 0 x) = false.
Proof.
  unfold Series.fill, Np.isnan. destruct (is_nan x) eqn:E; [reflexivity | exact E].
Qed.

Lemma derive_KWh_not_nan (l : list float) :
  Forall (fun k => Np.isnan k = false) (derive_KWh l).
Proof.
  unfold derive_KWh, Series.round, Series.fillna. rewrite map_map.
  apply Forall_forall. intros k Hk. apply in_map_iff in Hk as (x & <- & _).
  apply around_not_nan; [lia | apply fill_not_nan].
Qed.

Section NeverMissing.

Variable to_datetime : list (option string) -> list (option Z).
Variable argsort : list Z -> list nat.

(** Property X1.  The [KWh] column of the frame [process_source] returns has
    no missing value: whatever the readings are (missing, infinite, out of
    order), [diff().fillna(0).round(2)] leaves a number in every row. *)
Theorem kwh_never_missing (f : CsvFrame) (name : string) (log log' : list Event)
  (rows : list Reading) :
  process_source to_datetime argsort f name log = (Ok rows, log') ->
  forall r, In r rows -> Np.isnan (KWh r) = false.
Proof.
  intros H r Hr. apply process_source_KWh in H.
  pose proof (derive_KWh_not_nan (map (fun r => as_number (kwh_import r)) rows)) as N.
  rewrite <- H in N. rewrite Forall_forall in N.
  apply N. now apply in_map.
Qed.

End NeverMissing.

Lemma kwh_never_missing_witness :
  process_source iso_to_datetime stable_argsort gap_csv "Gen1" []
  = (Ok (frame_of gap_csv "Gen1"), [])
  /\ forall r, In r (frame_of gap_csv "Gen1") -> Np.isnan (KWh r) = false.
Proof.
  assert (H : process_source iso_to_datetime stable_argsort gap_csv "Gen1" []
              = (Ok (frame_of gap_csv "Gen1"), [])) by (vm_compute; reflexivity).
  split; [exact H|].
  exact (kwh_never_missing iso_to_datetime stable_argsort gap_csv "Gen1" [] []
           (frame_of gap_csv "Gen1") H).
Defined.

(** The economics of a kWh value that is a number are numbers. *)
Lemma economics_of_not_nan (s : string) (kwh : float) :
  is_nan kwh = false ->
  is_nan (fst (economics_of s kwh)) = false
  /\ is_nan (snd (economics_of s kwh)) = false.
Proof.
  intros H. apply not_nan_has_sign in H as [b H].
  destruct positive_finite_consts as (P1 & P2 & P3).
  unfold economics_of.
  destruct (String.eqb s "Gen1" || String.eqb s "Gen2")%bool; cbn [fst snd].
  - assert (F : has_sign b (Prim2SF (Np.around 2 (kwh / 3.3)))).
    { apply around_keeps_sign; [lia|]. now apply div_sign. }
    split; [exact (has_sign_not_nan b _ F)|].
    apply (has_sign_not_nan b). apply around_keeps_sign; [lia|]. now apply mul_sign.
  - destruct (String.eqb s "Utility"); cbn [fst snd]; split; try reflexivity.
    apply (has_sign_not_nan b). apply around_keeps_sign; [lia|]. now apply mul_sign.
Qed.

(** Property X2.  The economics block adds its two columns to [combined_df]
    and leaves the rows as they are: same rows, same order, same readings.
    When every [KWh] is a number, so is every expected fuel and every cost. *)
Theorem economics_keeps_rows_and_numbers (df : list Reading) :
  map reading (economics df) = df
  /\ ((forall r, In r df -> Np.isnan (KWh r) = false) ->
      forall e, In e (economics df) ->
        Np.isnan (expected_fuel_liters e) = false
        /\ Np.isnan (cost_ngn e) = false).
Proof.
  rewrite economics_map. split.
  - rewrite map_map. cbn [reading]. apply map_id.
  - intros H e He. apply in_map_iff in He as (r & <- & Hr).
    cbn [expected_fuel_liters cost_ngn].
    apply economics_of_not_nan. now apply H.
Qed.

Lemma economics_witness :
  map reading (economics meter_rows) = meter_rows
  /\ ((forall r, In r meter_rows -> Np.isnan (KWh r) = false) ->
      forall e, In e (economics meter_rows) ->
        Np.isnan (expected_fuel_liters e) = false
        /\ Np.isnan (cost_ngn e) = false).
Proof. exact (economics_keeps_rows_and_numbers meter_rows). Defined.

(** ** The combined frame and the messages of the page *)

Lemma tag_rows_source (name : string) (df : list Stamped) : forall kwh,
  Forall (fun r => source r = name) (tag_rows name df kwh).
Proof.
  induction df as [|r df IH]; destruct kwh as [|k kwh]; cbn; constructor;
    [reflexivity | apply IH].
Qed.

Section Loading.

Variable to_datetime : list (option string) -> list (option Z).
Variable argsort : list Z -> list nat.
Variable argsort_f : list float -> list nat.

Lemma process_source_source (f : CsvFrame) (name : string) (log log' : list Event)
  (rows : list Reading) :
  process_source to_datetime argsort f name log = (Ok rows, log') ->
  Forall (fun r => source r = name) rows.
Proof.
  unfold process_source. destruct (negb (has_required f)).
  - cbv [bind emit ret]. intros H. injection H as <- _. constructor.
  - destruct (stamped to_datetime f) as [df|]; [|discriminate].
    cbv [ret]. intros H. injection H as <- _. apply tag_rows_source.
Qed.

Lemma process_source_log (f : CsvFrame) (name : string) (log log' : list Event)
  (out : Outcome (list Reading)) :
  process_source to_datetime argsort f name log = (out, log') ->
  (has_required f = false /\ out = Ok [] /\ log' = log ++ [Warning name])
  \/ (has_required f = true /\ log' = log).
Proof.
  unfold process_source. intros H. destruct (has_required f); cbn [negb] in H.
  - right. split; [reflexivity|].
    destruct (stamped to_datetime f); cbv [ret raise] in H; now injection H.
  - left. cbv [bind emit ret] in H. injection H as <- <-. auto.
Qed.

(** What one [if <file>:] block does to the list of frames and to the
    messages. *)
Lemma load_spec (file : option CsvFrame) (name : string)
  (dfs : list (list Reading)) (log log' : list Event)
  (out : Outcome (list (list Reading))) :
  load to_datetime argsort file name dfs log = (out, log') ->
  (out = Raised /\ log' = log)
  \/ (out = Ok dfs /\ (log' = log \/ log' = log ++ [Warning name]))
  \/ (exists df, df <> [] /\ Forall (fun r => source r = name) df
                 /\ out = Ok (dfs ++ [df]) /\ log' = log ++ [Success name]).
Proof.
  unfold load. destruct file as [f|].
  - rewrite bind_run.
    destruct (process_source to_datetime argsort f name log) as [[rows|] l] eqn:E.
    + pose proof (process_source_source _ _ _ _ _ E) as Hs.
      apply process_source_log in E.
      destruct rows as [|r rows].
      * cbv [ret]. intros H. injection H as <- <-. right. left.
        split; [reflexivity|]. destruct E as [(_ & _ & ->)|(_ & ->)]; auto.
      * cbv [bind emit ret]. intros H. injection H as <- <-. right. right.
        exists (r :: rows). split; [discriminate|]. split; [exact Hs|].
        split; [reflexivity|].
        destruct E as [(_ & E & _)|(_ & ->)]; [discriminate | reflexivity].
    + apply process_source_log in E. intros H. injection H as <- <-.
      left. split; [reflexivity|].
      destruct E as [(_ & E & _)|(_ & ->)]; [discriminate | reflexivity].
  - cbv [ret]. intros H. injection H as <- <-. right. left. auto.
Qed.

Lemma load_sources (file : option CsvFrame) (name : string)
  (dfs dfs' : list (list Reading)) (log log' : list Event) :
  load to_datetime argsort file name dfs log = (Ok dfs', log') ->
  exists n, map source (pd_concat dfs') = map source (pd_concat dfs) ++ repeat name n
            /\ (dfs' = [] -> dfs = []) /\ (dfs' <> [] -> dfs = [] -> 0 < n).
Proof.
  intros H. apply load_spec in H as [[H _]|[[H _]|(df & Hne & Hs & H & _)]];
    [discriminate| |]; injection H as ->.
  - exists 0. cbn [repeat]. rewrite app_nil_r. split; [reflexivity|].
    split; [auto | intros A B; contradiction].
  - exists (List.length df). unfold pd_concat.
    rewrite concat_app, map_app. cbn [List.concat]. rewrite app_nil_r.
    split; [f_equal|split].
    + clear Hne. induction Hs as [|r df Hr _ IH]; cbn; [reflexivity|].
      now rewrite Hr, IH.
    + intros E. now apply app_eq_nil in E as [_ E].
    + intros _ _. destruct df; [contradiction | cbn; lia].
Qed.

Lemma report_spec (dfs : list (list Reading)) (log log' : list Event)
  (out : Outcome (option Report)) :
  report argsort_f dfs log = (out, log') ->
  (dfs = [] /\ out = Ok None /\ log' = log ++ [Info])
  \/ (dfs <> [] /\ log' = log
      /\ (out = Raised
          \/ exists rep, out = Ok (Some rep)
                         /\ combined_df rep = economics (pd_concat dfs))).
Proof.
  unfold report. destruct dfs as [|d dfs].
  - cbv [bind emit ret]. intros H. injection H as <- <-. left. auto.
  - intros H. right. split; [discriminate|].
    destruct (fuel_summary _) as [|kv fuel];
      [cbv [raise] in H; injection H as <- <-; auto|].
    destruct (cost_rows _ _ _) as [[[chart ms]|]|];
      [|cbv [raise] in H; injection H as <- <-; auto
       |cbv [raise] in H; injection H as <- <-; auto].
    cbv [ret] in H. injection H as <- <-. split; [reflexivity|]. right.
    eexists. split; reflexivity.
Qed.

Lemma economics_src (df : list Reading) : map src (economics df) = map source df.
Proof.
  rewrite economics_map, map_map. apply map_ext. intros r. reflexivity.
Qed.

(** Property X3.  The rows of [combined_df] come in the order of the three
    upload blocks, whatever their timestamps: the rows of the Utility file
    first, then those of Gen1, then those of Gen2, each tagged with the name
    of its block; and a report is only made of at least one row. *)
Theorem combined_rows_in_upload_order (u g1 g2 : option CsvFrame)
  (log log' : list Event) (rep : Report) :
  main to_datetime argsort argsort_f u g1 g2 log = (Ok (Some rep), log') ->
  exists a b c,
    map src (combined_df rep)
    = repeat "Utility"%string a ++ repeat "Gen1"%string b ++ repeat "Gen2"%string c
    /\ 0 < a + b + c.
Proof.
  unfold main, after_utility, after_gen1. rewrite !bind_run.
  destruct (load to_datetime argsort u "Utility" [] log) as [[d1|] l1] eqn:E1;
    [|discriminate].
  rewrite bind_run.
  destruct (load to_datetime argsort g1 "Gen1" d1 l1) as [[d2|] l2] eqn:E2;
    [|discriminate].
  rewrite bind_run.
  destruct (load to_datetime argsort g2 "Gen2" d2 l2) as [[d3|] l3] eqn:E3;
    [|discriminate].
  intros H.
  apply load_sources in E1 as (a & Ha & Ha1 & Ha2).
  apply load_sources in E2 as (b & Hb & Hb1 & Hb2).
  apply load_sources in E3 as (c & Hc & Hc1 & Hc2).
  apply report_spec in H as [(_ & H & _)|(Hne & _ & [H|(rep' & H & Hrep)])];
    try discriminate.
  injection H as <-. exists a, b, c.
  rewrite Hrep, economics_src, Hc, Hb, Ha. cbn [pd_concat List.concat map app].
  rewrite <- app_assoc. split; [reflexivity|].
  destruct d2 as [|x d2].
  - specialize (Hc2 Hne eq_refl). lia.
  - destruct d1 as [|y d1].
    + assert (0 < b) by (apply Hb2; [discriminate | reflexivity]). lia.
    + assert (0 < a) by (apply Ha2; [discriminate | reflexivity]). lia.
Qed.

(** Property X4.  The prompt to upload a file is shown exactly when the run
    ends without a report (and without an exception), that is when no frame
    was loaded; such a run has shown no success message, and a run that ends
    with a report has shown one for at least one source. [log] is what the
    page showed before, neither a prompt nor a success message. *)
Theorem info_exactly_without_data (u g1 g2 : option CsvFrame)
  (log log' : list Event) (out : Outcome (option Report)) :
  main to_datetime argsort argsort_f u g1 g2 log = (out, log') ->
  ~ In Info log -> (forall n, ~ In (Success n) log) ->
  (In Info log' <-> out = Ok None)
  /\ ((exists rep, out = Ok (Some rep)) -> exists n, In (Success n) log')
  /\ (out = Ok None -> forall n, ~ In (Success n) log').
Proof.
  unfold main, after_utility, after_gen1. rewrite !bind_run.
  intros H NI NS.
  set (inv := fun (d : list (list Reading)) (l : list Event) =>
                ~ In Info l /\ (d = [] -> forall n, ~ In (Success n) l)
                /\ (d <> [] -> exists n, In (Success n) l)).
  assert (Hstep : forall file name d l o l',
             inv d l -> load to_datetime argsort file name d l = (o, l') ->
             match o with
             | Ok d' => inv d' l'
             | Raised => ~ In Info l'
             end).
  { intros file name d l o l' (I1 & I2 & I3) E.
    apply load_spec in E as [[-> ->]|[[-> E]|(df & Hne & _ & -> & ->)]].
    - exact I1.
    - destruct E as [->| ->]; [now repeat split|].
      repeat split.
      + rewrite in_app_iff. intros [A|[A|[]]]; [auto | discriminate].
      + intros Hd n. rewrite in_app_iff. intros [A|[A|[]]];
          [exact (I2 Hd n A) | discriminate].
      + intros Hd. destruct (I3 Hd) as [n Hn]. exists n.
        apply in_app_iff. now left.
    - repeat split.
      + rewrite in_app_iff. intros [A|[A|[]]]; [auto | discriminate].
      + intros Hd. now apply app_eq_nil in Hd as [_ Hd].
      + intros _. exists name. apply in_app_iff. right. now left. }
  assert (I0 : inv [] log).
  { repeat split; [exact NI | intros _; exact NS | intros A; contradiction]. }
  assert (Hraised : forall l, ~ In Info l -> out = Raised -> log' = l ->
            (In Info log' <-> out = Ok None)
            /\ ((exists rep, out = Ok (Some rep)) -> exists n, In (Success n) log')
            /\ (out = Ok None -> forall n, ~ In (Success n) log')).
  { intros l Hl -> ->. repeat split; try discriminate; try contradiction.
    intros [rep A]. discriminate. }
  destruct (load to_datetime argsort u "Utility" [] log) as [[d1|] l1] eqn:E1.
  2:{ injection H as <- <-. apply (Hraised l1); auto.
      exact (Hstep _ _ _ _ _ _ I0 E1). }
  pose proof (Hstep _ _ _ _ _ _ I0 E1) as I1. cbv beta iota in I1.
  rewrite bind_run in H.
  destruct (load to_datetime argsort g1 "Gen1" d1 l1) as [[d2|] l2] eqn:E2.
  2:{ injection H as <- <-. apply (Hraised l2); auto.
      exact (Hstep _ _ _ _ _ _ I1 E2). }
  pose proof (Hstep _ _ _ _ _ _ I1 E2) as I2. cbv beta iota in I2.
  rewrite bind_run in H.
  destruct (load to_datetime argsort g2 "Gen2" d2 l2) as [[d3|] l3] eqn:E3.
  2:{ injection H as <- <-. apply (Hraised l3); auto.
      exact (Hstep _ _ _ _ _ _ I2 E3). }
  pose proof (Hstep _ _ _ _ _ _ I2 E3) as (J1 & J2 & J3).
  apply report_spec in H as [(Hd & -> & ->)|(Hne & -> & [->|(rep & -> & _)])].
  - repeat split; try reflexivity.
    + intros _. apply in_app_iff. right. now left.
    + intros [rep A]. discriminate.
    + intros _ n. rewrite in_app_iff. intros [A|[A|[]]];
        [exact (J2 Hd n A) | discriminate].
  - apply (Hraised l3); auto.
  - repeat split.
    + intros A. contradiction.
    + discriminate.
    + intros _. exact (J3 Hne).
    + discriminate.
Qed.

End Loading.

Lemma two_files_run_eq :
  main iso_to_datetime stable_argsort stable_argsort_f
    (Some meter_csv) (Some even_csv) None []
  = (Ok (Some two_files_report), [Success "Utility"; Success "Gen1"]).
Proof. vm_compute. reflexivity. Qed.

Lemma combined_rows_witness :
  exists a b c,
    map src (combined_df two_files_report)
    = repeat "Utility"%string a ++ repeat "Gen1"%string b ++ repeat "Gen2"%string c
    /\ 0 < a + b + c.
Proof.
  exact (combined_rows_in_upload_order iso_to_datetime stable_argsort stable_argsort_f
           (Some meter_csv) (Some even_csv) None [] _ two_files_report
           two_files_run_eq).
Defined.

Lemma info_witness :
  main iso_to_datetime stable_argsort stable_argsort_f (Some no_kw_csv) None None []
  = (Ok None, [Warning "Utility"; Info])
  /\ (In Info [Warning "Utility"; Info] <-> @Ok (option Report) None = Ok None)
  /\ ((exists rep, @Ok (option Report) None = Ok (Some rep)) ->
      exists n, In (Success n) [Warning "Utility"; Info])
  /\ (@Ok (option Report) None = Ok None ->
      forall n, ~ In (Success n) [Warning "Utility"; Info]).
Proof.
  assert (H : main iso_to_datetime stable_argsort stable_argsort_f
                (Some no_kw_csv) None None []
              = (Ok None, [Warning "Utility"; Info])) by (vm_compute; reflexivity).
  split; [exact H|].
  apply (info_exactly_without_data iso_to_datetime stable_argsort stable_argsort_f
           (Some no_kw_csv) None None [] _ _ H).
  - intros A. exact A.
  - intros n A. exact A.
Defined.

(** ** The summary tables *)

Lemma groupby_sum_keys (col : EconRow -> float) (df : list EconRow) :
  map fst (groupby_sum col df) = group_keys (map src df).
Proof. unfold groupby_sum. rewrite map_map. cbn [fst]. apply map_id. Qed.

Lemma percent_of_total_rows (rows : list (string * float)) :
  map (fun r => (s_source r, s_value r)) (percent_of_total rows) = rows.
Proof.
  unfold percent_of_total. rewrite map_map. cbn [s_source s_value].
  rewrite <- (map_id rows) at 2. apply map_ext. now intros [k v].
Qed.

Lemma summary_rows (df : list EconRow) :
  map (fun r => (s_source r, s_value r)) (summary df)
  = map (fun k => (k, Np.around 2
                        (Series.group_sum
                           (map (fun r => KWh (reading r))
                              (filter (fun r => String.eqb (src r) k) df)))))
        (group_keys (map src df)).
Proof.
  unfold summary. rewrite percent_of_total_rows. unfold groupby_sum.
  rewrite map_map. reflexivity.
Qed.

(** Property X5.  The energy summary has one row for each source that has rows
    in [combined_df] and no other row; the rows are in ascending order of the
    source name (hence no source twice), and the value of a row is the sum of
    the [KWh] of the rows of that source, in row order, rounded to 2 decimals. *)
Theorem summary_one_row_per_source (df : list EconRow) :
  StronglySorted slt (map s_source (summary df))
  /\ (forall s, In s (map s_source (summary df)) <-> exists r, In r df /\ src r = s)
  /\ forall row, In row (summary df) ->
       s_value row
       = Np.around 2
           (Series.group_sum
              (map (fun r => KWh (reading r))
                 (filter (fun r => String.eqb (src r) (s_source row)) df))).
Proof.
  pose proof (summary_rows df) as R.
  assert (K : map s_source (summary df) = group_keys (map src df)).
  { apply (f_equal (map fst)) in R. rewrite !map_map in R. cbn [fst] in R.
    rewrite map_id in R. exact R. }
  destruct (group_keys_spec (map src df)) as [S I].
  rewrite K. split; [exact S|]. split.
  - intros s. rewrite I, in_map_iff. split; intros (r & A & B); eauto.
  - intros row Hrow.
    apply (in_map (fun r => (s_source r, s_value r))) in Hrow.
    rewrite R in Hrow. apply in_map_iff in Hrow as (k & E & _).
    injection E as <- <-. reflexivity.
Qed.

Lemma summary_witness :
  map (fun r => (s_source r, s_value r)) (summary (combined_df two_files_report))
  = [("Gen1"%string, 7.5%float); ("Utility"%string, 10%float)]
  /\ StronglySorted slt (map s_source (summary (combined_df two_files_report)))
  /\ (forall s, In s (map s_source (summary (combined_df two_files_report)))
                <-> exists r, In r (combined_df two_files_report) /\ src r = s)
  /\ forall row, In row (summary (combined_df two_files_report)) ->
       s_value row
       = Np.around 2
           (Series.group_sum
              (map (fun r => KWh (reading r))
                 (filter (fun r => String.eqb (src r) (s_source row))
                    (combined_df two_files_report)))).
Proof.
  split; [vm_compute; reflexivity|].
  exact (summary_one_row_per_source (combined_df two_files_report)).
Defined.

(** Property X6.  The fuel summary has a row for Gen1 and a row for Gen2 when,
    and only when, [combined_df] has rows of that source, Gen1 first; the
    Utility never has one. With the Utility file alone the table is empty. *)
Theorem fuel_summary_generators_only (df : list EconRow) :
  (forall s, In s (map fst (fuel_summary df))
             <-> (s = "Gen1"%string \/ s = "Gen2"%string)
                 /\ exists r, In r df /\ src r = s)
  /\ StronglySorted slt (map fst (fuel_summary df))
  /\ ((forall r, In r df -> src r = "Utility"%string) -> fuel_summary df = []).
Proof.
  unfold fuel_summary. rewrite map_map. cbn [fst].
  set (gens := filter (fun r => existsb (String.eqb (src r)) gen_sources) df).
  fold (map (@fst string float) (groupby_sum expected_fuel_liters gens)).
  change (map (fun x : string * float => fst x)
            (groupby_sum expected_fuel_liters gens))
    with (map fst (groupby_sum expected_fuel_liters gens)).
  rewrite groupby_sum_keys.
  destruct (group_keys_spec (map src gens)) as [S I].
  assert (G : forall r, In r gens
                        <-> In r df /\ (src r = "Gen1"%string \/ src r = "Gen2"%string)).
  { intros r. unfold gens. rewrite filter_In. unfold gen_sources. cbn [existsb].
    rewrite orb_false_r, orb_true_iff, !String.eqb_eq. reflexivity. }
  split; [|split].
  - intros s. rewrite I, in_map_iff. split.
    + intros (r & <- & Hr). apply G in Hr as [Hr Hs]. eauto.
    + intros (Hs & r & Hr & <-). exists r. split; [reflexivity|]. now apply G.
  - exact S.
  - intros H. assert (E : gens = []).
    { destruct gens as [|r l]; [reflexivity|]. exfalso.
      destruct (proj1 (G r) (or_introl eq_refl)) as [Hr Hs].
      rewrite (H r Hr) in Hs. destruct Hs; discriminate. }
    rewrite E. reflexivity.
Qed.

Lemma fuel_summary_witness :
  fuel_summary (combined_df two_files_report) = [("Gen1"%string, 2.28%float)]
  /\ fuel_summary (economics meter_rows) = []
  /\ (forall s, In s (map fst (fuel_summary (economics meter_rows)))
                <-> (s = "Gen1"%string \/ s = "Gen2"%string)
                    /\ exists r, In r (economics meter_rows) /\ src r = s)
  /\ StronglySorted slt (map fst (fuel_summary (economics meter_rows)))
  /\ ((forall r, In r (economics meter_rows) -> src r = "Utility"%string) ->
      fuel_summary (economics meter_rows) = []).
Proof.
  split; [vm_compute; reflexivity|]. split; [vm_compute; reflexivity|].
  exact (fuel_summary_generators_only (economics meter_rows)).
Defined.

(** *** The cost summary, sorted by cost *)

Lemma take_rev {A} (l : list A) (idx : list nat) :
  take l (rev idx) = rev (take l idx).
Proof.
  induction idx as [|i idx IH]; [reflexivity|].
  cbn [rev]. rewrite take_app, IH, (take_cons l i idx), rev_app_distr.
  f_equal. cbn [take flat_map]. rewrite app_nil_r.
  now destruct (nth_error l i).
Qed.

Lemma sorted_snoc {A} (R : A -> A -> Prop) (a : A) (l : list A) :
  Sorted R l -> (forall x, In x (firstn 1 (rev l)) -> R x a) ->
  Sorted R (l ++ [a]).
Proof.
  induction 1 as [|h t Hs IH Hh]; intros Hlast; cbn [app].
  - repeat constructor.
  - constructor.
    + apply IH. intros x Hx. apply Hlast. cbn [rev].
      destruct (rev t) as [|y r] eqn:E; [contradiction|]. exact Hx.
    + destruct t as [|y t]; cbn [app]; constructor.
      * apply Hlast. now left.
      * now inversion Hh.
Qed.

Lemma sorted_rev {A} (R : A -> A -> Prop) (l : list A) :
  Sorted R l -> Sorted (fun a b => R b a) (rev l).
Proof.
  induction 1 as [|h t Hs IH Hh]; cbn [rev]; [constructor|].
  apply sorted_snoc; [exact IH|].
  rewrite rev_involutive. intros x Hx.
  destruct t as [|y t]; [contradiction|]. destruct Hx as [<-|[]].
  now inversion Hh.
Qed.

Lemma filter_map_snd {A} (p : float -> bool) (l : list (A * float)) :
  filter p (map snd l) = map snd (filter (fun kv => p (snd kv)) l).
Proof.
  induction l as [|[k v] l IH]; [reflexivity|]. cbn.
  destruct (p v); cbn; now rewrite IH.
Qed.

Section CostSummary.

Variable argsort_f : list float -> list nat.
Hypothesis argsort_f_sorts : sorts_f argsort_f.

Lemma nargsort_desc_split {A} (G : list (A * float)) :
  exists ranked,
    take G (nargsort_desc argsort_f (map snd G))
    = ranked ++ filter (fun kv => Np.isnan (snd kv)) G
    /\ Permutation ranked (filter (fun kv => negb (Np.isnan (snd kv))) G)
    /\ Sorted fge (map snd ranked).
Proof.
  unfold nargsort_desc. rewrite take_app, take_rev.
  rewrite (take_positions snd Np.isnan G).
  set (N := filter (fun kv => negb (Np.isnan (snd kv))) G).
  rewrite take_take.
  2:{ apply Forall_forall. intros i Hi. apply in_rev in Hi.
      pose proof (positions_in_range (fun k => negb (Np.isnan k)) (map snd G)) as P.
      rewrite Forall_forall in P. specialize (P i Hi).
      now rewrite length_map in P. }
  rewrite take_rev, (take_positions snd (fun k => negb (Np.isnan k)) G).
  fold N. rewrite filter_map_snd. fold N. rewrite <- map_rev.
  assert (Hnum : all_numbers (map snd (rev N))).
  { apply Forall_forall. intros x Hx. apply in_map_iff in Hx as (kv & <- & Hkv).
    apply in_rev in Hkv. unfold N in Hkv. apply filter_In in Hkv as [_ Hkv].
    now apply negb_true_iff in Hkv. }
  destruct (argsort_f_sorts _ Hnum) as [P S].
  set (sigma := argsort_f (map snd (rev N))) in *.
  exists (rev (take (rev N) sigma)). split; [reflexivity|]. split.
  - rewrite <- Permutation_rev.
    rewrite (take_perm (rev N) _ _ P), length_map, take_all.
    symmetry. apply Permutation_rev.
  - rewrite map_rev, map_take. apply (sorted_rev fle). exact S.
Qed.

(** Property X7.  For an [argsort_f] that meets numpy's contract, the cost
    summary holds the per-source totals of [cost_ngn], each source of
    [combined_df] once, ranked from the highest total to the lowest; a total
    that is not a number (NaN) is not ranked and comes last. *)
Theorem cost_summary_ranked (df : list EconRow) :
  exists ranked,
    map (fun r => (s_source r, s_value r)) (cost_summary argsort_f df)
    = ranked ++ filter (fun kv => Np.isnan (snd kv)) (groupby_sum cost_ngn df)
    /\ Permutation ranked
         (filter (fun kv => negb (Np.isnan (snd kv))) (groupby_sum cost_ngn df))
    /\ Sorted fge (map snd ranked)
    /\ Permutation (map s_source (cost_summary argsort_f df))
         (group_keys (map src df)).
Proof.
  unfold cost_summary. rewrite percent_of_total_rows.
  destruct (nargsort_desc_split (groupby_sum cost_ngn df)) as (ranked & E & P & S).
  exists ranked. split; [exact E|]. split; [exact P|]. split; [exact S|].
  rewrite <- (groupby_sum_keys cost_ngn df).
  transitivity (map fst (map (fun r => (s_source r, s_value r))
                           (percent_of_total
                              (take (groupby_sum cost_ngn df)
                                 (nargsort_desc argsort_f
                                    (map snd (groupby_sum cost_ngn df))))))).
  { rewrite map_map. reflexivity. }
  rewrite percent_of_total_rows, E. apply Permutation_map.
  rewrite P. clear.
  induction (groupby_sum cost_ngn df) as [|kv l IH]; [constructor|].
  cbn [filter]. destruct (Np.isnan (snd kv)); cbn [negb].
  - symmetry. apply Permutation_cons_app. symmetry. exact IH.
  - cbn [app]. now constructor.
Qed.

End CostSummary.

(** *** An [argsort] for float64 keys that meets the contract *)

Section ArgsortFloat.

Variable keys : list float.
Hypothesis keys_numbers : all_numbers keys.

Let k (i : nat) : float := nth i keys 0%float.

Lemma key_number (i : nat) : is_nan (k i) = false.
Proof.
  unfold k. destruct (nth_in_or_default i keys 0%float) as [H| ->]; [|reflexivity].
  unfold all_numbers in keys_numbers. rewrite Forall_forall in keys_numbers.
  now apply keys_numbers.
Qed.

Lemma leb_total (i j : nat) : (k i <=? k j)%float = false -> fle (k j) (k i).
Proof.
  unfold fle. rewrite !leb_cmp by apply key_number.
  rewrite (cmp_antisym (k i) (k j)). now destruct (fcmp (k i) (k j)).
Qed.

Lemma insert_pos_f_perm (i : nat) (l : list nat) :
  Permutation (insert_pos PrimFloat.leb 0%float keys i l) (i :: l).
Proof.
  induction l as [|h t IH]; cbn; [reflexivity|].
  destruct (_ <=? _)%float; [reflexivity|].
  rewrite IH. apply perm_swap.
Qed.

Lemma insert_pos_f_hd (a : float) (i : nat) (l : list nat) :
  HdRel fle a (map k l) -> fle a (k i) ->
  HdRel fle a (map k (insert_pos PrimFloat.leb 0%float keys i l)).
Proof.
  destruct l as [|h t]; cbn; intros H Hi.
  - now constructor.
  - fold (k i) (k h). destruct (k i <=? k h)%float; cbn; constructor;
      [assumption | now inversion H].
Qed.

Lemma insert_pos_f_sorted (i : nat) (l : list nat) :
  Sorted fle (map k l) ->
  Sorted fle (map k (insert_pos PrimFloat.leb 0%float keys i l)).
Proof.
  induction l as [|h t IH]; cbn; intros H.
  - repeat constructor.
  - fold (k i) (k h). destruct (k i <=? k h)%float eqn:E; cbn.
    + constructor; [exact H|]. constructor. exact E.
    + inversion H as [|? ? Hs Hh]; subst. constructor; [now apply IH|].
      apply insert_pos_f_hd; [exact Hh | now apply leb_total].
Qed.

Lemma stable_argsort_f_perm :
  Permutation (stable_argsort_f keys) (seq 0 (List.length keys)).
Proof.
  unfold stable_argsort_f, argsort_by.
  induction (seq 0 (List.length keys)) as [|i l IH]; cbn; [reflexivity|].
  rewrite insert_pos_f_perm. now constructor.
Qed.

Lemma stable_argsort_f_sorted : Sorted fle (map k (stable_argsort_f keys)).
Proof.
  unfold stable_argsort_f, argsort_by.
  induction (seq 0 (List.length keys)) as [|i l IH]; cbn.
  - constructor.
  - now apply insert_pos_f_sorted.
Qed.

End ArgsortFloat.

Lemma stable_argsort_f_sorts : sorts_f stable_argsort_f.
Proof.
  intros keys Hk. split; [apply stable_argsort_f_perm|].
  rewrite (take_map_nth 0%float).
  - now apply stable_argsort_f_sorted.
  - apply Forall_forall. intros i Hi.
    apply (Permutation_in _ (stable_argsort_f_perm keys)) in Hi.
    apply in_seq in Hi. lia.
Qed.

Lemma cost_summary_witness :
  sorts_f stable_argsort_f
  /\ map (fun r => (s_source r, s_value r))
       (cost_summary stable_argsort_f (combined_df two_files_report))
     = [("Gen1"%string, 2280%float); ("Utility"%string, 2095%float)]
  /\ exists ranked,
       map (fun r => (s_source r, s_value r))
         (cost_summary stable_argsort_f (combined_df two_files_report))
       = ranked ++ filter (fun kv => Np.isnan (snd kv))
                     (groupby_sum cost_ngn (combined_df two_files_report))
       /\ Permutation ranked
            (filter (fun kv => negb (Np.isnan (snd kv)))
               (groupby_sum cost_ngn (combined_df two_files_report)))
       /\ Sorted fge (map snd ranked)
       /\ Permutation
            (map s_source (cost_summary stable_argsort_f (combined_df two_files_report)))
            (group_keys (map src (combined_df two_files_report))).
Proof.
  split; [exact stable_argsort_f_sorts|]. split; [vm_compute; reflexivity|].
  exact (cost_summary_ranked stable_argsort_f stable_argsort_f_sorts
           (combined_df two_files_report)).
Defined.

(** ** The buckets of the chart *)

Lemma bucket_sums_block (rows : list (string * option Z * float))
  (chart : list Bucket) (s : string) :
  bucket_sums rows = Some chart ->
  In s (map (fun r => fst (fst r)) rows) ->
  exists buckets,
    resample_sum bucket_width (series_of rows s) = Some buckets
    /\ filter (of_source s) chart = map (fun b => mkBucket s (fst b) (snd b)) buckets.
Proof.
  unfold bucket_sums.
  set (G := fun k : string =>
              match resample_sum bucket_width
                      (map (fun r : string * option Z * float => (snd (fst r), snd r))
                         (filter (fun r : string * option Z * float =>
                                    String.eqb (fst (fst r)) k) rows)) with
              | Some buckets => Some (map (fun b => mkBucket k (fst b) (snd b)) buckets)
              | None => None
              end).
  intros H Hs.
  assert (GS : forall k block b, G k = Some block -> In b block -> b_source b = k).
  { intros k block b Hk Hb. unfold G in Hk.
    destruct (resample_sum _ _); [|discriminate]. injection Hk as <-.
    apply in_map_iff in Hb as (x & <- & _). reflexivity. }
  apply (proj2 (group_keys_spec _)) in Hs.
  pose proof (filter_blocks_present G GS s _ chart
                (proj1 (group_keys_spec _)) H Hs) as E.
  unfold G in E at 1. fold (series_of rows s) in E.
  destruct (resample_sum bucket_width (series_of rows s)) as [buckets|];
    [|discriminate].
  injection E as E. exists buckets. split; [reflexivity | now symmetry].
Qed.

Lemma bucket_sums_sources (rows : list (string * option Z * float))
  (chart : list Bucket) (b : Bucket) :
  bucket_sums rows = Some chart -> In b chart ->
  In (b_source b) (map (fun r => fst (fst r)) rows).
Proof.
  unfold bucket_sums. intros H Hb.
  apply (proj1 (proj2 (group_keys_spec _) (b_source b))).
  revert chart H Hb.
  induction (group_keys (map (fun r : string * option Z * float => fst (fst r)) rows))
    as [|k keys IH]; cbn [map sequence]; intros chart H Hb.
  - injection H as <-. contradiction.
  - destruct (resample_sum _ _) as [buckets|]; [|discriminate].
    destruct (sequence _) as [rest|] eqn:E; [|discriminate].
    injection H as <-. apply in_app_iff in Hb as [Hb|Hb].
    + apply in_map_iff in Hb as (x & <- & _). now left.
    + right. now apply (IH rest).
Qed.

Lemma mergesort_in (x : Z * float) (l : list (Z * float)) :
  In x (mergesort l) <-> In x l.
Proof.
  unfold mergesort. induction l as [|y l IH]; cbn [fold_right]; [reflexivity|].
  assert (H : forall m, In x (insert_sorted y m) <-> y = x \/ In x m).
  { induction m as [|h t IHm]; cbn; [intuition|].
    destruct (fst y <=? fst h)%Z; cbn; intuition. }
  rewrite H, IH. reflexivity.
Qed.

Lemma stamps_in (series : list (option Z * float)) (t : Z) (v : float) :
  In (t, v) (stamps series) <-> In (Some t, v) series.
Proof.
  unfold stamps. rewrite in_flat_map. split.
  - intros ([[t'|] v'] & Hin & H); cbn in H; [|contradiction].
    destruct H as [H|[]]. now injection H as <- <-.
  - intros H. exists (Some t, v). split; [exact H | now left].
Qed.

Lemma sorted_le_last (d : Z * float) (l : list (Z * float)) :
  StronglySorted by_time l -> forall x, In x l -> (fst x <= fst (List.last l d))%Z.
Proof.
  induction 1 as [|h t Hs IH Hh]; intros x Hx; [contradiction|].
  destruct t as [|y t].
  - destruct Hx as [<-|[]]. cbn. lia.
  - change (List.last (h :: y :: t) d) with (List.last (y :: t) d).
    destruct Hx as [<-|Hx]; [|now apply IH].
    rewrite Forall_forall in Hh.
    transitivity (fst y); [apply Hh; now left | apply IH; now left].
Qed.

Lemma floor_to_bounds (w t : Z) :
  (0 < w)%Z -> (floor_to w t <= t < floor_to w t + w)%Z.
Proof. intros Hw. unfold floor_to. pose proof (Z.mod_pos_bound t w Hw). lia. Qed.

(** The bins of [resample]: what they are, and what they hold. *)
Lemma resample_sum_bins (w : Z) (series : list (option Z * float))
  (buckets : list (Z * float)) :
  (0 < w)%Z -> resample_sum w series = Some buckets ->
  (forall t v, In (Some t, v) series -> exists x, In (floor_to w t, x) buckets)
  /\ (forall start x, In (start, x) buckets ->
        (forall t v, In (Some t, v) series -> floor_to w t <> start) ->
        x = 0%float).
Proof.
  unfold resample_sum. fold (stamps series). intros Hw H.
  pose proof (mergesort_sorted (stamps series)) as Hs.
  pose proof (fun x => mergesort_in x (stamps series)) as Hin.
  destruct (mergesort (stamps series)) as [|[t0 v0] rows] eqn:E; [discriminate|].
  injection H as <-.
  set (first := floor_to w t0).
  set (last := floor_to w (fst (List.last ((t0, v0) :: rows) (t0, 0%float)))).
  split.
  - intros t v Htv. apply stamps_in, Hin in Htv.
    assert (H0 : (t0 <= t)%Z).
    { apply StronglySorted_inv in Hs as [_ Hs]. rewrite Forall_forall in Hs.
      destruct Htv as [Htv|Htv]; [injection Htv as -> _; lia|].
      exact (Hs (t, v) Htv). }
    pose proof (sorted_le_last (t0, 0%float) _ Hs (t, v) Htv) as H1.
    cbn [fst] in H1.
    pose proof (floor_to_le w t0 t Hw H0) as F0.
    pose proof (floor_to_le w t _ Hw H1) as F1. fold first in F0. fold last in F1.
    pose proof (floor_to_mod w t0 Hw) as M0. fold first in M0.
    pose proof (floor_to_mod w t Hw) as Mt.
    assert (D : exists q, (floor_to w t - first = q * w /\ 0 <= q)%Z).
    { exists ((floor_to w t - first) / w)%Z. split.
      - rewrite Z.mul_comm. apply Z_div_exact_full_2; [lia|].
        rewrite Zminus_mod, Mt, M0. reflexivity.
      - apply Z.div_pos; lia. }
    destruct D as (q & Dq & Hq).
    eexists. apply in_map_iff. exists (Z.to_nat q). split.
    + f_equal. rewrite Z2Nat.id by lia. lia.
    + apply in_seq. split; [lia|].
      change (Z.to_nat q < 0 + Z.to_nat ((last - first) / w + 1)).
      assert (q <= (last - first) / w)%Z.
      { replace q with ((floor_to w t - first) / w)%Z
          by (rewrite Dq; apply Z.div_mul; lia).
        apply Z.div_le_mono; lia. }
      lia.
  - intros start x Hx Hnone. apply in_map_iff in Hx as (k & Hk & _).
    injection Hk as Hstart <-. rewrite Hstart.
    assert (F : filter (fun tv : Z * float => (floor_to w (fst tv) =? start)%Z)
                  ((t0, v0) :: rows) = []).
    { rewrite (filter_ext_in _ (fun _ => false) ((t0, v0) :: rows));
        [apply filter_false|].
      intros [t v] Htv. apply Z.eqb_neq. cbn [fst].
      apply Hin, stamps_in in Htv. exact (Hnone t v Htv). }
    transitivity
      (Series.group_sum
         (map snd (filter (fun tv : Z * float => (floor_to w (fst tv) =? start)%Z)
                     ((t0, v0) :: rows)))); [reflexivity|].
    rewrite F. reflexivity.
Qed.

Lemma series_of_in (rows : list (string * option Z * float)) (s : string)
  (t : option Z) (v : float) :
  In (t, v) (series_of rows s) <-> In (s, t, v) rows.
Proof.
  unfold series_of. rewrite in_map_iff. split.
  - intros ([[s' t'] v'] & E & H). cbn in E. injection E as -> ->.
    apply filter_In in H as [H Hs]. cbn in Hs. apply String.eqb_eq in Hs.
    now subst s'.
  - intros H. exists (s, t, v). split; [reflexivity|].
    apply filter_In. split; [exact H | apply String.eqb_refl].
Qed.

Lemma chart_rows_in (df : list EconRow) (s : string) (t : option Z) (v : float) :
  In (s, t, v) (chart_rows df)
  <-> exists r, In r df /\ src r = s /\ post_datetime (reading r) = t
                /\ KWh (reading r) = v.
Proof.
  unfold chart_rows. rewrite in_map_iff. split.
  - intros (r & E & H). injection E as <- <- <-. eauto.
  - intros (r & H & <- & <- & <-). eauto.
Qed.

Lemma bucket_width_pos : (0 < bucket_width)%Z.
Proof. reflexivity. Qed.

(** Property X8.  In the chart data the buckets of one source are consecutive
    5-minute bins: the first starts at a multiple of 5 minutes, each next one
    starts 5 minutes later, with no gap and none twice, whatever gaps the
    readings have. *)
Theorem chart_buckets_consecutive (df : list EconRow) (chart : list Bucket)
  (r : EconRow) :
  chart_data df = Some chart -> In r df ->
  exists first n,
    (first mod bucket_width = 0)%Z /\ 1 <= n
    /\ map bucket_start (filter (of_source (src r)) chart)
       = map (fun k => (first + Z.of_nat k * bucket_width)%Z) (seq 0 n).
Proof.
  unfold chart_data. fold (chart_rows df). intros H Hr.
  destruct (bucket_sums_block _ chart (src r) H) as (buckets & Hres & Hblock).
  { unfold chart_rows. rewrite map_map. cbn [fst]. now apply in_map. }
  apply (resample_sum_regular _ _ _ bucket_width_pos) in Hres
    as (first & n & g & Hfirst & Hn & ->).
  exists first, n. split; [exact Hfirst|]. split; [exact Hn|].
  rewrite Hblock, !map_map. reflexivity.
Qed.

Lemma two_files_chart :
  chart_data (combined_df two_files_report) = Some (r_chart_data two_files_report).
Proof. vm_compute. reflexivity. Qed.

Lemma gen1_row_in : In gen1_row (combined_df two_files_report).
Proof. vm_compute. do 5 right. left. reflexivity. Qed.

Lemma chart_buckets_witness :
  map bucket_start (filter (of_source "Gen1") (r_chart_data two_files_report))
  = [1709287200000000000; 1709287500000000000;
     1709287800000000000; 1709288100000000000]%Z
  /\ exists first n,
       (first mod bucket_width = 0)%Z /\ 1 <= n
       /\ map bucket_start
            (filter (of_source (src gen1_row)) (r_chart_data two_files_report))
          = map (fun k => (first + Z.of_nat k * bucket_width)%Z) (seq 0 n).
Proof.
  split; [vm_compute; reflexivity|].
  exact (chart_buckets_consecutive (combined_df two_files_report)
           (r_chart_data two_files_report) gen1_row two_files_chart gen1_row_in).
Defined.

(** Property X9.  Every row of [combined_df] that has a timestamp is counted
    in the chart data: the bucket of its source that starts at its timestamp
    floored to 5 minutes is there, and the timestamp lies in it. *)
Theorem timed_row_has_its_bucket (df : list EconRow) (chart : list Bucket)
  (r : EconRow) (t : Z) :
  chart_data df = Some chart -> In r df -> post_datetime (reading r) = Some t ->
  exists b,
    In b chart /\ b_source b = src r
    /\ bucket_start b = floor_to bucket_width t
    /\ (bucket_start b <= t < bucket_start b + bucket_width)%Z.
Proof.
  unfold chart_data. fold (chart_rows df). intros H Hr Ht.
  destruct (bucket_sums_block _ chart (src r) H) as (buckets & Hres & Hblock).
  { unfold chart_rows. rewrite map_map. cbn [fst]. now apply in_map. }
  destruct (resample_sum_bins _ _ _ bucket_width_pos Hres) as [Hcov _].
  destruct (Hcov t (KWh (reading r))) as [x Hx].
  { apply series_of_in, chart_rows_in. exists r. auto. }
  exists (mkBucket (src r) (floor_to bucket_width t) x). cbn [b_source bucket_start].
  split.
  - assert (Hin : In (mkBucket (src r) (floor_to bucket_width t) x)
                    (filter (of_source (src r)) chart)).
    { rewrite Hblock. apply in_map_iff. exists (floor_to bucket_width t, x).
      split; [reflexivity | exact Hx]. }
    now apply filter_In in Hin.
  - split; [reflexivity|]. split; [reflexivity|].
    apply floor_to_bounds, bucket_width_pos.
Qed.

Lemma timed_row_witness :
  post_datetime (reading gen1_row) = Some 1709287320000000000%Z
  /\ exists b,
       In b (r_chart_data two_files_report) /\ b_source b = src gen1_row
       /\ bucket_start b = floor_to bucket_width 1709287320000000000
       /\ (bucket_start b <= 1709287320000000000 < bucket_start b + bucket_width)%Z.
Proof.
  assert (H : post_datetime (reading gen1_row) = Some 1709287320000000000%Z)
    by reflexivity.
  split; [exact H|].
  exact (timed_row_has_its_bucket (combined_df two_files_report)
           (r_chart_data two_files_report) gen1_row _ two_files_chart gen1_row_in H).
Defined.

(** Property X10.  A bucket of the chart data into which no row of its source
    falls (a gap between readings) has the sum 0; it is not left out and is
    not a missing value. *)
Theorem empty_bucket_sums_to_zero (df : list EconRow) (chart : list Bucket)
  (b : Bucket) :
  chart_data df = Some chart -> In b chart ->
  (forall r t, In r df -> src r = b_source b ->
               post_datetime (reading r) = Some t ->
               floor_to bucket_width t <> bucket_start b) ->
  bucket_kwh b = 0%float.
Proof.
  unfold chart_data. fold (chart_rows df). intros H Hb Hnone.
  pose proof (bucket_sums_sources _ _ _ H Hb) as Hs.
  destruct (bucket_sums_block _ chart (b_source b) H Hs) as (buckets & Hres & Hblock).
  destruct (resample_sum_bins _ _ _ bucket_width_pos Hres) as [_ Hempty].
  assert (Hin : In b (filter (of_source (b_source b)) chart)).
  { apply filter_In. split; [exact Hb | apply String.eqb_refl]. }
  rewrite Hblock in Hin. apply in_map_iff in Hin as ([start x] & E & Hx).
  cbn [fst snd] in E.
  assert (Eb : bucket_kwh b = x) by (now rewrite <- E).
  assert (Es : bucket_start b = start) by (now rewrite <- E).
  rewrite Eb. apply (Hempty start x Hx).
  intros t v Htv. apply series_of_in, chart_rows_in in Htv as (r & Hr & Hsr & Ht & _).
  rewrite <- Es. exact (Hnone r t Hr Hsr Ht).
Qed.

Lemma empty_bucket_witness :
  In gap_bucket (r_chart_data two_files_report)
  /\ bucket_kwh gap_bucket = 0%float.
Proof.
  assert (Hb : In gap_bucket (r_chart_data two_files_report)).
  { vm_compute. do 2 right. left. reflexivity. }
  split; [exact Hb|].
  apply (empty_bucket_sums_to_zero (combined_df two_files_report)
           (r_chart_data two_files_report) gap_bucket two_files_chart Hb).
  intros r t Hr Hs Ht E. vm_compute in Hr.
  repeat (destruct Hr as [<-|Hr];
          [first [discriminate Hs
                 | injection Ht as <-; vm_compute in E; discriminate E]|]).
  contradiction.
Defined.

(** ** One pair of markers for every source *)

Lemma unique_in (x : string) (l : list string) : In x (unique l) -> In x l.
Proof.
  induction l as [|y l IH]; cbn; [auto|].
  intros [H|H]; [now left|]. apply filter_In in H as [H _]. right. now apply IH.
Qed.

Lemma in_unique (x : string) (l : list string) : In x l -> In x (unique l).
Proof.
  induction l as [|y l IH]; [contradiction|]. intros Hx.
  cbn [unique]. destruct (String.eqb_spec y x) as [->|Hne]; [now left|].
  right. apply filter_In. destruct Hx as [E|Hx]; [contradiction|].
  split; [now apply IH|]. apply negb_true_iff, String.eqb_neq.
  intros ->. contradiction.
Qed.

Lemma unique_block (k : string) (n : nat) (rest : list string) :
  ~ In k rest ->
  unique (repeat k (S n) ++ rest) = k :: unique rest.
Proof.
  intros Hk.
  assert (F : forall m, filter (fun y => negb (String.eqb y k)) (unique (repeat k m ++ rest))
                        = unique rest).
  { induction m as [|m IH]; cbn [repeat app unique].
    - apply forallb_filter_id, forallb_forall. intros y Hy.
      apply negb_true_iff, String.eqb_neq. intros ->.
      apply Hk. now apply unique_in.
    - cbn [filter]. rewrite String.eqb_refl. cbn [negb].
      rewrite filter_idem. exact IH. }
  cbn [repeat app unique]. now rewrite F.
Qed.

Lemma marker_of_source (chart : list Bucket) (s : string) (m : Marker) :
  marker_of chart s = Some m -> m_source m = s.
Proof.
  unfold marker_of.
  destruct (idxmax _) as [i|]; [|discriminate].
  destruct (idxmin _) as [j|]; [|discriminate].
  destruct (nth_error _ i) as [hi|]; [|discriminate].
  destruct (nth_error _ j) as [lo|]; [|discriminate].
  now intros H; injection H as <-.
Qed.

Lemma sequence_sources (G : string -> option (list Bucket)) (keys : list string) :
  (forall k block, G k = Some block ->
     exists n, map b_source block = repeat k (S n)) ->
  NoDup keys ->
  forall chart, sequence (map G keys) = Some chart ->
  unique (map b_source chart) = keys.
Proof.
  intros HG. induction 1 as [|k keys Hk Hnd IH]; cbn [map sequence]; intros chart H.
  - now injection H as <-.
  - destruct (G k) as [block|] eqn:Ek; [|discriminate].
    destruct (sequence (map G keys)) as [rest|] eqn:Er; [|discriminate].
    injection H as <-. rewrite map_app.
    destruct (HG k block Ek) as [n ->].
    rewrite unique_block; [now rewrite (IH rest eq_refl)|].
    intros Hin. apply Hk. rewrite <- (IH rest eq_refl). now apply in_unique.
Qed.

Lemma sorted_keys_nodup (keys : list string) : StronglySorted slt keys -> NoDup keys.
Proof.
  induction 1 as [|k keys Hs IH Hk]; constructor; [|exact IH].
  intros Hin. rewrite Forall_forall in Hk. exact (slt_irrefl k (Hk k Hin)).
Qed.

Lemma map_const_repeat {A B} (b : B) (l : list A) :
  map (fun _ => b) l = repeat b (List.length l).
Proof. induction l as [|x l IH]; cbn; [reflexivity | now rewrite IH]. Qed.

Lemma bucket_sums_unique_sources (rows : list (string * option Z * float))
  (chart : list Bucket) :
  bucket_sums rows = Some chart ->
  unique (map b_source chart) = group_keys (map (fun r => fst (fst r)) rows).
Proof.
  unfold bucket_sums. intros H.
  refine (sequence_sources _ _ _ (sorted_keys_nodup _ (proj1 (group_keys_spec _)))
            chart H).
  intros k block Hk.
  destruct (resample_sum bucket_width _) as [buckets|] eqn:E; [|discriminate].
  injection Hk as <-.
  apply (resample_sum_regular _ _ _ bucket_width_pos) in E
    as (first & n & g & _ & Hn & ->).
  destruct n as [|n]; [lia|]. exists n. rewrite !map_map. cbn [b_source].
  now rewrite map_const_repeat, length_seq.
Qed.

Section AllMarkers.

Variable chart : list Bucket.
Hypothesis chart_numbers : forall b, In b chart -> Np.isnan (bucket_kwh b) = false.

Lemma markers_for_spec (rows : list (string * option Z * float)) :
  bucket_sums rows = Some chart ->
  forall sources,
    (forall s, In s sources -> In s (map (fun r => fst (fst r)) rows)) ->
    exists ms,
      markers_for chart sources = Some ms
      /\ map m_source ms = sources
      /\ forall m, In m ms ->
           (In (max_row m) chart /\ b_source (max_row m) = m_source m)
           /\ (In (min_row m) chart /\ b_source (min_row m) = m_source m).
Proof.
  intros H. induction sources as [|s sources IH]; intros Hs.
  - exists []. repeat split; contradiction.
  - destruct IH as (ms & Hms & Hsrc & Hall); [intros x Hx; apply Hs; now right|].
    destruct (bucket_sums_block rows chart s H (Hs s (or_introl eq_refl)))
      as (buckets & Hres & Hblock).
    assert (Hin : forall b, In b (filter (of_source s) chart)
                            <-> In b chart /\ b_source b = s).
    { intros b. rewrite filter_In. unfold of_source. now rewrite String.eqb_eq. }
    destruct (marker_of_spec chart s) as (m & Hm & Hhi & Hlo & _).
    + apply Forall_forall. intros x Hx.
      apply in_map_iff in Hx as (b & <- & Hb). apply Hin in Hb as [Hb _].
      now apply chart_numbers.
    + rewrite Hblock, map_map. cbn [bucket_start].
      apply (resample_sum_ascending bucket_width _ _ eq_refl Hres).
    + rewrite Hblock.
      apply (resample_sum_regular _ _ _ bucket_width_pos) in Hres
        as (first & n & g & _ & Hn & ->).
      destruct n as [|n]; [lia|]. cbn [seq map]. discriminate.
    + exists (m :: ms). cbn [markers_for map]. rewrite Hm, Hms.
      split; [reflexivity|]. split.
      * f_equal; [now apply (marker_of_source chart) | exact Hsrc].
      * intros m' [<-|Hm']; [|now apply Hall].
        rewrite (marker_of_source chart s m Hm).
        split; now apply Hin.
Qed.

End AllMarkers.

(** Property X11.  When the bucket sums of the chart data are numbers, the
    marker loop goes through: it makes one high and one low marker for every
    source of [combined_df], the sources in ascending order of name, and both
    markers of a source are buckets of that source. *)
Theorem markers_one_pair_per_source (df : list EconRow) (chart : list Bucket) :
  chart_data df = Some chart ->
  (forall b, In b chart -> Np.isnan (bucket_kwh b) = false) ->
  exists ms,
    markers chart = Some ms
    /\ map m_source ms = group_keys (map src df)
    /\ forall m, In m ms ->
         (In (max_row m) chart /\ b_source (max_row m) = m_source m)
         /\ (In (min_row m) chart /\ b_source (min_row m) = m_source m).
Proof.
  unfold chart_data. fold (chart_rows df). intros H Hnum. unfold markers.
  rewrite (bucket_sums_unique_sources _ _ H).
  assert (K : map (fun r : string * option Z * float => fst (fst r)) (chart_rows df)
              = map src df).
  { unfold chart_rows. rewrite map_map. reflexivity. }
  rewrite <- K.
  apply (markers_for_spec chart Hnum (chart_rows df) H).
  intros s Hs. now apply (proj2 (group_keys_spec _)).
Qed.

Lemma markers_witness :
  exists ms,
    markers (r_chart_data two_files_report) = Some ms
    /\ map m_source ms = group_keys (map src (combined_df two_files_report))
    /\ forall m, In m ms ->
         (In (max_row m) (r_chart_data two_files_report)
          /\ b_source (max_row m) = m_source m)
         /\ (In (min_row m) (r_chart_data two_files_report)
             /\ b_source (min_row m) = m_source m).
Proof.
  apply (markers_one_pair_per_source (combined_df two_files_report)
           (r_chart_data two_files_report) two_files_chart).
  intros b Hb. vm_compute in Hb.
  repeat (destruct Hb as [<-|Hb]; [reflexivity|]). contradiction.
Defined.

(** ** Files without rows, and columns beside the required ones *)

Lemma existsb_columns (f : CsvFrame) (col : string) :
  existsb (String.eqb col) (columns f) = negb (isna (getitem f col)).
Proof.
  unfold columns. induction f as [|[n x] f IH]; cbn [existsb map fst getitem];
    [reflexivity|].
  rewrite (String.eqb_sym col n). destruct (String.eqb n col); [reflexivity|].
  exact IH.
Qed.

Lemma has_required_getitem (f : CsvFrame) :
  has_required f = forallb (fun c => negb (isna (getitem f c))) required.
Proof.
  unfold has_required, required. cbn [forallb]. now rewrite !existsb_columns.
Qed.

Lemma take_nil {A} (idx : list nat) : take (@nil A) idx = [].
Proof.
  induction idx as [|i idx IH]; [reflexivity|].
  rewrite take_cons, IH. now destruct i.
Qed.

Lemma cells_of_nil (c : Column) :
  cells_of c = [] -> c = ObjectCol [] \/ c = FloatCol [].
Proof. destruct c as [[|x l]|[|x l]]; cbn; intros H; try discriminate; auto. Qed.

Section EmptyFiles.

Variable to_datetime : list (option string) -> list (option Z).
Variable argsort : list Z -> list nat.
Variable argsort_f : list float -> list nat.

Lemma process_source_no_rows (f : CsvFrame) (name : string) (log : list Event) :
  no_rows f = true ->
  process_source to_datetime argsort f name log = (Ok [], log).
Proof.
  unfold no_rows, required. cbn [forallb].
  destruct (getitem f "post_date") as [date|] eqn:E1; [|discriminate].
  destruct (getitem f "post_time") as [time|] eqn:E2;
    [|rewrite andb_false_r; discriminate].
  destruct (getitem f "total_kw") as [kw|] eqn:E3;
    [|rewrite !andb_false_r; discriminate].
  destruct (getitem f "kwh_import") as [imp|] eqn:E4;
    [|rewrite !andb_false_r; discriminate].
  intros H. apply andb_true_iff in H as [Hd H].
  apply andb_true_iff in H as [Ht H]. apply andb_true_iff in H as [Hk H].
  apply andb_true_iff in H as [Hi _].
  assert (R : has_required f = true).
  { rewrite has_required_getitem. unfold required. cbn [forallb].
    now rewrite E1, E2, E3, E4. }
  unfold process_source. rewrite R. cbn [negb]. unfold stamped.
  rewrite E1, E2, E3, E4.
  destruct (cells_of date) eqn:Cd; [|discriminate].
  destruct (cells_of time) eqn:Ct; [|discriminate].
  destruct (cells_of imp) eqn:Ci; [|discriminate].
  destruct (cells_of_nil date Cd) as [-> | ->];
    destruct (cells_of_nil time Ct) as [-> | ->];
    destruct (cells_of_nil imp Ci) as [-> | ->];
    cbn [as_text date_time diff_raises List.length Nat.leb andb existsb
         combine map cells_of stamp_rows];
    unfold sort_values; rewrite take_nil;
    reflexivity.
Qed.

Lemma load_no_rows (file : option CsvFrame) (name : string)
  (dfs : list (list Reading)) (log : list Event) :
  nothing_to_load file ->
  load to_datetime argsort file name dfs log = (Ok dfs, log).
Proof.
  destruct file as [f|]; cbn [nothing_to_load load]; [|reflexivity].
  intros H. rewrite bind_run, (process_source_no_rows f name log H). reflexivity.
Qed.

(** Property X12.  A file that has the required columns and no row gets no
    message, neither a warning nor a success, and adds nothing to the combined
    data; when no upload slot holds a file with rows, the page only shows the
    prompt to upload a file. *)
Theorem files_without_rows_show_the_prompt (u g1 g2 : option CsvFrame)
  (log : list Event) :
  nothing_to_load u -> nothing_to_load g1 -> nothing_to_load g2 ->
  main to_datetime argsort argsort_f u g1 g2 log = (Ok None, log ++ [Info]).
Proof.
  intros Hu H1 H2. unfold main, after_utility, after_gen1.
  rewrite bind_run, (load_no_rows u "Utility" [] log Hu).
  rewrite bind_run, (load_no_rows g1 "Gen1" [] log H1).
  rewrite bind_run, (load_no_rows g2 "Gen2" [] log H2).
  reflexivity.
Qed.

(** Property X13.  [process_source] reads the four required columns and
    nothing else: two files that agree on these columns, whatever other
    columns they have and in whatever order the columns come, give the same
    frame, the same messages and the same failures. *)
Theorem only_required_columns_matter (f f' : CsvFrame) (name : string)
  (log : list Event) :
  (forall c, In c required -> getitem f c = getitem f' c) ->
  process_source to_datetime argsort f name log
  = process_source to_datetime argsort f' name log.
Proof.
  intros H. unfold process_source.
  assert (R : has_required f = has_required f').
  { rewrite !has_required_getitem. unfold required in *. cbn [forallb].
    rewrite !(H _) by (cbn; auto 10). reflexivity. }
  assert (S : stamped to_datetime f = stamped to_datetime f').
  { unfold stamped. unfold required in H.
    rewrite !(H _) by (cbn; auto 10). reflexivity. }
  now rewrite R, S.
Qed.

End EmptyFiles.

Lemma files_without_rows_witness :
  nothing_to_load (Some header_csv) /\ nothing_to_load None
  /\ main iso_to_datetime stable_argsort stable_argsort_f
       (Some header_csv) None (Some header_csv) []
     = (Ok None, [] ++ [Info]).
Proof.
  assert (H : nothing_to_load (Some header_csv)) by reflexivity.
  split; [exact H|]. split; [exact I|].
  exact (files_without_rows_show_the_prompt iso_to_datetime stable_argsort
           stable_argsort_f (Some header_csv) None (Some header_csv) [] H I H).
Defined.

Lemma only_required_columns_witness :
  (forall c, In c required -> getitem meter_csv c = getitem wide_csv c)
  /\ process_source iso_to_datetime stable_argsort meter_csv "Utility" []
     = process_source iso_to_datetime stable_argsort wide_csv "Utility" [].
Proof.
  assert (H : forall c, In c required -> getitem meter_csv c = getitem wide_csv c).
  { intros c [<-|[<-|[<-|[<-|[]]]]]; vm_compute; reflexivity. }
  split; [exact H|].
  exact (only_required_columns_matter iso_to_datetime stable_argsort
           meter_csv wide_csv "Utility" [] H).
Defined.

(** ** A file that is already in time order *)

Lemma sorted_le_strong (l : list Z) : Sorted Z.le l -> StronglySorted Z.le l.
Proof. apply Sorted_StronglySorted. intros a b c. apply Z.le_trans. Qed.

Lemma sorted_perm_eq (l1 : list Z) : forall l2,
  StronglySorted Z.le l1 -> StronglySorted Z.lt l2 -> Permutation l1 l2 ->
  l1 = l2.
Proof.
  induction l1 as [|a l1 IH]; intros l2 H1 H2 P.
  - apply Permutation_nil in P. now subst.
  - destruct l2 as [|b l2]; [apply Permutation_sym, Permutation_nil in P; discriminate|].
    apply StronglySorted_inv in H1 as [H1 Ha].
    apply StronglySorted_inv in H2 as [H2 Hb].
    rewrite Forall_forall in Ha, Hb.
    assert (a = b) as <-.
    { assert (Hb' : In b (a :: l1))
        by (apply (Permutation_in _ (Permutation_sym P)); now left).
      assert (Ha' : In a (b :: l2)) by (apply (Permutation_in _ P); now left).
      destruct Hb' as [E|E1]; [exact E|].
      destruct Ha' as [E|E2]; [now symmetry|].
      specialize (Ha b E1). specialize (Hb a E2). lia. }
    f_equal. apply IH; try assumption. now apply Permutation_cons_inv in P.
Qed.

Lemma strictly_sorted_nth (l : list Z) :
  StronglySorted Z.lt l ->
  forall i j, i < List.length l -> j < List.length l ->
              nth i l 0%Z = nth j l 0%Z -> i = j.
Proof.
  induction 1 as [|a l Hs IH Ha]; intros i j Hi Hj E; [cbn in Hi; lia|].
  rewrite Forall_forall in Ha. cbn [List.length] in Hi, Hj.
  destruct i as [|i], j as [|j]; cbn [nth] in E; [reflexivity| | |].
  - exfalso. assert (In (nth j l 0%Z) l) by (apply nth_In; lia).
    specialize (Ha _ H). lia.
  - exfalso. assert (In (nth i l 0%Z) l) by (apply nth_In; lia).
    specialize (Ha _ H). lia.
  - f_equal. apply IH; [lia | lia | exact E].
Qed.

Lemma map_nth_seq (l : list Z) (sigma : list nat) :
  StronglySorted Z.lt l ->
  Forall (fun i => i < List.length l) sigma ->
  map (fun i => nth i l 0%Z) sigma = l ->
  sigma = seq 0 (List.length l).
Proof.
  intros Hs Hr E.
  assert (E' : map (fun i => nth i l 0%Z) sigma
               = map (fun i => nth i l 0%Z) (seq 0 (List.length l))).
  { rewrite E. symmetry. rewrite <- (take_map_nth 0%Z).
    - apply take_all.
    - apply Forall_forall. intros i Hi. apply in_seq in Hi. lia. }
  clear E. revert E' Hr.
  assert (Hq : Forall (fun i => i < List.length l) (seq 0 (List.length l))).
  { apply Forall_forall. intros i Hi. apply in_seq in Hi. lia. }
  revert Hq. generalize (seq 0 (List.length l)) as s.
  induction sigma as [|i sigma IH]; intros [|j s] Hq E Hr;
    try discriminate; [reflexivity|].
  cbn [map] in E. injection E as E0 E.
  inversion Hq; subst. inversion Hr; subst.
  f_equal; [now apply (strictly_sorted_nth l Hs)|].
  now apply IH.
Qed.

Section OrderedFile.

Variable to_datetime : list (option string) -> list (option Z).
Variable argsort : list Z -> list nat.
Hypothesis argsort_sorts : sorts argsort.

Lemma sort_values_sorted (raw : list Stamped) (times : list Z) :
  map st_datetime raw = map Some times -> StronglySorted Z.lt times ->
  sort_values argsort st_datetime raw = raw.
Proof.
  intros Hk Hs. rewrite sort_values_split.
  assert (Hall : forall r, In r raw -> isna (st_datetime r) = false).
  { intros r Hr. apply (in_map st_datetime) in Hr. rewrite Hk in Hr.
    apply in_map_iff in Hr as (t & <- & _). reflexivity. }
  assert (F1 : filter (has_key st_datetime) raw = raw).
  { apply forallb_filter_id, forallb_forall. intros r Hr. unfold has_key.
    now rewrite (Hall r Hr). }
  assert (F2 : filter (no_key st_datetime) raw = []).
  { rewrite (filter_ext_in _ (fun _ => false)); [apply filter_false|].
    intros r Hr. unfold no_key. exact (Hall r Hr). }
  assert (D : dropna (map st_datetime raw) = times).
  { rewrite Hk. clear. unfold dropna.
    induction times as [|t l IH]; cbn; [reflexivity | now rewrite IH]. }
  rewrite F1, F2, D, app_nil_r.
  destruct (argsort_sorts times) as [P S].
  assert (R : Forall (fun i => i < List.length times) (argsort times)).
  { apply Forall_forall. intros i Hi. apply (Permutation_in _ P) in Hi.
    apply in_seq in Hi. lia. }
  assert (T : take times (argsort times) = times).
  { apply sorted_perm_eq; [now apply sorted_le_strong | exact Hs |].
    rewrite (take_perm times _ _ P). now rewrite take_all. }
  rewrite (take_map_nth 0%Z _ _ R) in T.
  rewrite (map_nth_seq times _ Hs R T).
  replace (List.length times) with (List.length raw).
  - apply take_all.
  - rewrite <- (length_map st_datetime raw), Hk. apply length_map.
Qed.

(** Property X14.  For an [argsort] that meets numpy's contract: when every
    row of a file has a timestamp and the timestamps are in strictly ascending
    order, [process_source] returns the rows in the order of the file, and the
    [KWh] column is derived from the readings in the order of the file. *)
Theorem ordered_file_keeps_its_order (f : CsvFrame) (name : string)
  (log log' : list Event) (rows : list Reading) (raw : list Stamped)
  (times : list Z) :
  process_source to_datetime argsort f name log = (Ok rows, log') ->
  stamped to_datetime f = Some raw ->
  map st_datetime raw = map Some times -> StronglySorted Z.lt times ->
  map untag rows = raw
  /\ map KWh rows = derive_KWh (readings raw).
Proof.
  intros H Hraw Hk Hs.
  pose proof (process_source_rows to_datetime argsort f name log log' rows raw H Hraw)
    as R.
  rewrite (sort_values_sorted raw times Hk Hs) in R. split; [exact R|].
  rewrite (process_source_KWh to_datetime argsort f name log log' rows H).
  f_equal. rewrite <- R. unfold readings. rewrite map_map. reflexivity.
Qed.

End OrderedFile.

Lemma ordered_file_witness :
  sorts stable_argsort
  /\ map untag meter_rows = raw_of meter_csv
  /\ map KWh meter_rows = derive_KWh (readings (raw_of meter_csv)).
Proof.
  split; [exact stable_argsort_sorts|].
  apply (ordered_file_keeps_its_order iso_to_datetime stable_argsort
           stable_argsort_sorts meter_csv "Utility" [] [] meter_rows
           (raw_of meter_csv)
           [1709287200000000000; 1709287320000000000;
            1709287500000000000; 1709288100000000000]%Z).
  - vm_compute. reflexivity.
  - vm_compute. reflexivity.
  - vm_compute. reflexivity.
  - repeat constructor.
Defined.

(** ** The line chart of [app.py] *)

Lemma insert_start_in (t x : Z) (l : list Z) :
  In x (insert_start t l) <-> x = t \/ In x l.
Proof.
  induction l as [|h r IH]; cbn [insert_start]; [cbn; intuition|].
  destruct (Z.eqb_spec t h) as [->|Hne]; [cbn; intuition|].
  destruct (t <? h)%Z; cbn [In]; [intuition|]. rewrite IH. intuition.
Qed.

Lemma insert_start_sorted (t : Z) (l : list Z) :
  StronglySorted Z.lt l -> StronglySorted Z.lt (insert_start t l).
Proof.
  induction 1 as [|h r Hs IH Hh]; cbn [insert_start]; [repeat constructor|].
  destruct (Z.eqb_spec t h) as [->|Hne]; [now constructor|].
  destruct (Z.ltb_spec t h) as [Hlt|Hge].
  - constructor; [now constructor|]. constructor; [exact Hlt|].
    eapply Forall_impl; [|exact Hh]. intros a Ha. cbv beta in Ha. lia.
  - constructor; [exact IH|]. apply Forall_forall. intros x Hx.
    apply insert_start_in in Hx as [->|Hx]; [lia|].
    rewrite Forall_forall in Hh. now apply Hh.
Qed.

Lemma index_level_spec (l : list Z) :
  StronglySorted Z.lt (index_level l) /\ forall x, In x (index_level l) <-> In x l.
Proof.
  unfold index_level.
  assert (G : forall acc,
             StronglySorted Z.lt acc ->
             StronglySorted Z.lt (fold_left (fun a t => insert_start t a) l acc)
             /\ forall x, In x (fold_left (fun a t => insert_start t a) l acc)
                          <-> In x acc \/ In x l).
  { induction l as [|t l IH]; intros acc Hacc; cbn [fold_left].
    - split; [exact Hacc|]. cbn. intuition.
    - destruct (IH (insert_start t acc) (insert_start_sorted t acc Hacc)) as [H1 H2].
      split; [exact H1|]. intros x. rewrite H2, insert_start_in. cbn. intuition. }
  destruct (G [] (SSorted_nil _)) as [H1 H2]. split; [exact H1|].
  intros x. rewrite H2. cbn. intuition.
Qed.

Lemma all_some_map {A B} (f : A -> option B) (g : A -> B) (l : list A) :
  (forall x, In x l -> f x = Some (g x)) ->
  all_some (map f l) = Some (map g l).
Proof.
  induction l as [|x l IH]; intros H; [reflexivity|].
  cbn [map all_some]. rewrite (H x (or_introl eq_refl)).
  now rewrite IH by (intros y Hy; apply H; now right).
Qed.

Lemma filter_both {A} (p q : A -> bool) (l : list A) :
  filter (fun x => p x && q x) l = filter q (filter p l).
Proof.
  induction l as [|x l IH]; [reflexivity|]. cbn.
  destruct (p x); cbn; [destruct (q x)|]; now rewrite IH.
Qed.

Lemma filter_start_sorted (l : list Bucket) (t : Z) :
  StronglySorted Z.lt (map bucket_start l) ->
  filter (fun b => (bucket_start b =? t)%Z) l = []
  \/ exists b, filter (fun b => (bucket_start b =? t)%Z) l = [b].
Proof.
  induction l as [|h l IH]; cbn [map filter]; intros H; [now left|].
  apply StronglySorted_inv in H as [Hs Hh].
  destruct (Z.eqb_spec (bucket_start h) t) as [E|Hne]; [|now apply IH].
  right. exists h. f_equal.
  rewrite (filter_ext_in _ (fun _ => false)); [apply filter_false|].
  intros b Hb. apply Z.eqb_neq. rewrite Forall_forall in Hh.
  specialize (Hh _ (in_map bucket_start _ _ Hb)). lia.
Qed.

(** The value of a cell of the unstacked frame. *)
Lemma cell_spec (rows : list (string * option Z * float)) (chart : list Bucket)
  (s : string) (t : Z) :
  bucket_sums rows = Some chart ->
  (exists b, In b chart /\ b_source b = s /\ bucket_start b = t
             /\ cell chart s t = Some (bucket_kwh b)
             /\ forall c, In c chart -> b_source c = s -> bucket_start c = t -> c = b)
  \/ ((forall b, In b chart -> b_source b = s -> bucket_start b <> t)
      /\ cell chart s t = Some nan).
Proof.
  intros H. unfold cell. rewrite filter_both. fold (of_source s).
  assert (Hsorted : StronglySorted Z.lt (map bucket_start (filter (of_source s) chart))).
  { destruct (in_dec string_dec s (map b_source chart)) as [Hin|Hout].
    - destruct (bucket_sums_of_source rows chart s H Hin) as (buckets & -> & Hasc).
      rewrite map_map. exact Hasc.
    - rewrite (filter_ext_in _ (fun _ => false)); [rewrite filter_false; constructor|].
      intros b Hb. unfold of_source. apply String.eqb_neq. intros E.
      apply Hout. rewrite <- E. now apply in_map. }
  assert (Hin : forall b, In b (filter (fun b => (bucket_start b =? t)%Z)
                                  (filter (of_source s) chart))
                          <-> In b chart /\ b_source b = s /\ bucket_start b = t).
  { intros b. rewrite !filter_In. unfold of_source.
    rewrite String.eqb_eq, Z.eqb_eq. intuition. }
  destruct (filter_start_sorted _ t Hsorted) as [E|[b E]]; rewrite E in *.
  - right. split; [|reflexivity]. intros b Hb Hs Ht.
    apply (proj2 (Hin b)); auto.
  - left. exists b. destruct (proj1 (Hin b) (or_introl eq_refl)) as (A & B & C).
    repeat split; try assumption.
    intros c Hc Hs Ht. destruct (proj2 (Hin c)) as [E'|[]]; auto.
Qed.

(** Property X15.  The reshaping never fails on chart data, and the unstacked
    frame holds every bucket sum: it has one row for each distinct bucket
    start, in ascending order, and one column for each source, in ascending
    order of name; a cell holds the sum of the bucket of that source and start
    when there is one, and is missing (NaN) when the source has no bucket at
    that time. *)
Theorem unstack_holds_every_bucket (rows : list (string * option Z * float))
  (chart : list Bucket) :
  bucket_sums rows = Some chart ->
  exists wide,
    unstack chart = Some wide
    /\ StronglySorted Z.lt (map w_datetime wide)
    /\ (forall row, In row wide ->
          map fst (w_cells row) = group_keys (map (fun r => fst (fst r)) rows))
    /\ (forall b, In b chart ->
          exists row, In row wide /\ w_datetime row = bucket_start b
                      /\ In (b_source b, bucket_kwh b) (w_cells row))
    /\ (forall row s v, In row wide -> In (s, v) (w_cells row) ->
          (exists b, In b chart /\ b_source b = s
                     /\ bucket_start b = w_datetime row /\ bucket_kwh b = v)
          \/ (v = nan
              /\ forall b, In b chart -> b_source b = s ->
                           bucket_start b <> w_datetime row)).
Proof.
  intros H.
  set (value := fun s t => match cell chart s t with Some v => v | None => nan end).
  assert (Hcell : forall s t, cell chart s t = Some (value s t)).
  { intros s t. unfold value.
    destruct (cell_spec rows chart s t H) as [(b & _ & _ & _ & -> & _)|[_ ->]];
      reflexivity. }
  set (columns := group_keys (map b_source chart)).
  set (index := index_level (map bucket_start chart)).
  set (wide := map (fun t => mkWideRow t (map (fun s => (s, value s t)) columns)) index).
  assert (Hcols : columns = group_keys (map (fun r => fst (fst r)) rows)).
  { unfold columns. apply group_keys_same. intros x. split; intros Hx.
    - apply in_unique in Hx. rewrite (bucket_sums_unique_sources rows chart H) in Hx.
      exact (proj1 (proj2 (group_keys_spec _) x) Hx).
    - apply unique_in. rewrite (bucket_sums_unique_sources rows chart H).
      exact (proj2 (proj2 (group_keys_spec _) x) Hx). }
  exists wide. split; [|split; [|split; [|split]]].
  - unfold unstack. fold columns index. unfold wide. apply all_some_map.
    intros t _. rewrite (all_some_map _ (fun s => (s, value s t))); [reflexivity|].
    intros s _. now rewrite Hcell.
  - unfold wide. rewrite map_map. cbn [w_datetime]. rewrite map_id.
    apply index_level_spec.
  - intros row Hrow. unfold wide in Hrow. apply in_map_iff in Hrow as (t & <- & _).
    cbn [w_cells]. rewrite map_map. cbn [fst]. rewrite map_id. exact Hcols.
  - intros b Hb.
    exists (mkWideRow (bucket_start b)
              (map (fun s => (s, value s (bucket_start b))) columns)).
    cbn [w_datetime w_cells]. split; [|split; [reflexivity|]].
    + unfold wide. apply in_map_iff. exists (bucket_start b). split; [reflexivity|].
      apply index_level_spec. now apply in_map.
    + apply in_map_iff. exists (b_source b). split.
      * f_equal.
        destruct (cell_spec rows chart (b_source b) (bucket_start b) H)
          as [(b' & Hb' & Hs' & Ht' & Hc & Hone)|[Hnone _]].
        -- unfold value. rewrite Hc. now rewrite (Hone b Hb eq_refl eq_refl).
        -- exfalso. exact (Hnone b Hb eq_refl eq_refl).
      * apply group_keys_spec. now apply in_map.
  - intros row s v Hrow Hsv. unfold wide in Hrow.
    apply in_map_iff in Hrow as (t & <- & _). cbn [w_cells w_datetime] in *.
    apply in_map_iff in Hsv as (s' & E & _). injection E as -> <-.
    unfold value.
    destruct (cell_spec rows chart s t H) as [(b & Hb & Hs & Ht & -> & _)|[Hnone ->]].
    + left. exists b. auto.
    + right. split; [reflexivity | exact Hnone].
Qed.

Lemma unstack_witness :
  exists wide,
    unstack (r_chart_data two_files_report) = Some wide
    /\ StronglySorted Z.lt (map w_datetime wide)
    /\ (forall row, In row wide ->
          map fst (w_cells row)
          = group_keys (map (fun r => fst (fst r))
                          (chart_rows (combined_df two_files_report))))
    /\ (forall b, In b (r_chart_data two_files_report) ->
          exists row, In row wide /\ w_datetime row = bucket_start b
                      /\ In (b_source b, bucket_kwh b) (w_cells row))
    /\ (forall row s v, In row wide -> In (s, v) (w_cells row) ->
          (exists b, In b (r_chart_data two_files_report) /\ b_source b = s
                     /\ bucket_start b = w_datetime row /\ bucket_kwh b = v)
          \/ (v = nan
              /\ forall b, In b (r_chart_data two_files_report) -> b_source b = s ->
                           bucket_start b <> w_datetime row)).
Proof.
  exact (unstack_holds_every_bucket (chart_rows (combined_df two_files_report))
           (r_chart_data two_files_report) two_files_chart).
Defined.

Lemma unstack_total (rows : list (string * option Z * float)) (chart : list Bucket) :
  bucket_sums rows = Some chart -> exists wide, unstack chart = Some wide.
Proof.
  intros H.
  set (value := fun s t => match cell chart s t with Some v => v | None => nan end).
  assert (Hcell : forall s t, cell chart s t = Some (value s t)).
  { intros s t. unfold value.
    destruct (cell_spec rows chart s t H) as [(b & _ & _ & _ & -> & _)|[_ ->]];
      reflexivity. }
  eexists. unfold unstack. apply all_some_map.
  intros t _. rewrite (all_some_map _ (fun s => (s, value s t))); [reflexivity|].
  intros s _. now rewrite Hcell.
Qed.

Lemma chart_data_economics (df : list Reading) :
  chart_data (economics df)
  = bucket_sums (map (fun r => (source r, post_datetime r, KWh r)) df).
Proof.
  unfold chart_data. rewrite economics_map, map_map. reflexivity.
Qed.

(** The figure that the loop over the cost summary leaves is the one of the
    chart block. *)
Lemma cost_rows_fig (df : list EconRow) (rows : list SummaryRow) :
  forall fig fig',
    cost_rows df rows fig = Some (Some fig') ->
    fig = Some fig' \/ chart_block df = Some fig'.
Proof.
  induction rows as [|row rows IH]; intros fig fig' H; cbn [cost_rows] in H.
  - injection H as ->. now left.
  - destruct (int_raises (s_value row)); [discriminate|].
    destruct (chart_block df) as [f|] eqn:E; [|discriminate].
    right. destruct (IH _ _ H) as [A|A]; [exact A | exact A].
Qed.

Lemma chart_block_chart (df : list EconRow) (chart : list Bucket) (ms : list Marker) :
  chart_block df = Some (chart, ms) ->
  chart_data df = Some chart /\ markers chart = Some ms.
Proof.
  unfold chart_block. destruct (chart_data df) as [c|]; [|discriminate].
  destruct (markers c) as [m|] eqn:E; [|discriminate].
  intros H. injection H as <- <-. auto.
Qed.

Section BothPages.

Variable to_datetime : list (option string) -> list (option Z).
Variable argsort : list Z -> list nat.
Variable argsort_f : list float -> list nat.

Lemma report_chart (dfs : list (list Reading)) (log log' : list Event) (rep : Report) :
  report argsort_f dfs log = (Ok (Some rep), log') ->
  dfs <> [] /\ log' = log
  /\ combined_df rep = economics (pd_concat dfs)
  /\ chart_data (economics (pd_concat dfs)) = Some (r_chart_data rep).
Proof.
  unfold report. destruct dfs as [|d dfs].
  - cbv [bind emit ret]. intros H. discriminate H.
  - cbv zeta. destruct (fuel_summary _) as [|kv fuel]; [intros H; discriminate H|].
    destruct (cost_rows _ _ _) as [[[chart ms]|]|] eqn:E;
      [|intros H; discriminate H|intros H; discriminate H].
    cbv [ret]. intros H. injection H as <- <-.
    split; [discriminate|]. split; [reflexivity|]. split; [reflexivity|].
    cbn [r_chart_data].
    apply cost_rows_fig in E as [E|E]; [discriminate|].
    now apply chart_block_chart in E.
Qed.

(** Without chart data the block that follows the uploads raises. *)
Lemma report_raises_no_chart (dfs : list (list Reading)) (log : list Event) :
  dfs <> [] -> chart_data (economics (pd_concat dfs)) = None ->
  report argsort_f dfs log = (Raised, log).
Proof.
  intros Hne Hnone. unfold report. destruct dfs as [|d dfs]; [contradiction|].
  cbv zeta. destruct (fuel_summary _) as [|kv fuel]; [reflexivity|].
  destruct (cost_rows _ _ _) as [[[chart ms]|]|] eqn:E; try reflexivity.
  apply cost_rows_fig in E as [E|E]; [discriminate|].
  apply chart_block_chart in E as [E _]. rewrite Hnone in E. discriminate.
Qed.

(** Property X16.  Given the same uploads, when the run of [pp.py] ends with
    its report, the run of [app.py] ends with its own: it shows a message of
    the same kind for the same sources, its combined rows are those of [pp.py]
    without the two economics columns, and its line chart is drawn from the
    bucket sums of the chart data of [pp.py], unstacked. *)
Theorem app_page_shows_the_same_data (u g1 g2 : option CsvFrame)
  (log log' : list Event) (rep : Report) :
  main to_datetime argsort argsort_f u g1 g2 log = (Ok (Some rep), log') ->
  exists wide,
    app_main to_datetime argsort u g1 g2 log
    = (Ok (Some (mkAppReport (map reading (combined_df rep)) wide)), log')
    /\ unstack (r_chart_data rep) = Some wide.
Proof.
  unfold main, after_utility, after_gen1, app_main. rewrite !bind_run.
  destruct (load to_datetime argsort u "Utility" [] log) as [[d1|] l1];
    [|intros H; discriminate H].
  rewrite !bind_run.
  destruct (load to_datetime argsort g1 "Gen1" d1 l1) as [[d2|] l2];
    [|intros H; discriminate H].
  rewrite !bind_run.
  destruct (load to_datetime argsort g2 "Gen2" d2 l2) as [[d3|] l3];
    [|intros H; discriminate H].
  intros H. apply report_chart in H as (Hne & -> & Hdf & Hchart).
  rewrite chart_data_economics in Hchart.
  destruct (unstack_total _ _ Hchart) as [wide Hwide].
  exists wide. split; [|exact Hwide].
  unfold app_report. destruct d3 as [|d d3]; [contradiction|].
  rewrite Hchart, Hwide, Hdf, economics_map, map_map. cbn [reading].
  now rewrite map_id.
Qed.

End BothPages.

Lemma app_page_witness :
  exists wide,
    app_main iso_to_datetime stable_argsort (Some meter_csv) (Some even_csv) None []
    = (Ok (Some (mkAppReport (map reading (combined_df two_files_report)) wide)),
       [Success "Utility"; Success "Gen1"])
    /\ unstack (r_chart_data two_files_report) = Some wide.
Proof.
  exact (app_page_shows_the_same_data iso_to_datetime stable_argsort stable_argsort_f
           (Some meter_csv) (Some even_csv) None [] _ two_files_report
           two_files_run_eq).
Defined.

(** ** Failures that are not isolated *)

Lemma sequence_none {A} (l : list (option (list A))) :
  In None l -> sequence l = None.
Proof.
  induction l as [|[x|] l IH]; cbn [sequence]; intros H.
  - contradiction.
  - destruct H as [H|H]; [discriminate|]. now rewrite IH.
  - reflexivity.
Qed.

Lemma bucket_sums_untimed (rows : list (string * option Z * float)) (s : string) :
  In s (map (fun r => fst (fst r)) rows) ->
  (forall t v, ~ In (s, Some t, v) rows) ->
  bucket_sums rows = None.
Proof.
  intros Hs Hnone. unfold bucket_sums. apply sequence_none.
  apply in_map_iff. exists s. split; [|now apply group_keys_spec].
  fold (series_of rows s).
  assert (E : stamps (series_of rows s) = []).
  { destruct (stamps (series_of rows s)) as [|[t v] l] eqn:E; [reflexivity|].
    exfalso. apply (Hnone t v). apply series_of_in, stamps_in.
    rewrite E. now left. }
  unfold resample_sum. fold (stamps (series_of rows s)). now rewrite E.
Qed.

Lemma sequence_none_in {A} (l : list (option (list A))) :
  sequence l = None -> In None l.
Proof.
  induction l as [|[x|] l IH]; cbn [sequence]; intros H.
  - discriminate.
  - right. apply IH. destruct (sequence l); [discriminate | reflexivity].
  - now left.
Qed.

Lemma bucket_sums_none (rows : list (string * option Z * float)) :
  bucket_sums rows = None ->
  exists s, In s (map (fun r => fst (fst r)) rows)
            /\ forall t v, ~ In (s, Some t, v) rows.
Proof.
  unfold bucket_sums. intros H. apply sequence_none_in in H.
  apply in_map_iff in H as (s & Hs & Hin). exists s.
  split; [now apply group_keys_spec|].
  fold (series_of rows s) in Hs.
  destruct (resample_sum bucket_width (series_of rows s)) as [b|] eqn:E;
    [discriminate|].
  intros t v Htv. apply series_of_in, stamps_in in Htv.
  unfold resample_sum in E. fold (stamps (series_of rows s)) in E.
  apply (mergesort_in (t, v)) in Htv.
  destruct (mergesort (stamps (series_of rows s))) as [|[t0 v0] l];
    [contradiction | discriminate].
Qed.

(** A source all of whose rows lack a timestamp leaves no chart data. *)
Lemma chart_data_untimed (df : list Reading) (r : Reading) :
  In r df ->
  (forall r', In r' df -> source r' = source r -> post_datetime r' = None) ->
  chart_data (economics df) = None.
Proof.
  intros Hr Hnone. rewrite chart_data_economics.
  apply (bucket_sums_untimed _ (source r)).
  - rewrite map_map. cbn [fst]. now apply in_map.
  - intros t v Hin. apply in_map_iff in Hin as (r' & E & Hr').
    injection E as Hs Ht _. rewrite (Hnone r' Hr' Hs) in Ht. discriminate.
Qed.

Section Failures.

Variable to_datetime : list (option string) -> list (option Z).
Variable argsort : list Z -> list nat.
Variable argsort_f : list float -> list nat.

(** Property X17.  When some source has rows and none of them has a timestamp
    (no date of the file could be parsed), [resample] has nothing to build its
    bins from: the block that follows the uploads raises (where it makes the
    chart data, if not before), for all the sources together, and shows no
    message of its own. *)
Theorem untimed_source_fails_the_chart (dataframes : list (list Reading))
  (r : Reading) (log : list Event) :
  In r (pd_concat dataframes) ->
  (forall r', In r' (pd_concat dataframes) -> source r' = source r ->
              post_datetime r' = None) ->
  report argsort_f dataframes log = (Raised, log).
Proof.
  intros Hr Hnone. apply report_raises_no_chart.
  - intros E. subst dataframes. contradiction.
  - exact (chart_data_untimed _ r Hr Hnone).
Qed.

Lemma load_raises (f : CsvFrame) (name : string) (dfs : list (list Reading))
  (log : list Event) :
  has_required f = true -> stamped to_datetime f = None ->
  load to_datetime argsort (Some f) name dfs log = (Raised, log).
Proof.
  intros R S. unfold load. rewrite bind_run. unfold process_source.
  rewrite R, S. reflexivity.
Qed.

Lemma float_dates_raise (f : CsvFrame) (x : float) (cells : list float) :
  getitem f "post_date" = Some (FloatCol (x :: cells)) ->
  stamped to_datetime f = None.
Proof.
  intros E. unfold stamped. rewrite E.
  destruct (getitem f "post_time"); [|reflexivity].
  destruct (getitem f "total_kw"); [|reflexivity].
  destruct (getitem f "kwh_import"); reflexivity.
Qed.

(** Property X18.  Only a missing column is isolated.  A file that has the
    four columns but on which the arithmetic of [process_source] raises makes
    the run of the page end with an exception, whatever slot it is uploaded
    in and whatever the other files are.  The arithmetic raises on readings
    that were read as text, in a file of two rows or more, and on dates that
    were read as numbers. *)
Theorem mistyped_file_fails_the_page (f : CsvFrame) (u g1 g2 : option CsvFrame)
  (log : list Event) :
  has_required f = true ->
  (stamped to_datetime f = None ->
   u = Some f \/ g1 = Some f \/ g2 = Some f ->
   fst (main to_datetime argsort argsort_f u g1 g2 log) = Raised)
  /\ (forall cells,
        getitem f "kwh_import" = Some (ObjectCol cells) ->
        2 <= List.length cells -> (exists c, In (Some c) cells) ->
        stamped to_datetime f = None)
  /\ (forall x cells,
        getitem f "post_date" = Some (FloatCol (x :: cells)) ->
        stamped to_datetime f = None).
Proof.
  intros R. split; [|split].
  - intros S Hslot. unfold main, after_utility, after_gen1. rewrite bind_run.
    destruct (load to_datetime argsort u "Utility" [] log) as [[d1|] l1] eqn:E1;
      [|reflexivity].
    rewrite bind_run.
    destruct (load to_datetime argsort g1 "Gen1" d1 l1) as [[d2|] l2] eqn:E2;
      [|reflexivity].
    rewrite bind_run.
    destruct (load to_datetime argsort g2 "Gen2" d2 l2) as [[d3|] l3] eqn:E3;
      [|reflexivity].
    exfalso. destruct Hslot as [->|[->| ->]].
    + rewrite (load_raises f _ _ _ R S) in E1. discriminate.
    + rewrite (load_raises f _ _ _ R S) in E2. discriminate.
    + rewrite (load_raises f _ _ _ R S) in E3. discriminate.
  - intros cells. apply text_readings_raise.
  - intros x cells. apply float_dates_raise.
Qed.

(** *** Rows whose timestamp does not parse *)








End Failures.

Lemma untimed_source_witness :
  In undated_row (pd_concat [meter_rows; undated_rows])
  /\ report stable_argsort_f [meter_rows; undated_rows] [Success "Utility"; Success "Gen2"]
     = (Raised, [Success "Utility"; Success "Gen2"]).
Proof.
  assert (H : In undated_row (pd_concat [meter_rows; undated_rows])).
  { vm_compute. do 4 right. left. reflexivity. }
  split; [exact H|].
  apply (untimed_source_fails_the_chart stable_argsort_f
           [meter_rows; undated_rows] undated_row _ H).
  intros r' Hr' Hs. vm_compute in Hr'.
  repeat (destruct Hr' as [<-|Hr']; [first [discriminate Hs | reflexivity]|]).
  contradiction.
Defined.

Lemma mistyped_file_witness :
  has_required text_csv = true
  /\ getitem text_csv "kwh_import"
     = Some (ObjectCol [Some "10"; Some "abc"; Some "12.5"; Some "20"]%string)
  /\ stamped iso_to_datetime text_csv = None
  /\ fst (main iso_to_datetime stable_argsort stable_argsort_f
            (Some meter_csv) (Some text_csv) None []) = Raised.
Proof.
  assert (R : has_required text_csv = true) by (vm_compute; reflexivity).
  assert (E : getitem text_csv "kwh_import"
              = Some (ObjectCol [Some "10"; Some "abc"; Some "12.5"; Some "20"]%string))
    by reflexivity.
  destruct (mistyped_file_fails_the_page iso_to_datetime stable_argsort
              stable_argsort_f text_csv (Some meter_csv) (Some text_csv) None [] R)
    as (Hrun & Htext & _).
  assert (S : stamped iso_to_datetime text_csv = None).
  { apply (Htext _ E); [cbn; lia|]. exists "10"%string. now left. }
  split; [exact R|]. split; [exact E|]. split; [exact S|].
  apply (Hrun S). right. left. reflexivity.
Defined.



(** ** The buckets of a source and the other sources *)

Lemma group_keys_single (s : string) (l : list string) :
  l <> [] -> (forall x, In x l -> x = s) -> group_keys l = [s].
Proof.
  intros Hne Hall. destruct (group_keys_spec l) as [S I].
  apply sorted_keys_unique; [exact S | repeat constructor |].
  intros x. rewrite I. split.
  - intros Hx. left. symmetry. now apply Hall.
  - intros [<-|[]]. destruct l as [|y l]; [contradiction|].
    left. apply Hall. now left.
Qed.

(** Property X19.  The buckets of a source are made from the rows of that
    source alone: the chart data of the rows of one source are the buckets
    that this source has in the chart data of all the rows. The bins of a
    source do not stretch to the readings of another. *)
Theorem source_buckets_from_own_rows (df : list EconRow) (chart : list Bucket)
  (r : EconRow) :
  chart_data df = Some chart -> In r df ->
  chart_data (filter (fun r' => String.eqb (src r') (src r)) df)
  = Some (filter (of_source (src r)) chart).
Proof.
  unfold chart_data. fold (chart_rows df). intros H Hr.
  set (s := src r).
  set (own := fun row : string * option Z * float => String.eqb (fst (fst row)) s).
  assert (E : map (fun r0 : EconRow => (src r0, post_datetime (reading r0), KWh (reading r0)))
                (filter (fun r' => String.eqb (src r') s) df)
              = filter own (chart_rows df)).
  { unfold chart_rows. clear. induction df as [|x df IH]; [reflexivity|].
    cbn [filter map]. unfold own at 1. cbn [fst].
    destruct (String.eqb (src x) s); cbn [map]; now rewrite IH. }
  rewrite E.
  destruct (bucket_sums_block _ chart s H) as (buckets & Hres & Hblock).
  { unfold chart_rows. rewrite map_map. cbn [fst]. now apply in_map. }
  unfold bucket_sums.
  rewrite (group_keys_single s).
  - cbn [map sequence].
    replace (filter (fun r0 : string * option Z * float => String.eqb (fst (fst r0)) s)
               (filter own (chart_rows df)))
      with (filter own (chart_rows df)) by (symmetry; apply filter_idem).
    change (map (fun r0 : string * option Z * float => (snd (fst r0), snd r0))
              (filter own (chart_rows df)))
      with (series_of (chart_rows df) s).
    rewrite Hres, app_nil_r.
    now rewrite Hblock.
  - intros E'. apply map_eq_nil in E'.
    assert (Hin : In (src r, post_datetime (reading r), KWh (reading r))
                    (filter own (chart_rows df))).
    { apply filter_In. split; [now apply chart_rows_in; eauto|].
      unfold own. cbn [fst]. apply String.eqb_refl. }
    now rewrite E' in Hin.
  - intros x Hx. apply in_map_iff in Hx as (row & <- & Hrow).
    apply filter_In in Hrow as [_ Hrow]. now apply String.eqb_eq in Hrow.
Qed.

Lemma source_buckets_witness :
  chart_data (filter (fun r' => String.eqb (src r') (src gen1_row))
                (combined_df two_files_report))
  = Some (filter (of_source (src gen1_row)) (r_chart_data two_files_report)).
Proof.
  exact (source_buckets_from_own_rows (combined_df two_files_report)
           (r_chart_data two_files_report) gen1_row two_files_chart gen1_row_in).
Defined.

(** ** When the chart data can be made *)

(** Property X20.  The chart data can be made exactly when every source of
    [combined_df] has at least one row with a timestamp: [chart_data] fails if
    and only if some source has rows and none of them has a timestamp. *)
Theorem chart_data_needs_a_timestamp_per_source (df : list EconRow) :
  chart_data df = None
  <-> exists r, In r df
                /\ forall r', In r' df -> src r' = src r ->
                              post_datetime (reading r') = None.
Proof.
  unfold chart_data. fold (chart_rows df). split.
  - intros H. apply bucket_sums_none in H as (s & Hs & Hnone).
    apply in_map_iff in Hs as ([[s' t] v] & E & Hrow). cbn in E. subst s'.
    apply chart_rows_in in Hrow as (r & Hr & Hsr & _).
    exists r. split; [exact Hr|]. intros r' Hr' Hs'.
    destruct (post_datetime (reading r')) as [t'|] eqn:Et; [|reflexivity].
    exfalso. apply (Hnone t' (KWh (reading r'))).
    apply chart_rows_in. exists r'. rewrite Hs', Hsr. auto.
  - intros (r & Hr & Hnone). apply (bucket_sums_untimed _ (src r)).
    + unfold chart_rows. rewrite map_map. cbn [fst]. now apply in_map.
    + intros t v Htv. apply chart_rows_in in Htv as (r' & Hr' & Hs' & Ht & _).
      rewrite (Hnone r' Hr' Hs') in Ht. discriminate.
Qed.

Lemma chart_data_timestamp_witness :
  chart_data (economics (meter_rows ++ undated_rows)) = None
  /\ (chart_data (economics (meter_rows ++ undated_rows)) = None
      <-> exists r, In r (economics (meter_rows ++ undated_rows))
                    /\ forall r', In r' (economics (meter_rows ++ undated_rows)) ->
                                  src r' = src r ->
                                  post_datetime (reading r') = None).
Proof.
  split; [vm_compute; reflexivity|].
  exact (chart_data_needs_a_timestamp_per_source
           (economics (meter_rows ++ undated_rows))).
Defined.
